(** * Invoice verification of the bot in [index.js]

    A shallow embedding of the purchase-verification path of the bot: the
    status extractor [extractInvoiceStatus], the [invoice_modal] submit
    handler with its nested [assignRoleAndPersist], and the cooldown kept
    for the [verify_invoice_button] button, followed by the properties the
    specification states about them. *)

From Stdlib Require Import ZArith Ascii String List Bool Lia DecimalString Sorted.
From stdpp Require Import base option list strings gmap.

Set Warnings "-register-all".
Open Scope Z_scope.

(** ** Text

    A JavaScript string is held as the bytes of its UTF-8 form, which is
    how the source file and the wire carry it; what the string methods do
    is said character by character. A string with a lone surrogate has no
    such form and is outside the model. *)
Module Utf8.

(** Bytes 80 to BF continue a character. *)
Definition isContinuation (b : ascii) : bool :=
  let n := N_of_ascii b in ((128 <=? n) && (n <=? 191))%N.

(** Whether a text begins in the middle of a character. *)
Definition continues (s : string) : bool :=
  match s with
  | String b _ => isContinuation b
  | EmptyString => false
  end.

(** The characters of a text, each with its bytes: a character starts at
    every byte that does not continue one. *)
Fixpoint chars (s : string) : list string :=
  match s with
  | EmptyString => []
  | String b rest =>
      match chars rest with
      | t :: ts =>
          if continues rest then String b t :: ts
          else String b EmptyString :: t :: ts
      | [] => [String b EmptyString]
      end
  end.

(** Every byte of the text satisfies [p]. *)
Fixpoint allChars (p : ascii -> bool) (s : string) : bool :=
  match s with
  | EmptyString => true
  | String c rest => p c && allChars p rest
  end.

(** One character: a byte and the bytes that continue it. *)
Definition oneChar (t : string) : bool :=
  match t with
  | String _ rest => allChars isContinuation rest
  | EmptyString => false
  end.

(** Characters as [chars] gives them: each is one character, and all but
    the first begin a character. *)
Definition Chars (l : list string) : Prop :=
  Forall (fun t => oneChar t = true) l /\
  Forall (fun t => continues t = false) (tl l).

(** The text made of the given characters. *)
Fixpoint unchars (l : list string) : string :=
  match l with
  | [] => EmptyString
  | t :: rest => t +:+ unchars rest
  end.

Definition bytes (l : list N) : string :=
  string_of_list_ascii (List.map ascii_of_N l).

(** The bytes of a code point; the surrogates and what lies beyond
    U+10FFFF have none, and get those of U+FFFD. *)
Definition encode (n : N) : string :=
  (if n <? 0x80 then bytes [n]
   else if n <? 0x800 then bytes [0xC0 + n / 64; 0x80 + n mod 64]
   else if (0xD800 <=? n) && (n <=? 0xDFFF) then bytes [0xEF; 0xBF; 0xBD]
   else if n <? 0x10000 then
     bytes [0xE0 + n / 4096; 0x80 + (n / 64) mod 64; 0x80 + n mod 64]
   else if n <? 0x110000 then
     bytes [0xF0 + n / 262144; 0x80 + (n / 4096) mod 64;
            0x80 + (n / 64) mod 64; 0x80 + n mod 64]
   else bytes [0xEF; 0xBF; 0xBD])%N.

(** The code point of a well-formed character. *)
Definition codePoint (t : string) : option N :=
  let n :=
    match List.map N_of_ascii (list_ascii_of_string t) with
    | [a] => a
    | [a; b] => (a mod 32) * 64 + b mod 64
    | [a; b; c] => (a mod 16) * 4096 + (b mod 64) * 64 + c mod 64
    | [a; b; c; d] =>
        (a mod 8) * 262144 + (b mod 64) * 4096 + (c mod 64) * 64 + d mod 64
    | _ => 0x110000
    end%N in
  if String.eqb (encode n) t then Some n else None.

End Utf8.
Export Utf8.

Module JsString.

(** [WhiteSpace] and [LineTerminator] of ECMAScript: TAB, LF, VT, FF, CR,
    SP, NBSP, the other space separators (Zs), LS, PS and ZWNBSP. *)
Definition whiteSpaceCodes : list N :=
  [0x0009; 0x000A; 0x000B; 0x000C; 0x000D; 0x0020; 0x00A0; 0x1680;
   0x2000; 0x2001; 0x2002; 0x2003; 0x2004; 0x2005; 0x2006; 0x2007;
   0x2008; 0x2009; 0x200A; 0x2028; 0x2029; 0x202F; 0x205F; 0x3000;
   0xFEFF]%N.

Definition isWhiteSpace (t : string) : bool :=
  match codePoint t with
  | Some n => existsb (N.eqb n) whiteSpaceCodes
  | None => false
  end.

Fixpoint dropWhile {A} (p : A -> bool) (l : list A) : list A :=
  match l with
  | [] => []
  | x :: rest => if p x then dropWhile p rest else l
  end.

Fixpoint dropWhileEnd {A} (p : A -> bool) (l : list A) : list A :=
  match l with
  | [] => []
  | x :: rest =>
      match dropWhileEnd p rest with
      | [] => if p x then [] else [x]
      | kept => x :: kept
      end
  end.

(** A list without the elements to drop at its two ends. *)
Definition strip {A} (p : A -> bool) (l : list A) : list A :=
  dropWhileEnd p (dropWhile p l).

(** [String.prototype.trim] *)
Definition trim (s : string) : string :=
  unchars (strip isWhiteSpace (chars s)).

(** *** Case mapping

    The mappings of the Unicode Character Database, version 14.0. A row
    [(first, last, step, image)] of a range table sends the code points
    [first], [first + step], ... up to [last] to [image], [image + step],
    ...; a row of a table of specials gives the code points that replace
    one. *)
Definition upperRanges : list (N * N * N * N) :=
  [(0x0061, 0x007A, 1, 0x0041); (0x00B5, 0x00B5, 1, 0x039C); (0x00E0, 0x00F6, 1, 0x00C0);
   (0x00F8, 0x00FE, 1, 0x00D8); (0x00FF, 0x00FF, 1, 0x0178); (0x0101, 0x012F, 2, 0x0100);
   (0x0131, 0x0131, 1, 0x0049); (0x0133, 0x0137, 2, 0x0132); (0x013A, 0x0148, 2, 0x0139);
   (0x014B, 0x0177, 2, 0x014A); (0x017A, 0x017E, 2, 0x0179); (0x017F, 0x017F, 1, 0x0053);
   (0x0180, 0x0180, 1, 0x0243); (0x0183, 0x0185, 2, 0x0182); (0x0188, 0x0188, 1, 0x0187);
   (0x018C, 0x018C, 1, 0x018B); (0x0192, 0x0192, 1, 0x0191); (0x0195, 0x0195, 1, 0x01F6);
   (0x0199, 0x0199, 1, 0x0198); (0x019A, 0x019A, 1, 0x023D); (0x019E, 0x019E, 1, 0x0220);
   (0x01A1, 0x01A5, 2, 0x01A0); (0x01A8, 0x01A8, 1, 0x01A7); (0x01AD, 0x01AD, 1, 0x01AC);
   (0x01B0, 0x01B0, 1, 0x01AF); (0x01B4, 0x01B6, 2, 0x01B3); (0x01B9, 0x01B9, 1, 0x01B8);
   (0x01BD, 0x01BD, 1, 0x01BC); (0x01BF, 0x01BF, 1, 0x01F7); (0x01C5, 0x01C5, 1, 0x01C4);
   (0x01C6, 0x01C6, 1, 0x01C4); (0x01C8, 0x01C8, 1, 0x01C7); (0x01C9, 0x01C9, 1, 0x01C7);
   (0x01CB, 0x01CB, 1, 0x01CA); (0x01CC, 0x01CC, 1, 0x01CA); (0x01CE, 0x01DC, 2, 0x01CD);
   (0x01DD, 0x01DD, 1, 0x018E); (0x01DF, 0x01EF, 2, 0x01DE); (0x01F2, 0x01F2, 1, 0x01F1);
   (0x01F3, 0x01F3, 1, 0x01F1); (0x01F5, 0x01F5, 1, 0x01F4); (0x01F9, 0x021F, 2, 0x01F8);
   (0x0223, 0x0233, 2, 0x0222); (0x023C, 0x023C, 1, 0x023B); (0x023F, 0x0240, 1, 0x2C7E);
   (0x0242, 0x0242, 1, 0x0241); (0x0247, 0x024F, 2, 0x0246); (0x0250, 0x0250, 1, 0x2C6F);
   (0x0251, 0x0251, 1, 0x2C6D); (0x0252, 0x0252, 1, 0x2C70); (0x0253, 0x0253, 1, 0x0181);
   (0x0254, 0x0254, 1, 0x0186); (0x0256, 0x0257, 1, 0x0189); (0x0259, 0x0259, 1, 0x018F);
   (0x025B, 0x025B, 1, 0x0190); (0x025C, 0x025C, 1, 0xA7AB); (0x0260, 0x0260, 1, 0x0193);
   (0x0261, 0x0261, 1, 0xA7AC); (0x0263, 0x0263, 1, 0x0194); (0x0265, 0x0265, 1, 0xA78D);
   (0x0266, 0x0266, 1, 0xA7AA); (0x0268, 0x0268, 1, 0x0197); (0x0269, 0x0269, 1, 0x0196);
   (0x026A, 0x026A, 1, 0xA7AE); (0x026B, 0x026B, 1, 0x2C62); (0x026C, 0x026C, 1, 0xA7AD);
   (0x026F, 0x026F, 1, 0x019C); (0x0271, 0x0271, 1, 0x2C6E); (0x0272, 0x0272, 1, 0x019D);
   (0x0275, 0x0275, 1, 0x019F); (0x027D, 0x027D, 1, 0x2C64); (0x0280, 0x0280, 1, 0x01A6);
   (0x0282, 0x0282, 1, 0xA7C5); (0x0283, 0x0283, 1, 0x01A9); (0x0287, 0x0287, 1, 0xA7B1);
   (0x0288, 0x0288, 1, 0x01AE); (0x0289, 0x0289, 1, 0x0244); (0x028A, 0x028B, 1, 0x01B1);
   (0x028C, 0x028C, 1, 0x0245); (0x0292, 0x0292, 1, 0x01B7); (0x029D, 0x029D, 1, 0xA7B2);
   (0x029E, 0x029E, 1, 0xA7B0); (0x0345, 0x0345, 1, 0x0399); (0x0371, 0x0373, 2, 0x0370);
   (0x0377, 0x0377, 1, 0x0376); (0x037B, 0x037D, 1, 0x03FD); (0x03AC, 0x03AC, 1, 0x0386);
   (0x03AD, 0x03AF, 1, 0x0388); (0x03B1, 0x03C1, 1, 0x0391); (0x03C2, 0x03C2, 1, 0x03A3);
   (0x03C3, 0x03CB, 1, 0x03A3); (0x03CC, 0x03CC, 1, 0x038C); (0x03CD, 0x03CE, 1, 0x038E);
   (0x03D0, 0x03D0, 1, 0x0392); (0x03D1, 0x03D1, 1, 0x0398); (0x03D5, 0x03D5, 1, 0x03A6);
   (0x03D6, 0x03D6, 1, 0x03A0); (0x03D7, 0x03D7, 1, 0x03CF); (0x03D9, 0x03EF, 2, 0x03D8);
   (0x03F0, 0x03F0, 1, 0x039A); (0x03F1, 0x03F1, 1, 0x03A1); (0x03F2, 0x03F2, 1, 0x03F9);
   (0x03F3, 0x03F3, 1, 0x037F); (0x03F5, 0x03F5, 1, 0x0395); (0x03F8, 0x03F8, 1, 0x03F7);
   (0x03FB, 0x03FB, 1, 0x03FA); (0x0430, 0x044F, 1, 0x0410); (0x0450, 0x045F, 1, 0x0400);
   (0x0461, 0x0481, 2, 0x0460); (0x048B, 0x04BF, 2, 0x048A); (0x04C2, 0x04CE, 2, 0x04C1);
   (0x04CF, 0x04CF, 1, 0x04C0); (0x04D1, 0x052F, 2, 0x04D0); (0x0561, 0x0586, 1, 0x0531);
   (0x10D0, 0x10FA, 1, 0x1C90); (0x10FD, 0x10FF, 1, 0x1CBD); (0x13F8, 0x13FD, 1, 0x13F0);
   (0x1C80, 0x1C80, 1, 0x0412); (0x1C81, 0x1C81, 1, 0x0414); (0x1C82, 0x1C82, 1, 0x041E);
   (0x1C83, 0x1C84, 1, 0x0421); (0x1C85, 0x1C85, 1, 0x0422); (0x1C86, 0x1C86, 1, 0x042A);
   (0x1C87, 0x1C87, 1, 0x0462); (0x1C88, 0x1C88, 1, 0xA64A); (0x1D79, 0x1D79, 1, 0xA77D);
   (0x1D7D, 0x1D7D, 1, 0x2C63); (0x1D8E, 0x1D8E, 1, 0xA7C6); (0x1E01, 0x1E95, 2, 0x1E00);
   (0x1E9B, 0x1E9B, 1, 0x1E60); (0x1EA1, 0x1EFF, 2, 0x1EA0); (0x1F00, 0x1F07, 1, 0x1F08);
   (0x1F10, 0x1F15, 1, 0x1F18); (0x1F20, 0x1F27, 1, 0x1F28); (0x1F30, 0x1F37, 1, 0x1F38);
   (0x1F40, 0x1F45, 1, 0x1F48); (0x1F51, 0x1F57, 2, 0x1F59); (0x1F60, 0x1F67, 1, 0x1F68);
   (0x1F70, 0x1F71, 1, 0x1FBA); (0x1F72, 0x1F75, 1, 0x1FC8); (0x1F76, 0x1F77, 1, 0x1FDA);
   (0x1F78, 0x1F79, 1, 0x1FF8); (0x1F7A, 0x1F7B, 1, 0x1FEA); (0x1F7C, 0x1F7D, 1, 0x1FFA);
   (0x1FB0, 0x1FB1, 1, 0x1FB8); (0x1FBE, 0x1FBE, 1, 0x0399); (0x1FD0, 0x1FD1, 1, 0x1FD8);
   (0x1FE0, 0x1FE1, 1, 0x1FE8); (0x1FE5, 0x1FE5, 1, 0x1FEC); (0x214E, 0x214E, 1, 0x2132);
   (0x2170, 0x217F, 1, 0x2160); (0x2184, 0x2184, 1, 0x2183); (0x24D0, 0x24E9, 1, 0x24B6);
   (0x2C30, 0x2C5F, 1, 0x2C00); (0x2C61, 0x2C61, 1, 0x2C60); (0x2C65, 0x2C65, 1, 0x023A);
   (0x2C66, 0x2C66, 1, 0x023E); (0x2C68, 0x2C6C, 2, 0x2C67); (0x2C73, 0x2C73, 1, 0x2C72);
   (0x2C76, 0x2C76, 1, 0x2C75); (0x2C81, 0x2CE3, 2, 0x2C80); (0x2CEC, 0x2CEE, 2, 0x2CEB);
   (0x2CF3, 0x2CF3, 1, 0x2CF2); (0x2D00, 0x2D25, 1, 0x10A0); (0x2D27, 0x2D27, 1, 0x10C7);
   (0x2D2D, 0x2D2D, 1, 0x10CD); (0xA641, 0xA66D, 2, 0xA640); (0xA681, 0xA69B, 2, 0xA680);
   (0xA723, 0xA72F, 2, 0xA722); (0xA733, 0xA76F, 2, 0xA732); (0xA77A, 0xA77C, 2, 0xA779);
   (0xA77F, 0xA787, 2, 0xA77E); (0xA78C, 0xA78C, 1, 0xA78B); (0xA791, 0xA793, 2, 0xA790);
   (0xA794, 0xA794, 1, 0xA7C4); (0xA797, 0xA7A9, 2, 0xA796); (0xA7B5, 0xA7C3, 2, 0xA7B4);
   (0xA7C8, 0xA7CA, 2, 0xA7C7); (0xA7D1, 0xA7D1, 1, 0xA7D0); (0xA7D7, 0xA7D9, 2, 0xA7D6);
   (0xA7F6, 0xA7F6, 1, 0xA7F5); (0xAB53, 0xAB53, 1, 0xA7B3); (0xAB70, 0xABBF, 1, 0x13A0);
   (0xFF41, 0xFF5A, 1, 0xFF21); (0x10428, 0x1044F, 1, 0x10400); (0x104D8, 0x104FB, 1, 0x104B0);
   (0x10597, 0x105BB, 2, 0x10570); (0x10598, 0x105A0, 2, 0x10571); (0x105A4, 0x105B0, 2, 0x1057D);
   (0x105B4, 0x105B8, 2, 0x1058D); (0x105BC, 0x105BC, 1, 0x10595); (0x10CC0, 0x10CF2, 1, 0x10C80);
   (0x118C0, 0x118DF, 1, 0x118A0); (0x16E60, 0x16E7F, 1, 0x16E40); (0x1E922, 0x1E943, 1, 0x1E900)]%N.

Definition upperSpecial : list (N * (N * list N)) :=
  [(0x00DF, (0x0053, [0x0053])); (0x0149, (0x02BC, [0x004E]));
   (0x01F0, (0x004A, [0x030C])); (0x0390, (0x0399, [0x0308; 0x0301]));
   (0x03B0, (0x03A5, [0x0308; 0x0301])); (0x0587, (0x0535, [0x0552]));
   (0x1E96, (0x0048, [0x0331])); (0x1E97, (0x0054, [0x0308]));
   (0x1E98, (0x0057, [0x030A])); (0x1E99, (0x0059, [0x030A]));
   (0x1E9A, (0x0041, [0x02BE])); (0x1F50, (0x03A5, [0x0313]));
   (0x1F52, (0x03A5, [0x0313; 0x0300])); (0x1F54, (0x03A5, [0x0313; 0x0301]));
   (0x1F56, (0x03A5, [0x0313; 0x0342])); (0x1F80, (0x1F08, [0x0399]));
   (0x1F81, (0x1F09, [0x0399])); (0x1F82, (0x1F0A, [0x0399]));
   (0x1F83, (0x1F0B, [0x0399])); (0x1F84, (0x1F0C, [0x0399]));
   (0x1F85, (0x1F0D, [0x0399])); (0x1F86, (0x1F0E, [0x0399]));
   (0x1F87, (0x1F0F, [0x0399])); (0x1F88, (0x1F08, [0x0399]));
   (0x1F89, (0x1F09, [0x0399])); (0x1F8A, (0x1F0A, [0x0399]));
   (0x1F8B, (0x1F0B, [0x0399])); (0x1F8C, (0x1F0C, [0x0399]));
   (0x1F8D, (0x1F0D, [0x0399])); (0x1F8E, (0x1F0E, [0x0399]));
   (0x1F8F, (0x1F0F, [0x0399])); (0x1F90, (0x1F28, [0x0399]));
   (0x1F91, (0x1F29, [0x0399])); (0x1F92, (0x1F2A, [0x0399]));
   (0x1F93, (0x1F2B, [0x0399])); (0x1F94, (0x1F2C, [0x0399]));
   (0x1F95, (0x1F2D, [0x0399])); (0x1F96, (0x1F2E, [0x0399]));
   (0x1F97, (0x1F2F, [0x0399])); (0x1F98, (0x1F28, [0x0399]));
   (0x1F99, (0x1F29, [0x0399])); (0x1F9A, (0x1F2A, [0x0399]));
   (0x1F9B, (0x1F2B, [0x0399])); (0x1F9C, (0x1F2C, [0x0399]));
   (0x1F9D, (0x1F2D, [0x0399])); (0x1F9E, (0x1F2E, [0x0399]));
   (0x1F9F, (0x1F2F, [0x0399])); (0x1FA0, (0x1F68, [0x0399]));
   (0x1FA1, (0x1F69, [0x0399])); (0x1FA2, (0x1F6A, [0x0399]));
   (0x1FA3, (0x1F6B, [0x0399])); (0x1FA4, (0x1F6C, [0x0399]));
   (0x1FA5, (0x1F6D, [0x0399])); (0x1FA6, (0x1F6E, [0x0399]));
   (0x1FA7, (0x1F6F, [0x0399])); (0x1FA8, (0x1F68, [0x0399]));
   (0x1FA9, (0x1F69, [0x0399])); (0x1FAA, (0x1F6A, [0x0399]));
   (0x1FAB, (0x1F6B, [0x0399])); (0x1FAC, (0x1F6C, [0x0399]));
   (0x1FAD, (0x1F6D, [0x0399])); (0x1FAE, (0x1F6E, [0x0399]));
   (0x1FAF, (0x1F6F, [0x0399])); (0x1FB2, (0x1FBA, [0x0399]));
   (0x1FB3, (0x0391, [0x0399])); (0x1FB4, (0x0386, [0x0399]));
   (0x1FB6, (0x0391, [0x0342])); (0x1FB7, (0x0391, [0x0342; 0x0399]));
   (0x1FBC, (0x0391, [0x0399])); (0x1FC2, (0x1FCA, [0x0399]));
   (0x1FC3, (0x0397, [0x0399])); (0x1FC4, (0x0389, [0x0399]));
   (0x1FC6, (0x0397, [0x0342])); (0x1FC7, (0x0397, [0x0342; 0x0399]));
   (0x1FCC, (0x0397, [0x0399])); (0x1FD2, (0x0399, [0x0308; 0x0300]));
   (0x1FD3, (0x0399, [0x0308; 0x0301])); (0x1FD6, (0x0399, [0x0342]));
   (0x1FD7, (0x0399, [0x0308; 0x0342])); (0x1FE2, (0x03A5, [0x0308; 0x0300]));
   (0x1FE3, (0x03A5, [0x0308; 0x0301])); (0x1FE4, (0x03A1, [0x0313]));
   (0x1FE6, (0x03A5, [0x0342])); (0x1FE7, (0x03A5, [0x0308; 0x0342]));
   (0x1FF2, (0x1FFA, [0x0399])); (0x1FF3, (0x03A9, [0x0399]));
   (0x1FF4, (0x038F, [0x0399])); (0x1FF6, (0x03A9, [0x0342]));
   (0x1FF7, (0x03A9, [0x0342; 0x0399])); (0x1FFC, (0x03A9, [0x0399]));
   (0xFB00, (0x0046, [0x0046])); (0xFB01, (0x0046, [0x0049]));
   (0xFB02, (0x0046, [0x004C])); (0xFB03, (0x0046, [0x0046; 0x0049]));
   (0xFB04, (0x0046, [0x0046; 0x004C])); (0xFB05, (0x0053, [0x0054]));
   (0xFB06, (0x0053, [0x0054])); (0xFB13, (0x0544, [0x0546]));
   (0xFB14, (0x0544, [0x0535])); (0xFB15, (0x0544, [0x053B]));
   (0xFB16, (0x054E, [0x0546])); (0xFB17, (0x0544, [0x053D]))]%N.

Definition inRange (n : N) (row : N * N * N * N) : bool :=
  let '(first, last, step, _) := row in
  ((first <=? n) && (n <=? last) && ((n - first) mod step =? 0))%N.

Definition rangeImage (table : list (N * N * N * N)) (n : N) : N :=
  match List.find (inRange n) table with
  | Some (first, _, _, image) => (image + (n - first))%N
  | None => n
  end.

Definition caseImage (special : list (N * (N * list N)))
    (table : list (N * N * N * N)) (n : N) : N * list N :=
  match List.find (fun row => (fst row =? n)%N) special with
  | Some (_, image) => image
  | None => (rangeImage table n, [])
  end.

Definition encodeAll (image : N * list N) : string :=
  encode (fst image) +:+ unchars (List.map encode (snd image)).

Definition upperChar (t : string) : string :=
  match codePoint t with
  | Some n => encodeAll (caseImage upperSpecial upperRanges n)
  | None => t
  end.

(** [String.prototype.toUpperCase] *)
Definition toUpperCase (s : string) : string :=
  unchars (List.map upperChar (chars s)).

(** A string is truthy when it is not empty. *)
Definition nonEmpty (s : string) : bool := negb (String.eqb s "").

(** [Array.prototype.includes] on an array of strings. *)
Definition includes (l : list string) (s : string) : bool :=
  existsb (String.eqb s) l.

End JsString.
Export JsString.

(** ** JSON values, as [JSON.parse] hands them to the handler *)

(** Numbers are the integers (invoice and product ids, counters). *)
Inductive value : Type :=
| VUndefined
| VNull
| VBool (b : bool)
| VNum (n : Z)
| VStr (s : string)
| VArr (elems : list value)
| VObj (fields : list (string * value)).

(** What a [throw] carries: a [TypeError] raised by the language, or the
    rejection of [axios.get], whose [response] is absent when no HTTP
    response was received (network failure, timeout) and holds the status
    code otherwise. *)
Inductive JsError : Type :=
| TypeError
| AxiosError (response : option Z).

(** Completion of an expression that may throw. *)
Inductive Exc (A : Type) : Type :=
| Ok (a : A)
| Throw (e : JsError).
Arguments Ok {A} a.
Arguments Throw {A} e.

#[global] Instance Exc_ret : MRet Exc := fun _ a => Ok a.
#[global] Instance Exc_bind : MBind Exc := fun _ _ f m =>
  match m with
  | Ok a => f a
  | Throw e => Throw e
  end.

Definition truthy (v : value) : bool :=
  match v with
  | VUndefined | VNull => false
  | VBool b => b
  | VNum n => negb (Z.eqb n 0)
  | VStr s => nonEmpty s
  | VArr _ | VObj _ => true
  end.

Definition nullish (v : value) : bool :=
  match v with
  | VUndefined | VNull => true
  | _ => false
  end.

(** [typeof v === 'object'] with [v] truthy: arrays and plain objects. *)
Definition isObject (v : value) : bool :=
  match v with
  | VArr _ | VObj _ => true
  | _ => false
  end.

Fixpoint assoc (k : string) (fields : list (string * value)) : value :=
  match fields with
  | [] => VUndefined
  | (k', v) :: rest => if String.eqb k k' then v else assoc k rest
  end.

(** [v[k]] for the property names the handler reads ([status], [history],
    [state], [payment_status], [status_text], [items], [data],
    [product_id], [id], [sku]): none of them is defined on a prototype, so
    the read is [undefined] on anything but an object that has the key, and
    it throws on [null] and [undefined]. *)
Definition prop (v : value) (k : string) : Exc value :=
  match v with
  | VUndefined | VNull => Throw TypeError
  | VObj fields => Ok (assoc k fields)
  | _ => Ok VUndefined
  end.

(** [typeof v === 'string' && v.trim()], giving [v.trim()] when it holds. *)
Definition trimmedText (v : value) : option string :=
  match v with
  | VStr s => if nonEmpty (trim s) then Some (trim s) else None
  | _ => None
  end.

(** ** [extractInvoiceStatus] *)

(** A sequence of [if (...) return ...;] statements: the first one that
    returns decides. *)
Definition orElse {A} (p q : Exc (option A)) : Exc (option A) :=
  r ← p; match r with Some a => Ok (Some a) | None => q end.
Infix "<|>" := orElse (at level 55, right associativity).

(** [h && typeof h.status === 'string' && h.status.trim()] *)
Definition entryStatus (h : value) : Exc (option string) :=
  if truthy h then s ← prop h "status"; Ok (trimmedText s) else Ok None.

(** A loop over the elements in the order given, returning at the first
    element with a status. *)
Fixpoint scan (l : list value) : Exc (option string) :=
  match l with
  | [] => Ok None
  | h :: rest => entryStatus h <|> scan rest
  end.

(** [for (let i = a.length - 1; i >= 0; i--)] over [a] when
    [Array.isArray(a) && a.length > 0]. *)
Definition scanBackward (a : value) : Exc (option string) :=
  match a with
  | VArr l => scan (rev l)
  | _ => Ok None
  end.

(** [for (const it of a)] over [a] when [a && Array.isArray(a)]. *)
Definition scanForward (a : value) : Exc (option string) :=
  match a with
  | VArr l => scan l
  | _ => Ok None
  end.

Definition altKeys : list string := ["state"; "payment_status"; "status_text"].

(** The body of [for (const k of altKeys)]. *)
Definition probeKey (invoice : value) (k : string) : Exc (option string) :=
  v ← prop invoice k;
  match trimmedText v with
  | Some t => Ok (Some t)
  | None =>
      if truthy v && isObject v
      then s ← prop v "status"; Ok (trimmedText s)
      else Ok None
  end.

Fixpoint probeKeys (invoice : value) (ks : list string) : Exc (option string) :=
  match ks with
  | [] => Ok None
  | k :: rest => probeKey invoice k <|> probeKeys invoice rest
  end.

(** The block guarded by [invoice.status && typeof invoice.status === 'object']. *)
Definition probeNested (s : value) : Exc (option string) :=
  (ss ← prop s "status"; Ok (trimmedText ss))
  <|> (ss ← prop s "status";
       if truthy ss && isObject ss
       then sss ← prop ss "status"; Ok (trimmedText sss)
       else Ok None)
  <|> (h ← prop s "history"; scanBackward h).

Definition extractInvoiceStatus (invoice : value) : Exc (option string) :=
  if negb (truthy invoice) then Ok None else
  (st ← prop invoice "status"; Ok (trimmedText st))
  <|> (st ← prop invoice "status";
       if truthy st && isObject st then probeNested st else Ok None)
  <|> (h ← prop invoice "history"; scanBackward h)
  <|> probeKeys invoice altKeys
  <|> (items ← prop invoice "items"; scanForward items).

(** ** The ordered probe of the specification

    The extractor as the specification words it: a list of pure probes,
    each finding a status or not, tried in order until one finds. What
    makes a string a status, and which status it gives, is [accepted];
    it is given two readings below. *)
Module StatusSpec.

Definition field (m : value) (k : string) : value :=
  match m with
  | VObj fields => assoc k fields
  | _ => VUndefined
  end.

Definition isMapping (v : value) : bool :=
  match v with
  | VObj _ => true
  | _ => false
  end.

Fixpoint firstMatch (ps : list (value -> option string)) (doc : value)
  : option string :=
  match ps with
  | [] => None
  | p :: rest =>
      match p doc with
      | Some s => Some s
      | None => firstMatch rest doc
      end
  end.

Section Probe.

Variable accepted : string -> option string.

Definition stringStatus (v : value) : option string :=
  match v with
  | VStr s => accepted s
  | _ => None
  end.

Definition statusField (m : value) : option string :=
  stringStatus (field m "status").

Fixpoint firstStatus (entries : list value) : option string :=
  match entries with
  | [] => None
  | e :: rest =>
      match statusField e with
      | Some s => Some s
      | None => firstStatus rest
      end
  end.

Definition lastToFirst (seq : value) : option string :=
  match seq with
  | VArr l => firstStatus (rev l)
  | _ => None
  end.

Definition firstToLast (seq : value) : option string :=
  match seq with
  | VArr l => firstStatus l
  | _ => None
  end.

Definition rule1 (doc : value) : option string :=
  stringStatus (field doc "status").

Definition rule2a (doc : value) : option string :=
  let st := field doc "status" in
  if isMapping st then statusField st else None.

Definition rule2b (doc : value) : option string :=
  let st := field doc "status" in
  if isMapping st && isMapping (field st "status")
  then statusField (field st "status")
  else None.

Definition rule2c (doc : value) : option string :=
  let st := field doc "status" in
  if isMapping st then lastToFirst (field st "history") else None.

Definition rule3 (doc : value) : option string :=
  lastToFirst (field doc "history").

Definition rule4 (k : string) (doc : value) : option string :=
  match stringStatus (field doc k) with
  | Some s => Some s
  | None => if isMapping (field doc k) then statusField (field doc k) else None
  end.

Definition rule5 (doc : value) : option string :=
  firstToLast (field doc "items").

Definition probes : list (value -> option string) :=
  [rule1; rule2a; rule2b; rule2c; rule3;
   rule4 "state"; rule4 "payment_status"; rule4 "status_text"; rule5].

Definition extract (document : value) : option string :=
  if nullish document then None else firstMatch probes document.

End Probe.

(** The words of the specification: a non-empty string is a status, and
    is returned trimmed. *)
Definition nonEmptyTrimmed (s : string) : option string :=
  if String.eqb s "" then None else Some (trim s).

(** The reading the code takes: a string is a status when something is
    left of it once trimmed, and that is the status. *)
Definition notBlankTrimmed (s : string) : option string :=
  if String.eqb (trim s) "" then None else Some (trim s).

(** The names [extract] reads on the document itself. *)
Definition probedFields : list string :=
  ["status"; "history"; "state"; "payment_status"; "status_text"; "items"].

Definition lacksProbedFields (doc : value) : bool :=
  forallb (fun k => match field doc k with VUndefined => true | _ => false end)
          probedFields.

End StatusSpec.

(** ** [String(v)]

    Numbers print in decimal. An array prints its elements joined by
    commas, [null] and [undefined] printing as nothing. A parsed object
    prints as [[object Object]] unless it carries a key [toString] of its
    own, which hides the callable one and makes the conversion throw. *)
Fixpoint ToString (v : value) : Exc string :=
  match v with
  | VUndefined => Ok "undefined"
  | VNull => Ok "null"
  | VBool b => Ok (if b then "true" else "false")
  | VNum n => Ok (NilZero.string_of_int (Z.to_int n))
  | VStr s => Ok s
  | VArr l =>
      let element (e : value) : Exc string :=
        if nullish e then Ok "" else ToString e in
      (fix join (l : list value) : Exc string :=
         match l with
         | [] => Ok ""
         | [e] => element e
         | e :: rest => s ← element e; r ← join rest; Ok (s +:+ "," +:+ r)
         end) l
  | VObj fields =>
      match assoc "toString" fields with
      | VUndefined => Ok "[object Object]"
      | _ => Throw TypeError
      end
  end.

(** ** The database and the other collaborators of the handler *)

(** A row of [verifications], with the columns the INSERT binds. *)
Record Verification : Type := {
  invoice_id : string;
  discord_id : string;
  product_id : value;
  role_id : string;
  status : string
}.

Inductive DbError : Type :=
| SQLITE_CONSTRAINT
| SQLITE_ERROR.

(** What a [db.get] callback receives: an error, or the row if there is one. *)
Inductive DbGet (A : Type) : Type :=
| GetError
| GetRow (row : option A).
Arguments GetError {A}.
Arguments GetRow {A} row.

(** Settlement of the promise of [axios.get]. *)
Inductive AxiosResult : Type :=
| Resolved (data : value)
| Rejected (response : option Z).

(** [PermissionsBitField.Flags.ManageRoles] *)
Definition ManageRoles : N := 268435456.

(** [guild.members.me]: the answer of [permissions.has] for a flag, and
    [roles.highest.position]. *)
Record Me : Type := {
  permissions_has : N -> bool;
  highest_position : Z
}.

Record Role : Type := { position : Z }.

Record Guild : Type := {
  (** [members.fetch(id)] resolves to a member *)
  members_fetch : string -> bool;
  members_me : option Me;
  roles_cache : string -> option Role;
  (** [roles.fetch(id)], a rejection counting as no role *)
  roles_fetch : string -> option Role;
  (** [member.roles.add] rejects *)
  roles_add_rejects : bool
}.

(** Everything the handler asks of the outside during one run. The GET is
    keyed by the invoice id, which the URL embeds; [role_mappings] is the
    completion of the SELECT on [role_mappings] for a bound product id;
    [concurrent] are the rows other requests committed between the SELECT
    on [verifications] and the INSERT of this one. *)
Record Env : Type := {
  VERIFY_ROLE_ID : option string;
  select_fails : bool;
  axios_get : string -> AxiosResult;
  role_mappings : value -> DbGet string;
  insert_fails : bool;
  concurrent : list Verification;
  guild : option Guild
}.

(** The calls of the handler that change something outside the process:
    the GET, which the API counts, the INSERT, and [member.roles.add].
    Each is logged when it is made, whether it then succeeds or fails.
    What the handler only reads (the two SELECTs, the members and roles of
    the guild) is an answer of the environment and leaves no entry. *)
Inductive Call : Type :=
| AxiosGet (invoiceId : string)
| DbRunInsert (row : Verification)
| RolesAdd (member role reason : string).

Record World : Type := {
  verifications : list Verification;
  calls : list Call
}.

(** Handlers thread the world. *)
Definition M (A : Type) : Type := World -> A * World.

#[global] Instance M_ret : MRet M := fun _ a w => (a, w).
#[global] Instance M_bind : MBind M := fun _ _ f m w =>
  let (a, w') := m w in f a w'.

Definition call (c : Call) : M unit := fun w =>
  (tt, {| verifications := verifications w; calls := calls w ++ [c] |}).

Definition hasInvoice (invoiceId : string) (r : Verification) : bool :=
  String.eqb (invoice_id r) invoiceId.

(** [SELECT discord_id, status FROM verifications WHERE invoice_id = ?] *)
Definition dbGetVerification (e : Env) (invoiceId : string)
  : M (DbGet Verification) := fun w =>
  if select_fails e then (GetError, w)
  else (GetRow (List.find (hasInvoice invoiceId) (verifications w)), w).

(** [INSERT INTO verifications ...] under the UNIQUE constraint on
    [invoice_id], against the table as the statement finds it. *)
Definition dbRunInsert (e : Env) (row : Verification) : M (option DbError) :=
  fun w =>
  let table := verifications w ++ concurrent e in
  let log := calls w ++ [DbRunInsert row] in
  if insert_fails e then
    (Some SQLITE_ERROR, {| verifications := table; calls := log |})
  else if existsb (hasInvoice (invoice_id row)) table then
    (Some SQLITE_CONSTRAINT, {| verifications := table; calls := log |})
  else
    (None, {| verifications := table ++ [row]; calls := log |}).

Definition axiosGet (e : Env) (invoiceId : string) : M AxiosResult :=
  _ ← call (AxiosGet invoiceId); mret (axios_get e invoiceId).

(** ** Replies *)

Inductive Missing : Type := EmptyResponse | Http404.
Inductive NoRole : Type := MappingQueryFailed | NoMapping | NoProduct.

Inductive Outcome : Type :=
| InvalidInput
| CheckFailed
| AlreadyUsed (invoiceId : string)
| NotFound (how : Missing)
| NotEligible (shown : string)
| NoRoleConfigured (why : NoRole)
| ConcurrentlyUsed (invoiceId : string)
| SaveFailed
| MemberNotFound
| InsufficientPermission
| RoleNotFound
| RoleRankTooLow
| GrantFailed
| Granted (currentStatus roleId : string)
| Unauthorized
| UpstreamUnavailable.

Definition cross : string := "‚ùå".
Definition tick : string := "‚úÖ".

(** The [content] of the reply. *)
Definition content (o : Outcome) : string :=
  match o with
  | InvalidInput => cross +:+ " Invoice ID is required."
  | CheckFailed =>
      cross +:+ " Internal error while checking invoice. Try again later."
  | AlreadyUsed invoiceId =>
      cross +:+ " Invoice ID " +:+ invoiceId
        +:+ " is already used by another discord account."
  | NotFound EmptyResponse =>
      cross +:+ " Invoice not found or invalid response from Sell.app."
  | NotFound Http404 => cross +:+ " Invoice not found."
  | NotEligible shown =>
      cross +:+ " Invoice status is " +:+ shown +:+ ". Not eligible."
  | NoRoleConfigured MappingQueryFailed =>
      tick +:+ " Invoice verified but no role mapping and no VERIFY_ROLE_ID configured."
  | NoRoleConfigured NoMapping =>
      tick +:+ " Invoice verified but no role mapping found and VERIFY_ROLE_ID not configured."
  | NoRoleConfigured NoProduct =>
      tick +:+ " Invoice verified but no product info and VERIFY_ROLE_ID not configured."
  | ConcurrentlyUsed invoiceId =>
      cross +:+ " Invoice ID " +:+ invoiceId
        +:+ " was just used by another account."
  | SaveFailed => cross +:+ " Internal error while saving verification."
  | MemberNotFound =>
      tick +:+ " Invoice verified but could not find your guild member to assign role. Contact staff."
  | InsufficientPermission =>
      tick +:+ " Invoice verified but bot lacks Manage Roles to assign role. Contact staff."
  | RoleNotFound =>
      tick +:+ " Invoice verified but configured role not found in this server. Contact staff."
  | RoleRankTooLow =>
      tick +:+ " Invoice verified but bot role is not high enough to assign the verification role. Contact staff."
  | GrantFailed =>
      tick +:+ " Invoice verified but failed to assign role. Contact staff."
  | Granted currentStatus roleId =>
      tick +:+ " Invoice verified! Status: " +:+ currentStatus
        +:+ ". Role <@&" +:+ roleId +:+ "> assigned."
  | Unauthorized => cross +:+ " Sell.app API unauthorized (invalid API key)."
  | UpstreamUnavailable =>
      cross +:+ " Could not verify invoice. Please try again later."
  end.

(** ** The [invoice_modal] handler *)

(** The [catch (apiErr)] clause around the fetch and what follows it. *)
Definition apiCatch (apiErr : JsError) : Outcome :=
  match apiErr with
  | AxiosError (Some code) =>
      if code =? 401 then Unauthorized
      else if code =? 404 then NotFound Http404
      else UpstreamUnavailable
  | _ => UpstreamUnavailable
  end.

(** A step inside the [try] block: a throw lands in the [catch] clause. *)
Definition attempt {A} (x : Exc A) (k : A -> M Outcome) : M Outcome :=
  match x with
  | Ok a => k a
  | Throw err => mret (apiCatch err)
  end.
Notation "'try' a ← x ; k" := (attempt x (fun a => k))
  (at level 20, a name, x at level 100, k at level 200, only parsing).

(** [resp.data?.data ?? resp.data ?? null] *)
Definition responseInvoice (data : value) : Exc value :=
  inner ← (if nullish data then Ok VUndefined else prop data "data");
  Ok (if nullish inner then (if nullish data then VNull else data) else inner).

Definition validStatuses : list string :=
  ["PAID"; "COMPLETED"; "FULFILLED"; "SUCCESS"].

(** [if (currentStatus) currentStatus = String(currentStatus).toUpperCase()] *)
Definition upperStatus (extracted : option string) : option string :=
  match extracted with
  | Some s => if nonEmpty s then Some (toUpperCase s) else Some s
  | None => None
  end.

(** The status that gets past
    [if (!currentStatus || !validStatuses.includes(currentStatus))]. *)
Definition eligibleStatus (currentStatus : option string) : option string :=
  match currentStatus with
  | Some s => if nonEmpty s && includes validStatuses s then Some s else None
  | None => None
  end.

(** [currentStatus || 'UNKNOWN'] *)
Definition shownStatus (currentStatus : option string) : string :=
  match currentStatus with
  | Some s => if nonEmpty s then s else "UNKNOWN"
  | None => "UNKNOWN"
  end.

Definition resolveProductId (invoice : value) : Exc value :=
  p ← prop invoice "product_id";
  if truthy p then s ← ToString p; Ok (VStr s)
  else
    items ← prop invoice "items";
    match items with
    | VArr (it :: _) =>
        a ← prop it "product_id";
        if truthy a then Ok a else
        b ← prop it "id";
        if truthy b then Ok b else
        c ← prop it "sku";
        if truthy c then Ok c else Ok VNull
    | _ => Ok VNull
    end.

(** [guild.roles.cache.get(id) || (await guild.roles.fetch(id).catch(() => null))] *)
Definition findRole (g : Guild) (roleIdStr : string) : option Role :=
  match roles_cache g roleIdStr with
  | Some r => Some r
  | None => roles_fetch g roleIdStr
  end.

(** The [try] block of the INSERT callback; its [catch] answers
    [GrantFailed], also for the [TypeError] of a missing guild. *)
Definition grantRole (e : Env) (invoiceId userId roleIdStr currentStatus : string)
  : M Outcome :=
  match guild e with
  | None => mret GrantFailed
  | Some g =>
      if negb (members_fetch g userId) then mret MemberNotFound else
      match members_me g with
      | None => mret InsufficientPermission
      | Some me =>
          if negb (permissions_has me ManageRoles)
          then mret InsufficientPermission else
          match findRole g roleIdStr with
          | None => mret RoleNotFound
          | Some role =>
              if highest_position me <=? position role
              then mret RoleRankTooLow else
              _ ← call (RolesAdd userId roleIdStr
                                 ("Verified invoice " +:+ invoiceId));
              if roles_add_rejects g then mret GrantFailed
              else mret (Granted currentStatus roleIdStr)
          end
      end
  end.

Definition assignRoleAndPersist (e : Env) (invoiceId userId : string)
    (productId : value) (currentStatus : string) (roleIdToUse : string)
  : M Outcome :=
  let roleIdStr := roleIdToUse in
  dbErr ← dbRunInsert e {| invoice_id := invoiceId;
                           discord_id := userId;
                           product_id := productId;
                           role_id := roleIdStr;
                           status := currentStatus |};
  match dbErr with
  | Some SQLITE_CONSTRAINT => mret (ConcurrentlyUsed invoiceId)
  | Some _ => mret SaveFailed
  | None => grantRole e invoiceId userId roleIdStr currentStatus
  end.

(** [VERIFY_ROLE_ID] when it is set and not empty. *)
Definition defaultRole (e : Env) : option string :=
  match VERIFY_ROLE_ID e with
  | Some r => if nonEmpty r then Some r else None
  | None => None
  end.

(** [mapRow && mapRow.role_id], the row being its [role_id] column. *)
Definition mappedRole (mapRow : option string) : option string :=
  match mapRow with
  | Some r => if nonEmpty r then Some r else None
  | None => None
  end.

(** The [if (productId) { db.get(...) } else { ... }] that ends the [try]
    block: it is here, once a role id is known, that the row is written. *)
Definition chooseRole (e : Env) (invoiceId userId : string)
    (productId : value) (currentStatus : string) : M Outcome :=
  let persist := assignRoleAndPersist e invoiceId userId productId currentStatus in
  if truthy productId then
    match role_mappings e productId with
    | GetError =>
        match defaultRole e with
        | Some r => persist r
        | None => mret (NoRoleConfigured MappingQueryFailed)
        end
    | GetRow mapRow =>
        match mappedRole mapRow with
        | Some r => persist r
        | None =>
            match defaultRole e with
            | Some r => persist r
            | None => mret (NoRoleConfigured NoMapping)
            end
        end
    end
  else
    match defaultRole e with
    | Some r => persist r
    | None => mret (NoRoleConfigured NoProduct)
    end.

(** What the handler does with a 2xx response. *)
Definition withResponse (e : Env) (invoiceId userId : string) (data : value)
  : M Outcome :=
  try invoice ← responseInvoice data;
  if negb (truthy invoice) then mret (NotFound EmptyResponse) else
  try extracted ← extractInvoiceStatus invoice;
  let currentStatus := upperStatus extracted in
  match eligibleStatus currentStatus with
  | None => mret (NotEligible (shownStatus currentStatus))
  | Some status =>
      try productId ← resolveProductId invoice;
      chooseRole e invoiceId userId productId status
  end.

(** One verification attempt for the trimmed text of the form. *)
Definition verify (e : Env) (invoiceId userId : string) : M Outcome :=
  if negb (nonEmpty invoiceId) then mret InvalidInput else
  row ← dbGetVerification e invoiceId;
  match row with
  | GetError => mret CheckFailed
  | GetRow (Some _) => mret (AlreadyUsed invoiceId)
  | GetRow None =>
      resp ← axiosGet e invoiceId;
      match resp with
      | Rejected response => mret (apiCatch (AxiosError response))
      | Resolved data => withResponse e invoiceId userId data
      end
  end.

Definition invoice_modal (e : Env) (userId : string) (input : string)
  : M Outcome :=
  verify e (trim input) userId.

(** ** The cooldown of [verify_invoice_button] *)

Definition BUTTON_COOLDOWN_MS : Z := 15000.

(** The body of the [setInterval] callback, run at time [now]: every entry
    with [now - v > BUTTON_COOLDOWN_MS * 5] is deleted. *)
Definition prune (now : Z) (buttonCooldown : gmap string Z) : gmap string Z :=
  filter (fun kv => ¬ (now - kv.2 > BUTTON_COOLDOWN_MS * 5)) buttonCooldown.

Inductive ButtonReply : Type :=
| PleaseWait (seconds : Z)
| ShowModal.

Definition verify_invoice_button (now : Z) (userId : string)
    (buttonCooldown : gmap string Z) : ButtonReply * gmap string Z :=
  let last := default 0 (buttonCooldown !! userId) in
  let diff := now - last in
  if diff <? BUTTON_COOLDOWN_MS then
    (PleaseWait (- ((diff - BUTTON_COOLDOWN_MS) / 1000)), buttonCooldown)
  else
    (ShowModal, <[userId := now]> buttonCooldown).

(** ** Observations on a run *)

(** The world once the GET has been issued. *)
Definition fetched (invoiceId : string) (w : World) : World :=
  {| verifications := verifications w; calls := calls w ++ [AxiosGet invoiceId] |}.

(** The outcomes reached after the row has been written. *)
Definition afterInsert (o : Outcome) : bool :=
  match o with
  | MemberNotFound | InsufficientPermission | RoleNotFound
  | RoleRankTooLow | GrantFailed | Granted _ _ => true
  | _ => false
  end.

(** The bot stands strictly above the role [r] in the guild. *)
Definition Outranks (e : Env) (r : string) : Prop :=
  exists g me role,
    guild e = Some g /\ members_me g = Some me /\
    findRole g r = Some role /\
    position role < highest_position me.

(** What every stage of the handler guarantees, from the world [w] it
    starts in: rows are only ever appended, one at most by the handler
    itself; the calls are the GET, the INSERT and [roles.add]; the role is
    added only under a strictly higher rank, and the answer is then
    [Granted] or, if the call failed, [GrantFailed]. *)
Definition Sound (e : Env) (invoiceId userId : string)
    (w : World) (r : Outcome * World) : Prop :=
  let (o, w') := r in
  (if afterInsert o
   then exists row,
       invoice_id row = invoiceId /\ discord_id row = userId /\
       existsb (hasInvoice invoiceId) (verifications w ++ concurrent e) = false /\
       verifications w' = verifications w ++ concurrent e ++ [row]
   else verifications w' = verifications w \/
        verifications w' = verifications w ++ concurrent e) /\
  (exists extra,
      calls w' = calls w ++ extra /\
      forall c, In c extra ->
        c = AxiosGet invoiceId \/
        (exists row, c = DbRunInsert row) \/
        (exists r, c = RolesAdd userId r ("Verified invoice " +:+ invoiceId) /\
                   Outranks e r /\
                   ((exists st, o = Granted st r) \/ o = GrantFailed))) /\
  (forall st r, o = Granted st r ->
     Outranks e r /\
     In (RolesAdd userId r ("Verified invoice " +:+ invoiceId)) (calls w')).

(** The row of one attempt. *)
Definition rowOf (invoiceId userId : string) (productId : value)
    (roleId currentStatus : string) : Verification :=
  {| invoice_id := invoiceId; discord_id := userId; product_id := productId;
     role_id := roleId; status := currentStatus |}.

(** The worlds a stage that starts in [w0] can end in, once a role id is
    chosen: nothing done; the INSERT run and failed; the row written and
    [roles.add] not reached; the row written and [roles.add] called, with
    [Granted] or [GrantFailed] for an answer. *)
Definition Traced (e : Env) (invoiceId userId : string) (productId : value)
    (currentStatus : string) (w0 : World) (r : Outcome * World) : Prop :=
  let (o, w') := r in
  (afterInsert o = false /\ w' = w0) \/
  exists roleId,
    let row := rowOf invoiceId userId productId roleId currentStatus in
    let table := verifications w0 ++ concurrent e in
    let log := calls w0 ++ [DbRunInsert row] in
    nonEmpty roleId = true /\
    ((afterInsert o = false /\
      w' = {| verifications := table; calls := log |}) \/
     (afterInsert o = true /\ (forall st r, o <> Granted st r) /\
      w' = {| verifications := table ++ [row]; calls := log |}) \/
     ((o = Granted currentStatus roleId \/ o = GrantFailed) /\
      w' = {| verifications := table ++ [row];
              calls := log ++ [RolesAdd userId roleId
                                        ("Verified invoice " +:+ invoiceId)] |})).

(** The role id the handler settles on for a product id, if any: the
    mapped role, else [VERIFY_ROLE_ID]. *)
Definition resolvedRole (e : Env) (productId : value) : option string :=
  if truthy productId then
    match role_mappings e productId with
    | GetError => defaultRole e
    | GetRow mapRow =>
        match mappedRole mapRow with
        | Some r => Some r
        | None => defaultRole e
        end
    end
  else defaultRole e.

(** ** A sample guild, environment and invoices *)
Module Sample.

Definition me : Me :=
  {| permissions_has := fun _ => true; highest_position := 5 |}.

(** One role, [role-vip], at position [rolePosition]. *)
Definition guildWith (bot : Me) (rolePosition : Z) : Guild :=
  {| members_fetch := fun _ => true;
     members_me := Some bot;
     roles_cache := fun r =>
       if String.eqb r "role-vip" then Some {| position := rolePosition |}
       else None;
     roles_fetch := fun _ => None;
     roles_add_rejects := false |}.

(** The API answers every GET with [{ data: invoice }]; no product is
    mapped to a role. *)
Definition env (defaultRoleId : option string) (g : Guild) (invoice : value)
  : Env :=
  {| VERIFY_ROLE_ID := defaultRoleId;
     select_fails := false;
     axios_get := fun _ => Resolved (VObj [("data", invoice)]);
     role_mappings := fun _ => GetRow None;
     insert_fails := false;
     concurrent := [];
     guild := Some g |}.

(** The API rejects every GET. *)
Definition failing (response : option Z) : Env :=
  {| VERIFY_ROLE_ID := None;
     select_fails := false;
     axios_get := fun _ => Rejected response;
     role_mappings := fun _ => GetRow None;
     insert_fails := false;
     concurrent := [];
     guild := None |}.

(** The API answers every GET with the body [data]. *)
Definition answering (data : value) : Env :=
  {| VERIFY_ROLE_ID := None;
     select_fails := false;
     axios_get := fun _ => Resolved data;
     role_mappings := fun _ => GetRow None;
     insert_fails := false;
     concurrent := [];
     guild := None |}.

Definition empty : World := {| verifications := []; calls := [] |}.

Definition invoiceWith (statusText : string) : value :=
  VObj [("id", VNum 2711846);
        ("status", VStr statusText);
        ("product_id", VNum 42)].

Definition usedRow : Verification :=
  {| invoice_id := "2711846"; discord_id := "user-1";
     product_id := VStr "42"; role_id := "role-vip"; status := "PAID" |}.

Definition used : World := {| verifications := [usedRow]; calls := [] |}.

End Sample.

(** ** More of the string methods *)
Module JsText.

Definition lowerRanges : list (N * N * N * N) :=
  [(0x0041, 0x005A, 1, 0x0061); (0x00C0, 0x00D6, 1, 0x00E0); (0x00D8, 0x00DE, 1, 0x00F8);
   (0x0100, 0x012E, 2, 0x0101); (0x0132, 0x0136, 2, 0x0133); (0x0139, 0x0147, 2, 0x013A);
   (0x014A, 0x0176, 2, 0x014B); (0x0178, 0x0178, 1, 0x00FF); (0x0179, 0x017D, 2, 0x017A);
   (0x0181, 0x0181, 1, 0x0253); (0x0182, 0x0184, 2, 0x0183); (0x0186, 0x0186, 1, 0x0254);
   (0x0187, 0x0187, 1, 0x0188); (0x0189, 0x018A, 1, 0x0256); (0x018B, 0x018B, 1, 0x018C);
   (0x018E, 0x018E, 1, 0x01DD); (0x018F, 0x018F, 1, 0x0259); (0x0190, 0x0190, 1, 0x025B);
   (0x0191, 0x0191, 1, 0x0192); (0x0193, 0x0193, 1, 0x0260); (0x0194, 0x0194, 1, 0x0263);
   (0x0196, 0x0196, 1, 0x0269); (0x0197, 0x0197, 1, 0x0268); (0x0198, 0x0198, 1, 0x0199);
   (0x019C, 0x019C, 1, 0x026F); (0x019D, 0x019D, 1, 0x0272); (0x019F, 0x019F, 1, 0x0275);
   (0x01A0, 0x01A4, 2, 0x01A1); (0x01A6, 0x01A6, 1, 0x0280); (0x01A7, 0x01A7, 1, 0x01A8);
   (0x01A9, 0x01A9, 1, 0x0283); (0x01AC, 0x01AC, 1, 0x01AD); (0x01AE, 0x01AE, 1, 0x0288);
   (0x01AF, 0x01AF, 1, 0x01B0); (0x01B1, 0x01B2, 1, 0x028A); (0x01B3, 0x01B5, 2, 0x01B4);
   (0x01B7, 0x01B7, 1, 0x0292); (0x01B8, 0x01B8, 1, 0x01B9); (0x01BC, 0x01BC, 1, 0x01BD);
   (0x01C4, 0x01C4, 1, 0x01C6); (0x01C5, 0x01C5, 1, 0x01C6); (0x01C7, 0x01C7, 1, 0x01C9);
   (0x01C8, 0x01C8, 1, 0x01C9); (0x01CA, 0x01CA, 1, 0x01CC); (0x01CB, 0x01DB, 2, 0x01CC);
   (0x01DE, 0x01EE, 2, 0x01DF); (0x01F1, 0x01F1, 1, 0x01F3); (0x01F2, 0x01F4, 2, 0x01F3);
   (0x01F6, 0x01F6, 1, 0x0195); (0x01F7, 0x01F7, 1, 0x01BF); (0x01F8, 0x021E, 2, 0x01F9);
   (0x0220, 0x0220, 1, 0x019E); (0x0222, 0x0232, 2, 0x0223); (0x023A, 0x023A, 1, 0x2C65);
   (0x023B, 0x023B, 1, 0x023C); (0x023D, 0x023D, 1, 0x019A); (0x023E, 0x023E, 1, 0x2C66);
   (0x0241, 0x0241, 1, 0x0242); (0x0243, 0x0243, 1, 0x0180); (0x0244, 0x0244, 1, 0x0289);
   (0x0245, 0x0245, 1, 0x028C); (0x0246, 0x024E, 2, 0x0247); (0x0370, 0x0372, 2, 0x0371);
   (0x0376, 0x0376, 1, 0x0377); (0x037F, 0x037F, 1, 0x03F3); (0x0386, 0x0386, 1, 0x03AC);
   (0x0388, 0x038A, 1, 0x03AD); (0x038C, 0x038C, 1, 0x03CC); (0x038E, 0x038F, 1, 0x03CD);
   (0x0391, 0x03A1, 1, 0x03B1); (0x03A3, 0x03AB, 1, 0x03C3); (0x03CF, 0x03CF, 1, 0x03D7);
   (0x03D8, 0x03EE, 2, 0x03D9); (0x03F4, 0x03F4, 1, 0x03B8); (0x03F7, 0x03F7, 1, 0x03F8);
   (0x03F9, 0x03F9, 1, 0x03F2); (0x03FA, 0x03FA, 1, 0x03FB); (0x03FD, 0x03FF, 1, 0x037B);
   (0x0400, 0x040F, 1, 0x0450); (0x0410, 0x042F, 1, 0x0430); (0x0460, 0x0480, 2, 0x0461);
   (0x048A, 0x04BE, 2, 0x048B); (0x04C0, 0x04C0, 1, 0x04CF); (0x04C1, 0x04CD, 2, 0x04C2);
   (0x04D0, 0x052E, 2, 0x04D1); (0x0531, 0x0556, 1, 0x0561); (0x10A0, 0x10C5, 1, 0x2D00);
   (0x10C7, 0x10C7, 1, 0x2D27); (0x10CD, 0x10CD, 1, 0x2D2D); (0x13A0, 0x13EF, 1, 0xAB70);
   (0x13F0, 0x13F5, 1, 0x13F8); (0x1C90, 0x1CBA, 1, 0x10D0); (0x1CBD, 0x1CBF, 1, 0x10FD);
   (0x1E00, 0x1E94, 2, 0x1E01); (0x1E9E, 0x1E9E, 1, 0x00DF); (0x1EA0, 0x1EFE, 2, 0x1EA1);
   (0x1F08, 0x1F0F, 1, 0x1F00); (0x1F18, 0x1F1D, 1, 0x1F10); (0x1F28, 0x1F2F, 1, 0x1F20);
   (0x1F38, 0x1F3F, 1, 0x1F30); (0x1F48, 0x1F4D, 1, 0x1F40); (0x1F59, 0x1F5F, 2, 0x1F51);
   (0x1F68, 0x1F6F, 1, 0x1F60); (0x1F88, 0x1F8F, 1, 0x1F80); (0x1F98, 0x1F9F, 1, 0x1F90);
   (0x1FA8, 0x1FAF, 1, 0x1FA0); (0x1FB8, 0x1FB9, 1, 0x1FB0); (0x1FBA, 0x1FBB, 1, 0x1F70);
   (0x1FBC, 0x1FBC, 1, 0x1FB3); (0x1FC8, 0x1FCB, 1, 0x1F72); (0x1FCC, 0x1FCC, 1, 0x1FC3);
   (0x1FD8, 0x1FD9, 1, 0x1FD0); (0x1FDA, 0x1FDB, 1, 0x1F76); (0x1FE8, 0x1FE9, 1, 0x1FE0);
   (0x1FEA, 0x1FEB, 1, 0x1F7A); (0x1FEC, 0x1FEC, 1, 0x1FE5); (0x1FF8, 0x1FF9, 1, 0x1F78);
   (0x1FFA, 0x1FFB, 1, 0x1F7C); (0x1FFC, 0x1FFC, 1, 0x1FF3); (0x2126, 0x2126, 1, 0x03C9);
   (0x212A, 0x212A, 1, 0x006B); (0x212B, 0x212B, 1, 0x00E5); (0x2132, 0x2132, 1, 0x214E);
   (0x2160, 0x216F, 1, 0x2170); (0x2183, 0x2183, 1, 0x2184); (0x24B6, 0x24CF, 1, 0x24D0);
   (0x2C00, 0x2C2F, 1, 0x2C30); (0x2C60, 0x2C60, 1, 0x2C61); (0x2C62, 0x2C62, 1, 0x026B);
   (0x2C63, 0x2C63, 1, 0x1D7D); (0x2C64, 0x2C64, 1, 0x027D); (0x2C67, 0x2C6B, 2, 0x2C68);
   (0x2C6D, 0x2C6D, 1, 0x0251); (0x2C6E, 0x2C6E, 1, 0x0271); (0x2C6F, 0x2C6F, 1, 0x0250);
   (0x2C70, 0x2C70, 1, 0x0252); (0x2C72, 0x2C72, 1, 0x2C73); (0x2C75, 0x2C75, 1, 0x2C76);
   (0x2C7E, 0x2C7F, 1, 0x023F); (0x2C80, 0x2CE2, 2, 0x2C81); (0x2CEB, 0x2CED, 2, 0x2CEC);
   (0x2CF2, 0x2CF2, 1, 0x2CF3); (0xA640, 0xA66C, 2, 0xA641); (0xA680, 0xA69A, 2, 0xA681);
   (0xA722, 0xA72E, 2, 0xA723); (0xA732, 0xA76E, 2, 0xA733); (0xA779, 0xA77B, 2, 0xA77A);
   (0xA77D, 0xA77D, 1, 0x1D79); (0xA77E, 0xA786, 2, 0xA77F); (0xA78B, 0xA78B, 1, 0xA78C);
   (0xA78D, 0xA78D, 1, 0x0265); (0xA790, 0xA792, 2, 0xA791); (0xA796, 0xA7A8, 2, 0xA797);
   (0xA7AA, 0xA7AA, 1, 0x0266); (0xA7AB, 0xA7AB, 1, 0x025C); (0xA7AC, 0xA7AC, 1, 0x0261);
   (0xA7AD, 0xA7AD, 1, 0x026C); (0xA7AE, 0xA7AE, 1, 0x026A); (0xA7B0, 0xA7B0, 1, 0x029E);
   (0xA7B1, 0xA7B1, 1, 0x0287); (0xA7B2, 0xA7B2, 1, 0x029D); (0xA7B3, 0xA7B3, 1, 0xAB53);
   (0xA7B4, 0xA7C2, 2, 0xA7B5); (0xA7C4, 0xA7C4, 1, 0xA794); (0xA7C5, 0xA7C5, 1, 0x0282);
   (0xA7C6, 0xA7C6, 1, 0x1D8E); (0xA7C7, 0xA7C9, 2, 0xA7C8); (0xA7D0, 0xA7D0, 1, 0xA7D1);
   (0xA7D6, 0xA7D8, 2, 0xA7D7); (0xA7F5, 0xA7F5, 1, 0xA7F6); (0xFF21, 0xFF3A, 1, 0xFF41);
   (0x10400, 0x10427, 1, 0x10428); (0x104B0, 0x104D3, 1, 0x104D8); (0x10570, 0x10594, 2, 0x10597);
   (0x10571, 0x10579, 2, 0x10598); (0x1057D, 0x10589, 2, 0x105A4); (0x1058D, 0x10591, 2, 0x105B4);
   (0x10595, 0x10595, 1, 0x105BC); (0x10C80, 0x10CB2, 1, 0x10CC0); (0x118A0, 0x118BF, 1, 0x118C0);
   (0x16E40, 0x16E5F, 1, 0x16E60); (0x1E900, 0x1E921, 1, 0x1E922)]%N.

Definition lowerSpecial : list (N * (N * list N)) :=
  [(0x0130, (0x0069, [0x0307]))]%N.

(** The cased letters that case mapping does not ignore, and the
    characters it ignores (Case_Ignorable). *)
Definition casedRanges : list (N * N) :=
  [(0x0041, 0x005A); (0x0061, 0x007A); (0x00AA, 0x00AA); (0x00B5, 0x00B5); (0x00BA, 0x00BA);
   (0x00C0, 0x00D6); (0x00D8, 0x00F6); (0x00F8, 0x01BA); (0x01BC, 0x01BF); (0x01C4, 0x0293);
   (0x0295, 0x02AF); (0x0370, 0x0373); (0x0376, 0x0377); (0x037B, 0x037D); (0x037F, 0x037F);
   (0x0386, 0x0386); (0x0388, 0x038A); (0x038C, 0x038C); (0x038E, 0x03A1); (0x03A3, 0x03F5);
   (0x03F7, 0x0481); (0x048A, 0x052F); (0x0531, 0x0556); (0x0560, 0x0588); (0x10A0, 0x10C5);
   (0x10C7, 0x10C7); (0x10CD, 0x10CD); (0x10D0, 0x10FA); (0x10FD, 0x10FF); (0x13A0, 0x13F5);
   (0x13F8, 0x13FD); (0x1C80, 0x1C88); (0x1C90, 0x1CBA); (0x1CBD, 0x1CBF); (0x1D00, 0x1D2B);
   (0x1D6B, 0x1D77); (0x1D79, 0x1D9A); (0x1E00, 0x1F15); (0x1F18, 0x1F1D); (0x1F20, 0x1F45);
   (0x1F48, 0x1F4D); (0x1F50, 0x1F57); (0x1F59, 0x1F59); (0x1F5B, 0x1F5B); (0x1F5D, 0x1F5D);
   (0x1F5F, 0x1F7D); (0x1F80, 0x1FB4); (0x1FB6, 0x1FBC); (0x1FBE, 0x1FBE); (0x1FC2, 0x1FC4);
   (0x1FC6, 0x1FCC); (0x1FD0, 0x1FD3); (0x1FD6, 0x1FDB); (0x1FE0, 0x1FEC); (0x1FF2, 0x1FF4);
   (0x1FF6, 0x1FFC); (0x2102, 0x2102); (0x2107, 0x2107); (0x210A, 0x2113); (0x2115, 0x2115);
   (0x2119, 0x211D); (0x2124, 0x2124); (0x2126, 0x2126); (0x2128, 0x2128); (0x212A, 0x212D);
   (0x212F, 0x2134); (0x2139, 0x2139); (0x213C, 0x213F); (0x2145, 0x2149); (0x214E, 0x214E);
   (0x2160, 0x217F); (0x2183, 0x2184); (0x24B6, 0x24E9); (0x2C00, 0x2C7B); (0x2C7E, 0x2CE4);
   (0x2CEB, 0x2CEE); (0x2CF2, 0x2CF3); (0x2D00, 0x2D25); (0x2D27, 0x2D27); (0x2D2D, 0x2D2D);
   (0xA640, 0xA66D); (0xA680, 0xA69B); (0xA722, 0xA76F); (0xA771, 0xA787); (0xA78B, 0xA78E);
   (0xA790, 0xA7CA); (0xA7D0, 0xA7D1); (0xA7D3, 0xA7D3); (0xA7D5, 0xA7D9); (0xA7F5, 0xA7F6);
   (0xA7FA, 0xA7FA); (0xAB30, 0xAB5A); (0xAB60, 0xAB68); (0xAB70, 0xABBF); (0xFB00, 0xFB06);
   (0xFB13, 0xFB17); (0xFF21, 0xFF3A); (0xFF41, 0xFF5A); (0x10400, 0x1044F); (0x104B0, 0x104D3);
   (0x104D8, 0x104FB); (0x10570, 0x1057A); (0x1057C, 0x1058A); (0x1058C, 0x10592); (0x10594, 0x10595);
   (0x10597, 0x105A1); (0x105A3, 0x105B1); (0x105B3, 0x105B9); (0x105BB, 0x105BC); (0x10C80, 0x10CB2);
   (0x10CC0, 0x10CF2); (0x118A0, 0x118DF); (0x16E40, 0x16E7F); (0x1D400, 0x1D454); (0x1D456, 0x1D49C);
   (0x1D49E, 0x1D49F); (0x1D4A2, 0x1D4A2); (0x1D4A5, 0x1D4A6); (0x1D4A9, 0x1D4AC); (0x1D4AE, 0x1D4B9);
   (0x1D4BB, 0x1D4BB); (0x1D4BD, 0x1D4C3); (0x1D4C5, 0x1D505); (0x1D507, 0x1D50A); (0x1D50D, 0x1D514);
   (0x1D516, 0x1D51C); (0x1D51E, 0x1D539); (0x1D53B, 0x1D53E); (0x1D540, 0x1D544); (0x1D546, 0x1D546);
   (0x1D54A, 0x1D550); (0x1D552, 0x1D6A5); (0x1D6A8, 0x1D6C0); (0x1D6C2, 0x1D6DA); (0x1D6DC, 0x1D6FA);
   (0x1D6FC, 0x1D714); (0x1D716, 0x1D734); (0x1D736, 0x1D74E); (0x1D750, 0x1D76E); (0x1D770, 0x1D788);
   (0x1D78A, 0x1D7A8); (0x1D7AA, 0x1D7C2); (0x1D7C4, 0x1D7CB); (0x1DF00, 0x1DF09); (0x1DF0B, 0x1DF1E);
   (0x1E900, 0x1E943); (0x1F130, 0x1F149); (0x1F150, 0x1F169); (0x1F170, 0x1F189)]%N.

Definition caseIgnorableRanges : list (N * N) :=
  [(0x0027, 0x0027); (0x002E, 0x002E); (0x003A, 0x003A); (0x005E, 0x005E); (0x0060, 0x0060);
   (0x00A8, 0x00A8); (0x00AD, 0x00AD); (0x00AF, 0x00AF); (0x00B4, 0x00B4); (0x00B7, 0x00B8);
   (0x02B0, 0x036F); (0x0374, 0x0375); (0x037A, 0x037A); (0x0384, 0x0385); (0x0387, 0x0387);
   (0x0483, 0x0489); (0x0559, 0x0559); (0x055F, 0x055F); (0x0591, 0x05BD); (0x05BF, 0x05BF);
   (0x05C1, 0x05C2); (0x05C4, 0x05C5); (0x05C7, 0x05C7); (0x05F4, 0x05F4); (0x0600, 0x0605);
   (0x0610, 0x061A); (0x061C, 0x061C); (0x0640, 0x0640); (0x064B, 0x065F); (0x0670, 0x0670);
   (0x06D6, 0x06DD); (0x06DF, 0x06E8); (0x06EA, 0x06ED); (0x070F, 0x070F); (0x0711, 0x0711);
   (0x0730, 0x074A); (0x07A6, 0x07B0); (0x07EB, 0x07F5); (0x07FA, 0x07FA); (0x07FD, 0x07FD);
   (0x0816, 0x082D); (0x0859, 0x085B); (0x0888, 0x0888); (0x0890, 0x0891); (0x0898, 0x089F);
   (0x08C9, 0x0902); (0x093A, 0x093A); (0x093C, 0x093C); (0x0941, 0x0948); (0x094D, 0x094D);
   (0x0951, 0x0957); (0x0962, 0x0963); (0x0971, 0x0971); (0x0981, 0x0981); (0x09BC, 0x09BC);
   (0x09C1, 0x09C4); (0x09CD, 0x09CD); (0x09E2, 0x09E3); (0x09FE, 0x09FE); (0x0A01, 0x0A02);
   (0x0A3C, 0x0A3C); (0x0A41, 0x0A42); (0x0A47, 0x0A48); (0x0A4B, 0x0A4D); (0x0A51, 0x0A51);
   (0x0A70, 0x0A71); (0x0A75, 0x0A75); (0x0A81, 0x0A82); (0x0ABC, 0x0ABC); (0x0AC1, 0x0AC5);
   (0x0AC7, 0x0AC8); (0x0ACD, 0x0ACD); (0x0AE2, 0x0AE3); (0x0AFA, 0x0AFF); (0x0B01, 0x0B01);
   (0x0B3C, 0x0B3C); (0x0B3F, 0x0B3F); (0x0B41, 0x0B44); (0x0B4D, 0x0B4D); (0x0B55, 0x0B56);
   (0x0B62, 0x0B63); (0x0B82, 0x0B82); (0x0BC0, 0x0BC0); (0x0BCD, 0x0BCD); (0x0C00, 0x0C00);
   (0x0C04, 0x0C04); (0x0C3C, 0x0C3C); (0x0C3E, 0x0C40); (0x0C46, 0x0C48); (0x0C4A, 0x0C4D);
   (0x0C55, 0x0C56); (0x0C62, 0x0C63); (0x0C81, 0x0C81); (0x0CBC, 0x0CBC); (0x0CBF, 0x0CBF);
   (0x0CC6, 0x0CC6); (0x0CCC, 0x0CCD); (0x0CE2, 0x0CE3); (0x0D00, 0x0D01); (0x0D3B, 0x0D3C);
   (0x0D41, 0x0D44); (0x0D4D, 0x0D4D); (0x0D62, 0x0D63); (0x0D81, 0x0D81); (0x0DCA, 0x0DCA);
   (0x0DD2, 0x0DD4); (0x0DD6, 0x0DD6); (0x0E31, 0x0E31); (0x0E34, 0x0E3A); (0x0E46, 0x0E4E);
   (0x0EB1, 0x0EB1); (0x0EB4, 0x0EBC); (0x0EC6, 0x0EC6); (0x0EC8, 0x0ECD); (0x0F18, 0x0F19);
   (0x0F35, 0x0F35); (0x0F37, 0x0F37); (0x0F39, 0x0F39); (0x0F71, 0x0F7E); (0x0F80, 0x0F84);
   (0x0F86, 0x0F87); (0x0F8D, 0x0F97); (0x0F99, 0x0FBC); (0x0FC6, 0x0FC6); (0x102D, 0x1030);
   (0x1032, 0x1037); (0x1039, 0x103A); (0x103D, 0x103E); (0x1058, 0x1059); (0x105E, 0x1060);
   (0x1071, 0x1074); (0x1082, 0x1082); (0x1085, 0x1086); (0x108D, 0x108D); (0x109D, 0x109D);
   (0x10FC, 0x10FC); (0x135D, 0x135F); (0x1712, 0x1714); (0x1732, 0x1733); (0x1752, 0x1753);
   (0x1772, 0x1773); (0x17B4, 0x17B5); (0x17B7, 0x17BD); (0x17C6, 0x17C6); (0x17C9, 0x17D3);
   (0x17D7, 0x17D7); (0x17DD, 0x17DD); (0x180B, 0x180F); (0x1843, 0x1843); (0x1885, 0x1886);
   (0x18A9, 0x18A9); (0x1920, 0x1922); (0x1927, 0x1928); (0x1932, 0x1932); (0x1939, 0x193B);
   (0x1A17, 0x1A18); (0x1A1B, 0x1A1B); (0x1A56, 0x1A56); (0x1A58, 0x1A5E); (0x1A60, 0x1A60);
   (0x1A62, 0x1A62); (0x1A65, 0x1A6C); (0x1A73, 0x1A7C); (0x1A7F, 0x1A7F); (0x1AA7, 0x1AA7);
   (0x1AB0, 0x1ACE); (0x1B00, 0x1B03); (0x1B34, 0x1B34); (0x1B36, 0x1B3A); (0x1B3C, 0x1B3C);
   (0x1B42, 0x1B42); (0x1B6B, 0x1B73); (0x1B80, 0x1B81); (0x1BA2, 0x1BA5); (0x1BA8, 0x1BA9);
   (0x1BAB, 0x1BAD); (0x1BE6, 0x1BE6); (0x1BE8, 0x1BE9); (0x1BED, 0x1BED); (0x1BEF, 0x1BF1);
   (0x1C2C, 0x1C33); (0x1C36, 0x1C37); (0x1C78, 0x1C7D); (0x1CD0, 0x1CD2); (0x1CD4, 0x1CE0);
   (0x1CE2, 0x1CE8); (0x1CED, 0x1CED); (0x1CF4, 0x1CF4); (0x1CF8, 0x1CF9); (0x1D2C, 0x1D6A);
   (0x1D78, 0x1D78); (0x1D9B, 0x1DFF); (0x1FBD, 0x1FBD); (0x1FBF, 0x1FC1); (0x1FCD, 0x1FCF);
   (0x1FDD, 0x1FDF); (0x1FED, 0x1FEF); (0x1FFD, 0x1FFE); (0x200B, 0x200F); (0x2018, 0x2019);
   (0x2024, 0x2024); (0x2027, 0x2027); (0x202A, 0x202E); (0x2060, 0x2064); (0x2066, 0x206F);
   (0x2071, 0x2071); (0x207F, 0x207F); (0x2090, 0x209C); (0x20D0, 0x20F0); (0x2C7C, 0x2C7D);
   (0x2CEF, 0x2CF1); (0x2D6F, 0x2D6F); (0x2D7F, 0x2D7F); (0x2DE0, 0x2DFF); (0x2E2F, 0x2E2F);
   (0x3005, 0x3005); (0x302A, 0x302D); (0x3031, 0x3035); (0x303B, 0x303B); (0x3099, 0x309E);
   (0x30FC, 0x30FE); (0xA015, 0xA015); (0xA4F8, 0xA4FD); (0xA60C, 0xA60C); (0xA66F, 0xA672);
   (0xA674, 0xA67D); (0xA67F, 0xA67F); (0xA69C, 0xA69F); (0xA6F0, 0xA6F1); (0xA700, 0xA721);
   (0xA770, 0xA770); (0xA788, 0xA78A); (0xA7F2, 0xA7F4); (0xA7F8, 0xA7F9); (0xA802, 0xA802);
   (0xA806, 0xA806); (0xA80B, 0xA80B); (0xA825, 0xA826); (0xA82C, 0xA82C); (0xA8C4, 0xA8C5);
   (0xA8E0, 0xA8F1); (0xA8FF, 0xA8FF); (0xA926, 0xA92D); (0xA947, 0xA951); (0xA980, 0xA982);
   (0xA9B3, 0xA9B3); (0xA9B6, 0xA9B9); (0xA9BC, 0xA9BD); (0xA9CF, 0xA9CF); (0xA9E5, 0xA9E6);
   (0xAA29, 0xAA2E); (0xAA31, 0xAA32); (0xAA35, 0xAA36); (0xAA43, 0xAA43); (0xAA4C, 0xAA4C);
   (0xAA70, 0xAA70); (0xAA7C, 0xAA7C); (0xAAB0, 0xAAB0); (0xAAB2, 0xAAB4); (0xAAB7, 0xAAB8);
   (0xAABE, 0xAABF); (0xAAC1, 0xAAC1); (0xAADD, 0xAADD); (0xAAEC, 0xAAED); (0xAAF3, 0xAAF4);
   (0xAAF6, 0xAAF6); (0xAB5B, 0xAB5F); (0xAB69, 0xAB6B); (0xABE5, 0xABE5); (0xABE8, 0xABE8);
   (0xABED, 0xABED); (0xFB1E, 0xFB1E); (0xFBB2, 0xFBC2); (0xFE00, 0xFE0F); (0xFE13, 0xFE13);
   (0xFE20, 0xFE2F); (0xFE52, 0xFE52); (0xFE55, 0xFE55); (0xFEFF, 0xFEFF); (0xFF07, 0xFF07);
   (0xFF0E, 0xFF0E); (0xFF1A, 0xFF1A); (0xFF3E, 0xFF3E); (0xFF40, 0xFF40); (0xFF70, 0xFF70);
   (0xFF9E, 0xFF9F); (0xFFE3, 0xFFE3); (0xFFF9, 0xFFFB); (0x101FD, 0x101FD); (0x102E0, 0x102E0);
   (0x10376, 0x1037A); (0x10780, 0x10785); (0x10787, 0x107B0); (0x107B2, 0x107BA); (0x10A01, 0x10A03);
   (0x10A05, 0x10A06); (0x10A0C, 0x10A0F); (0x10A38, 0x10A3A); (0x10A3F, 0x10A3F); (0x10AE5, 0x10AE6);
   (0x10D24, 0x10D27); (0x10EAB, 0x10EAC); (0x10F46, 0x10F50); (0x10F82, 0x10F85); (0x11001, 0x11001);
   (0x11038, 0x11046); (0x11070, 0x11070); (0x11073, 0x11074); (0x1107F, 0x11081); (0x110B3, 0x110B6);
   (0x110B9, 0x110BA); (0x110BD, 0x110BD); (0x110C2, 0x110C2); (0x110CD, 0x110CD); (0x11100, 0x11102);
   (0x11127, 0x1112B); (0x1112D, 0x11134); (0x11173, 0x11173); (0x11180, 0x11181); (0x111B6, 0x111BE);
   (0x111C9, 0x111CC); (0x111CF, 0x111CF); (0x1122F, 0x11231); (0x11234, 0x11234); (0x11236, 0x11237);
   (0x1123E, 0x1123E); (0x112DF, 0x112DF); (0x112E3, 0x112EA); (0x11300, 0x11301); (0x1133B, 0x1133C);
   (0x11340, 0x11340); (0x11366, 0x1136C); (0x11370, 0x11374); (0x11438, 0x1143F); (0x11442, 0x11444);
   (0x11446, 0x11446); (0x1145E, 0x1145E); (0x114B3, 0x114B8); (0x114BA, 0x114BA); (0x114BF, 0x114C0);
   (0x114C2, 0x114C3); (0x115B2, 0x115B5); (0x115BC, 0x115BD); (0x115BF, 0x115C0); (0x115DC, 0x115DD);
   (0x11633, 0x1163A); (0x1163D, 0x1163D); (0x1163F, 0x11640); (0x116AB, 0x116AB); (0x116AD, 0x116AD);
   (0x116B0, 0x116B5); (0x116B7, 0x116B7); (0x1171D, 0x1171F); (0x11722, 0x11725); (0x11727, 0x1172B);
   (0x1182F, 0x11837); (0x11839, 0x1183A); (0x1193B, 0x1193C); (0x1193E, 0x1193E); (0x11943, 0x11943);
   (0x119D4, 0x119D7); (0x119DA, 0x119DB); (0x119E0, 0x119E0); (0x11A01, 0x11A0A); (0x11A33, 0x11A38);
   (0x11A3B, 0x11A3E); (0x11A47, 0x11A47); (0x11A51, 0x11A56); (0x11A59, 0x11A5B); (0x11A8A, 0x11A96);
   (0x11A98, 0x11A99); (0x11C30, 0x11C36); (0x11C38, 0x11C3D); (0x11C3F, 0x11C3F); (0x11C92, 0x11CA7);
   (0x11CAA, 0x11CB0); (0x11CB2, 0x11CB3); (0x11CB5, 0x11CB6); (0x11D31, 0x11D36); (0x11D3A, 0x11D3A);
   (0x11D3C, 0x11D3D); (0x11D3F, 0x11D45); (0x11D47, 0x11D47); (0x11D90, 0x11D91); (0x11D95, 0x11D95);
   (0x11D97, 0x11D97); (0x11EF3, 0x11EF4); (0x13430, 0x13438); (0x16AF0, 0x16AF4); (0x16B30, 0x16B36);
   (0x16B40, 0x16B43); (0x16F4F, 0x16F4F); (0x16F8F, 0x16F9F); (0x16FE0, 0x16FE1); (0x16FE3, 0x16FE4);
   (0x1AFF0, 0x1AFF3); (0x1AFF5, 0x1AFFB); (0x1AFFD, 0x1AFFE); (0x1BC9D, 0x1BC9E); (0x1BCA0, 0x1BCA3);
   (0x1CF00, 0x1CF2D); (0x1CF30, 0x1CF46); (0x1D167, 0x1D169); (0x1D173, 0x1D182); (0x1D185, 0x1D18B);
   (0x1D1AA, 0x1D1AD); (0x1D242, 0x1D244); (0x1DA00, 0x1DA36); (0x1DA3B, 0x1DA6C); (0x1DA75, 0x1DA75);
   (0x1DA84, 0x1DA84); (0x1DA9B, 0x1DA9F); (0x1DAA1, 0x1DAAF); (0x1E000, 0x1E006); (0x1E008, 0x1E018);
   (0x1E01B, 0x1E021); (0x1E023, 0x1E024); (0x1E026, 0x1E02A); (0x1E130, 0x1E13D); (0x1E2AE, 0x1E2AE);
   (0x1E2EC, 0x1E2EF); (0x1E8D0, 0x1E8D6); (0x1E944, 0x1E94B); (0x1F3FB, 0x1F3FF); (0xE0001, 0xE0001);
   (0xE0020, 0xE007F); (0xE0100, 0xE01EF)]%N.

Definition within (table : list (N * N)) (t : string) : bool :=
  match codePoint t with
  | Some n => existsb (fun row => (fst row <=? n) && (n <=? snd row))%N table
  | None => false
  end.

(** Whether a cased letter comes first, once the characters that case
    mapping ignores are passed over. *)
Fixpoint casedLetterNext (l : list string) : bool :=
  match l with
  | [] => false
  | t :: rest =>
      if within caseIgnorableRanges t then casedLetterNext rest
      else within casedRanges t
  end.

Definition capitalSigma : string := encode 0x03A3.
Definition smallSigma : string := encode 0x03C3.
Definition finalSigma : string := encode 0x03C2.

Definition lowerChar (t : string) : string :=
  match codePoint t with
  | Some n => encodeAll (caseImage lowerSpecial lowerRanges n)
  | None => t
  end.

(** The characters [after], in lower case, given those that came
    [before], nearest first. A capital sigma becomes the final form when
    it closes a word: a cased letter before it, none after it. *)
Fixpoint lowerFrom (before after : list string) : list string :=
  match after with
  | [] => []
  | t :: rest =>
      (if String.eqb t capitalSigma
       then if casedLetterNext before && negb (casedLetterNext rest)
            then finalSigma else smallSigma
       else lowerChar t) :: lowerFrom (t :: before) rest
  end.

(** [String.prototype.toLowerCase] *)
Definition toLowerCase (s : string) : string :=
  unchars (lowerFrom [] (chars s)).

(** [s.split(sep)] for a separator of one character. *)
Fixpoint split (sep : ascii) (s : string) : list string :=
  match s with
  | EmptyString => [EmptyString]
  | String c rest =>
      if Ascii.eqb c sep then EmptyString :: split sep rest
      else match split sep rest with
           | [] => [String c EmptyString]
           | part :: parts => String c part :: parts
           end
  end.

(** [parts.join(sep)] *)
Fixpoint join (sep : ascii) (parts : list string) : string :=
  match parts with
  | [] => EmptyString
  | [part] => part
  | part :: rest => part +:+ String sep (join sep rest)
  end.

(** [s.startsWith(p)], giving what follows [p]. *)
Fixpoint stripPrefix (p s : string) : option string :=
  match p, s with
  | EmptyString, _ => Some s
  | String a p', String b s' => if Ascii.eqb a b then stripPrefix p' s' else None
  | String _ _, EmptyString => None
  end.

Definition startsWith (s p : string) : bool :=
  match stripPrefix p s with
  | Some _ => true
  | None => false
  end.

Definition isDigit (c : ascii) : bool :=
  let n := N_of_ascii c in ((48 <=? n) && (n <=? 57))%N.

(** [\d] *)
Definition isDigitChar (t : string) : bool :=
  match t with
  | String c EmptyString => isDigit c
  | _ => false
  end.

(** [\S] *)
Definition isNonSpace (t : string) : bool := negb (isWhiteSpace t).

(** A text made of white space only. *)
Definition blank (s : string) : bool := forallb isWhiteSpace (chars s).

End JsText.
Export JsText.

(** ** Regular expressions

    The patterns of the file use literals, classes, [?], [+], [{m,n}] and
    the anchors [^] and [$]; they are matched against the characters of a
    text. [RegExp.prototype.test] asks whether some match exists, which for
    these patterns is membership of the language; it is decided here by
    derivatives. *)
Module Regex.

Inductive re : Type :=
| Never
| Empty
| Class (p : string -> bool)
| Seq (r1 r2 : re)
| Alt (r1 r2 : re)
| Star (r : re).

Definition Lit (t : string) : re := Class (String.eqb t).
Definition Opt (r : re) : re := Alt r Empty.
Definition Plus (r : re) : re := Seq r (Star r).

Fixpoint Lits (l : list string) : re :=
  match l with
  | [] => Empty
  | t :: rest => Seq (Lit t) (Lits rest)
  end.

(** A literal text, character by character. *)
Definition Str (s : string) : re := Lits (chars s).

Fixpoint Times (n : nat) (r : re) : re :=
  match n with
  | O => Empty
  | S n' => Seq r (Times n' r)
  end.

(** [r{lo,hi}] *)
Definition Between (lo hi : nat) (r : re) : re :=
  Seq (Times lo r) (Times (hi - lo) (Opt r)).

Fixpoint nullable (r : re) : bool :=
  match r with
  | Never => false
  | Empty => true
  | Class _ => false
  | Seq r1 r2 => nullable r1 && nullable r2
  | Alt r1 r2 => nullable r1 || nullable r2
  | Star _ => true
  end.

Fixpoint deriv (c : string) (r : re) : re :=
  match r with
  | Never => Never
  | Empty => Never
  | Class p => if p c then Empty else Never
  | Seq r1 r2 =>
      if nullable r1
      then Alt (Seq (deriv c r1) r2) (deriv c r2)
      else Seq (deriv c r1) r2
  | Alt r1 r2 => Alt (deriv c r1) (deriv c r2)
  | Star r1 => Seq (deriv c r1) (Star r1)
  end.

Fixpoint wholeMatch (r : re) (l : list string) : bool :=
  match l with
  | [] => nullable r
  | c :: rest => wholeMatch (deriv c r) rest
  end.

Fixpoint prefixMatch (r : re) (l : list string) : bool :=
  nullable r ||
  match l with
  | [] => false
  | c :: rest => prefixMatch (deriv c r) rest
  end.

(** [/^r$/.test(s)] *)
Definition testWhole (r : re) (s : string) : bool := wholeMatch r (chars s).

(** [/^r/.test(s)] *)
Definition testPrefix (r : re) (s : string) : bool := prefixMatch r (chars s).

(** The sequences of characters a pattern matches. *)
Inductive Matches : re -> list string -> Prop :=
| MEmpty : Matches Empty []
| MClass p c : p c = true -> Matches (Class p) [c]
| MSeq r1 r2 s1 s2 :
    Matches r1 s1 -> Matches r2 s2 -> Matches (Seq r1 r2) (s1 ++ s2)
| MAltL r1 r2 s : Matches r1 s -> Matches (Alt r1 r2) s
| MAltR r1 r2 s : Matches r2 s -> Matches (Alt r1 r2) s
| MStarNil r : Matches (Star r) []
| MStarCons r s1 s2 :
    Matches r s1 -> Matches (Star r) s2 -> Matches (Star r) (s1 ++ s2).

End Regex.

(** ** The small helpers of [index.js] *)

(** [/^\d{17,20}$/] *)
Definition channelIdPattern : Regex.re :=
  Regex.Between 17 20 (Regex.Class isDigitChar).

(** [csv] is an environment variable: absent, or a string. *)
Definition parseChannelIds (csv : option string) : list string :=
  match csv with
  | None => []
  | Some csv =>
      if negb (nonEmpty csv) || negb (nonEmpty (trim csv)) then []
      else List.filter (Regex.testWhole channelIdPattern)
                       (List.map trim (split "," csv))
  end.

(** [ActivityType] of discord.js *)
Inductive ActivityType : Type :=
| Playing | Streaming | Listening | Watching | Custom | Competing.

(** [(x || '')] for a variable that may be absent. *)
Definition orEmpty (x : option string) : string :=
  match x with
  | Some s => s
  | None => EmptyString
  end.

Definition resolveActivityType (mode : option string) : ActivityType :=
  let m := toLowerCase (orEmpty mode) in
  if String.eqb m "streaming" then Streaming
  else if String.eqb m "playing" then Playing
  else if String.eqb m "watching" then Watching
  else if String.eqb m "listening" then Listening
  else if String.eqb m "competing" then Competing
  else Watching.

Definition resolveStatus (status : option string) : string :=
  let m := toLowerCase (orEmpty status) in
  if String.eqb m "online" || String.eqb m "idle"
     || String.eqb m "dnd" || String.eqb m "invisible"
  then toLowerCase (orEmpty status)
  else "online".

Definition mobileMark : string := "üì±".
Definition desktopMark : string := "üñ•Ô∏è".

Definition sessionPrefix (style : option string) : string :=
  let s := toLowerCase (orEmpty style) in
  if String.eqb s "mobile" then mobileMark
  else if String.eqb s "desktop" then desktopMark
  else EmptyString.

(** [/^https?:\/\/\S+\.\S+/] *)
Definition urlPattern : Regex.re :=
  Regex.Seq (Regex.Str "http")
    (Regex.Seq (Regex.Opt (Regex.Lit "s"))
       (Regex.Seq (Regex.Str "://")
          (Regex.Seq (Regex.Plus (Regex.Class isNonSpace))
             (Regex.Seq (Regex.Lit ".")
                (Regex.Plus (Regex.Class isNonSpace)))))).

Definition looksLikeUrl (s : string) : bool :=
  if negb (nonEmpty s) then false
  else Regex.testPrefix urlPattern (trim s).

(** ** Modal submissions *)

Definition MAX_IMAGES : nat := 3.
Definition MODAL_MAX_COMPONENTS : nat := 5.

Definition lineFeed : ascii := ascii_of_nat 10.
Definition backslash : ascii := ascii_of_nat 92.

(** [s.replace(/\\n/g, '\n')]: from left to right, every backslash
    followed by [n] becomes a line feed. *)
Fixpoint unescapeNewlines (s : string) : string :=
  match s with
  | EmptyString => EmptyString
  | String c rest =>
      match rest with
      | String d rest' =>
          if Ascii.eqb c backslash && Ascii.eqb d "n"
          then String lineFeed (unescapeNewlines rest')
          else String c (unescapeNewlines rest)
      | EmptyString => String c EmptyString
      end
  end.

(** A backslash followed by [n] somewhere in the string. *)
Fixpoint hasEscapedNewline (s : string) : bool :=
  match s with
  | EmptyString => false
  | String c rest =>
      match rest with
      | String d _ =>
          (Ascii.eqb c backslash && Ascii.eqb d "n") || hasEscapedNewline rest
      | EmptyString => false
      end
  end.

(** [interaction.fields.getTextInputValue(id)]: the text of the field, or
    nothing when the modal has no such field and the call throws. *)
Definition Fields : Type := string -> option string.

Definition decimal (n : nat) : string :=
  NilZero.string_of_int (Z.to_int (Z.of_nat n)).

(** One turn of the loop that gathers the image fields: the [try] block
    with its empty [catch]. *)
Definition imageField (fields : Fields) (name : string) : list string :=
  match fields name with
  | Some raw =>
      let v := trim raw in
      if nonEmpty v && looksLikeUrl v then [v] else []
  | None => []
  end.

(** [for (let i = 1; i <= count; i++)] over the fields [prefix1],
    [prefix2], ... *)
Definition collectImages (fields : Fields) (prefix : string) (count : nat)
  : list string :=
  flat_map (fun i => imageField fields (prefix +:+ decimal i)) (seq 1 count).

(** [a.slice(i, j)] *)
Definition slice {A} (i j : nat) (a : list A) : list A :=
  firstn (j - i) (skipn i a).

(** [for (let i = 0; i < embeds.length; i += chunkSize)] sending
    [embeds.slice(i, i + chunkSize)]; one unit of fuel per turn. *)
Fixpoint chunkLoop {A} (fuel i chunkSize : nat) (embeds : list A)
  : list (list A) :=
  match fuel with
  | O => []
  | S fuel' =>
      if (i <? length embeds)%nat
      then slice i (i + chunkSize) embeds
             :: chunkLoop fuel' (i + chunkSize) chunkSize embeds
      else []
  end.

(** The messages of one [/embed] submission: [chunkSize] is 10. *)
Definition sendChunks {A} (embeds : list A) : list (list A) :=
  chunkLoop (length embeds) 0 10 embeds.

(** Where a submitted modal goes, with what its handler reads off the
    custom id: [parts[1]] and [parts[2]] of [id.split(':')]. *)
Inductive ModalRoute : Type :=
| EditEmbedModal (channelId messageId : option string)
| EmbedModal (channelId : option string)
| EmbedSimpleModal (channelId : option string)
| UpdatesModal
| InvoiceModal
| NoModal.

Definition routeModal (id : string) : ModalRoute :=
  let parts := split ":" id in
  if startsWith id "editembedModal:" then
    EditEmbedModal (nth_error parts 1) (nth_error parts 2)
  else if startsWith id "embedModal:" then EmbedModal (nth_error parts 1)
  else if startsWith id "embedSimpleModal:" then EmbedSimpleModal (nth_error parts 1)
  else if String.eqb id "updatesModal" then UpdatesModal
  else if String.eqb id "invoice_modal" then InvoiceModal
  else NoModal.

(** The custom ids the commands give to their modals. *)
Definition editembedModalId (channelId messageId : string) : string :=
  "editembedModal:" +:+ channelId +:+ ":" +:+ messageId.
Definition embedModalId (channelId : string) : string :=
  "embedModal:" +:+ channelId.
Definition embedSimpleModalId (channelId : string) : string :=
  "embedSimpleModal:" +:+ channelId.

(** ** Embeds *)

Definition EMBED_COLOR : Z := 3356412.

(** The data of an [EmbedBuilder]. *)
Record Embed : Type := {
  embed_color : Z;
  embed_title : option string;
  embed_description : option string;
  embed_image : option string;
  embed_thumbnail : option string
}.

(** The setters of [EmbedBuilder] validate what they are given and throw
    when they refuse it; what they accept is the library's business. *)
Record EmbedChecks : Type := {
  titleAccepted : string -> bool;
  descriptionAccepted : string -> bool;
  urlAccepted : string -> bool
}.

(** [x && x.trim()], giving [x.trim()]. *)
Definition nonBlank (x : option string) : option string :=
  match x with
  | Some s => if nonEmpty s && nonEmpty (trim s) then Some (trim s) else None
  | None => None
  end.

(** [if (x && x.trim()) embed.setX(x.trim())]: the field as it is left, or
    nothing at all when the setter throws. *)
Definition setIfGiven (accepted : string -> bool) (x : option string)
  : option (option string) :=
  match nonBlank x with
  | Some t => if accepted t then Some (Some t) else None
  | None => Some None
  end.

Definition lineBreak : string := String lineFeed EmptyString.

Definition decimalZ (n : Z) : string := NilZero.string_of_int (Z.to_int n).

(** [authorDisplayName || 'Unknown'] *)
Definition displayOf (authorDisplayName : option string) : string :=
  match authorDisplayName with
  | Some a => if nonEmpty a then a else "Unknown"
  | None => "Unknown"
  end.

(** The line appended to the description, by mode. *)
Definition modeLine (mode : string) (authorDisplayName : option string)
    (ts : Z) : string :=
  if String.eqb mode "updates" then
    lineBreak +:+ lineBreak +:+ "-# All rights reserved by ICE | <t:"
      +:+ decimalZ ts +:+ ":F>"
  else if String.eqb mode "edit" then
    lineBreak +:+ lineBreak +:+ "-# Edit By " +:+ displayOf authorDisplayName
      +:+ " | <t:" +:+ decimalZ ts +:+ ":f>"
  else
    lineBreak +:+ lineBreak +:+ "-# Submitted By " +:+ displayOf authorDisplayName
      +:+ " | <t:" +:+ decimalZ ts +:+ ":f>".

(** [buildEmbed], at clock [now] (milliseconds); nothing when a setter
    throws. [timestamp] is in whole seconds. *)
Definition buildEmbed (lib : EmbedChecks)
    (title description imageUrl thumbnailUrl authorDisplayName : option string)
    (mode : string) (timestamp : option Z) (now : Z) : option Embed :=
  t ← setIfGiven (titleAccepted lib) title;
  d ← setIfGiven (descriptionAccepted lib) description;
  i ← setIfGiven (urlAccepted lib) imageUrl;
  th ← setIfGiven (urlAccepted lib) thumbnailUrl;
  let ts := match timestamp with
            | Some given => if given =? 0 then now / 1000 else given
            | None => now / 1000
            end in
  let text := orEmpty d +:+ modeLine mode authorDisplayName ts in
  if descriptionAccepted lib text
  then Some {| embed_color := EMBED_COLOR; embed_title := t;
               embed_description := Some text; embed_image := i;
               embed_thumbnail := th |}
  else None.

(** [new EmbedBuilder().setColor(EMBED_COLOR).setImage(img)] *)
Definition imageOnly (lib : EmbedChecks) (img : string) : option Embed :=
  if urlAccepted lib img
  then Some {| embed_color := EMBED_COLOR; embed_title := None;
               embed_description := None; embed_image := Some img;
               embed_thumbnail := None |}
  else None.

Fixpoint imagesOnly (lib : EmbedChecks) (images : list string)
  : option (list Embed) :=
  match images with
  | [] => Some []
  | img :: rest =>
      e ← imageOnly lib img; es ← imagesOnly lib rest; Some (e :: es)
  end.

(** The [embedsToSend] of the [embedModal] handler. *)
Definition embedsToSend (lib : EmbedChecks) (title description : string)
    (images : list string) (authorDisplayName : option string) (now : Z)
  : option (list Embed) :=
  match images with
  | [] =>
      e ← buildEmbed lib (Some title) (Some description) None None
                     authorDisplayName "submit" None now;
      Some [e]
  | [img] =>
      e ← buildEmbed lib (Some title) (Some description) (Some img) None
                     authorDisplayName "submit" None now;
      Some [e]
  | _ =>
      e ← buildEmbed lib (Some title) (Some description) None None
                     authorDisplayName "submit" None now;
      es ← imagesOnly lib images;
      Some (e :: es)
  end.

(** The images a message shows, embed after embed. *)
Definition imagesOf (embeds : list Embed) : list string :=
  flat_map (fun e => match embed_image e with Some i => [i] | None => [] end)
           embeds.

Inductive EmbedReply : Type :=
| TargetNotFound
| EmbedPosted
| EmbedFailed
| MessageNotFound
| NotMyMessage
| NoEmbedsToEdit
| EmbedEdited
| EditFailed
| SomethingWentWrong.

(** A fetched message: whether the bot is its author
    ([message.author?.id === client.user.id]), how many embeds it has,
    whether [message.edit] rejects. *)
Record FetchedMessage : Type := {
  authoredByBot : bool;
  embedCount : nat;
  edit_rejects : bool
}.

(** A channel as the modal handlers see it: the answer of
    [guild.channels.cache.get(id) || (await guild.channels.fetch(id).catch(() => null))]. *)
Record Target : Type := {
  target_isGuildText : bool;
  send_rejects : bool;
  (** [messages.fetch(messageId)], a rejection counting as no message *)
  target_message : option string -> option FetchedMessage
}.

(** The sends of the chunk loop: each is attempted in turn, and the first
    rejection ends the loop in the [catch] clause. *)
Fixpoint sendAll (rejects : bool) (chunks : list (list Embed))
  : EmbedReply * list (list Embed) :=
  match chunks with
  | [] => (EmbedPosted, [])
  | chunk :: rest =>
      if rejects then (EmbedFailed, [chunk])
      else let (reply, sent) := sendAll rejects rest in (reply, chunk :: sent)
  end.

(** The [embedModal] handler. [channels] is absent when the interaction
    has no guild. The result is the reply and the messages handed to
    [targetChannel.send]. The replies to the interaction itself
    ([reply], [deferReply], [editReply]) are taken to go through. *)
Definition embedModal (lib : EmbedChecks) (fields : Fields)
    (channels : option (string -> option Target)) (channelId : string)
    (authorDisplayName : option string) (now : Z)
  : EmbedReply * list (list Embed) :=
  match fields "embed_title", fields "embed_description" with
  | Some rawTitle, Some rawDescription =>
      let title := trim rawTitle in
      let description := unescapeNewlines rawDescription in
      let images := collectImages fields "embed_image_" MAX_IMAGES in
      match channels with
      | None => (SomethingWentWrong, [])
      | Some lookup =>
          match lookup channelId with
          | None => (TargetNotFound, [])
          | Some targetChannel =>
              if negb (target_isGuildText targetChannel)
              then (TargetNotFound, [])
              else
                match embedsToSend lib title description images
                                   authorDisplayName now with
                | None => (EmbedFailed, [])
                | Some embeds =>
                    sendAll (send_rejects targetChannel) (sendChunks embeds)
                end
          end
      end
  | _, _ => (SomethingWentWrong, [])
  end.

(** The [editembedModal] handler: the reply, and the embeds handed to
    [message.edit] if it is called. *)
Definition editembedModal (lib : EmbedChecks) (fields : Fields)
    (channels : option (string -> option Target))
    (channelId : string) (messageId : option string)
    (authorDisplayName : option string) (now : Z)
  : EmbedReply * option (list Embed) :=
  match channels with
  | None => (SomethingWentWrong, None)
  | Some lookup =>
      match lookup channelId with
      | None => (TargetNotFound, None)
      | Some channel =>
          if negb (target_isGuildText channel) then (TargetNotFound, None) else
          match target_message channel messageId with
          | None => (MessageNotFound, None)
          | Some message =>
              if negb (authoredByBot message) then (NotMyMessage, None) else
              if (embedCount message =? 0)%nat then (NoEmbedsToEdit, None) else
              match fields "edit_title", fields "edit_description" with
              | Some rawTitle, Some rawDescription =>
                  let newTitle := trim rawTitle in
                  let newDescription := trim rawDescription in
                  let images := collectImages fields "edit_image_" 3 in
                  let editTs := now / 1000 in
                  match buildEmbed lib (Some newTitle) (Some newDescription)
                                   None None authorDisplayName "edit"
                                   (Some editTs) now,
                        imagesOnly lib images with
                  | Some primary, Some rest =>
                      let newEmbeds := primary :: rest in
                      if edit_rejects message then (EditFailed, Some newEmbeds)
                      else (EmbedEdited, Some newEmbeds)
                  | _, _ => (SomethingWentWrong, None)
                  end
              | _, _ => (SomethingWentWrong, None)
              end
          end
      end
  end.

(** ** The moderation commands *)

(** Calls on the guild, logged when they are made, whether they then
    resolve or reject. [durationMs] is absent for [member.timeout(null)]. *)
Inductive ModCall : Type :=
| MessagesFetch (channelId : string) (limit : Z)
| BulkDelete (channelId : string) (messages : list string)
| MessageDelete (message : string)
| MemberTimeout (userId : string) (durationMs : option Z) (reason : option string)
| BansCreate (userId : string) (days : Z) (reason : string)
| BansRemove (userId : string) (reason : string).

Inductive ModReply : Type :=
| AdminRequired
| InvalidTargetChannel
| CountOutOfRange
| NoMessagesFound
| Purged (size : nat) (channelId : string)
| PurgeFailed
| MinutesOutOfRange
| UserNotInGuild
| TimedOut (tag : string) (minutes : Z)
| TimeoutFailed
| TimeoutRemoved (tag : string)
| UntimeoutFailed
| DeleteDaysOutOfRange
| Banned (tag reason : string)
| BanFailed
| Unbanned (userId reason : string)
| UnbanFailed.

Record Channel : Type := {
  channel_id : string;
  (** [channel.type === ChannelType.GuildText] *)
  isGuildText : bool;
  (** [messages.fetch({ limit })]: the ids fetched, or a rejection *)
  messages_fetch : Z -> option (list string);
  bulkDelete_rejects : bool
}.

Record ModGuild : Type := {
  mod_members_fetch : string -> bool;
  timeout_rejects : bool;
  bans_create_rejects : bool;
  bans_remove_rejects : bool
}.

(** [interaction.options.getString('reason', false) || 'No reason provided'] *)
Definition reasonOrDefault (reason : option string) : string :=
  match reason with
  | Some r => if nonEmpty r then r else "No reason provided"
  | None => "No reason provided"
  end.

Definition purgeCommand (isAdmin : bool) (count : Z)
    (channelOption current : option Channel) : ModReply * list ModCall :=
  if negb isAdmin then (AdminRequired, []) else
  let targetChannel :=
    match channelOption with
    | Some c => if isGuildText c then Some c else current
    | None => current
    end in
  match targetChannel with
  | None => (InvalidTargetChannel, [])
  | Some target =>
      if negb (isGuildText target) then (InvalidTargetChannel, []) else
      if (count <? 1) || (count >? 100) then (CountOutOfRange, []) else
      let fetch := MessagesFetch (channel_id target) count in
      match messages_fetch target count with
      | None => (NoMessagesFound, [fetch])
      | Some [] => (NoMessagesFound, [fetch])
      | Some fetched =>
          (Purged (length fetched) (channel_id target),
           fetch :: BulkDelete (channel_id target) fetched
             :: (if bulkDelete_rejects target
                 then List.map MessageDelete fetched else []))
      end
  end.

Definition timeoutCommand (isAdmin : bool) (g : option ModGuild)
    (userId userTag : string) (minutes : Z) (reason : option string)
  : ModReply * list ModCall :=
  if negb isAdmin then (AdminRequired, []) else
  let reason := reasonOrDefault reason in
  if (minutes <? 1) || (minutes >? 40320) then (MinutesOutOfRange, []) else
  match g with
  | None => (TimeoutFailed, [])
  | Some g =>
      if negb (mod_members_fetch g userId) then (UserNotInGuild, []) else
      let durationMs := minutes * 60 * 1000 in
      let timeout := MemberTimeout userId (Some durationMs) (Some reason) in
      if timeout_rejects g then (TimeoutFailed, [timeout])
      else (TimedOut userTag minutes, [timeout])
  end.

Definition untimeoutCommand (isAdmin : bool) (g : option ModGuild)
    (userId userTag : string) : ModReply * list ModCall :=
  if negb isAdmin then (AdminRequired, []) else
  match g with
  | None => (UntimeoutFailed, [])
  | Some g =>
      if negb (mod_members_fetch g userId) then (UserNotInGuild, []) else
      let timeout := MemberTimeout userId None None in
      if timeout_rejects g then (UntimeoutFailed, [timeout])
      else (TimeoutRemoved userTag, [timeout])
  end.

Definition banCommand (isAdmin : bool) (g : option ModGuild)
    (userId userTag : string) (reason : option string) (delete_days : option Z)
  : ModReply * list ModCall :=
  if negb isAdmin then (AdminRequired, []) else
  let reason := reasonOrDefault reason in
  let deleteDays := match delete_days with Some d => d | None => 0 end in
  if (deleteDays <? 0) || (deleteDays >? 7) then (DeleteDaysOutOfRange, []) else
  match g with
  | None => (BanFailed, [])
  | Some g =>
      let ban := BansCreate userId deleteDays reason in
      if bans_create_rejects g then (BanFailed, [ban])
      else (Banned userTag reason, [ban])
  end.

Definition unbanCommand (isAdmin : bool) (g : option ModGuild)
    (userId : string) (reason : option string) : ModReply * list ModCall :=
  if negb isAdmin then (AdminRequired, []) else
  let reason := reasonOrDefault reason in
  match g with
  | None => (UnbanFailed, [])
  | Some g =>
      let unban := BansRemove userId reason in
      if bans_remove_rejects g then (UnbanFailed, [unban])
      else (Unbanned userId reason, [unban])
  end.

(** * Properties *)

(** ** Strings *)

Lemma app_cons_string c (a b : string) : String c a +:+ b = String c (a +:+ b).
Proof. reflexivity. Qed.

Lemma app_nil_string (b : string) : "" +:+ b = b.
Proof. reflexivity. Qed.

Ltac sapp := rewrite ?app_cons_string, ?app_nil_string in *.

Lemma app_empty_r (s : string) : s +:+ "" = s.
Proof. induction s as [|c s IH]; sapp; [reflexivity | now rewrite IH]. Qed.

Lemma app_assoc_string (a b c : string) : (a +:+ b) +:+ c = a +:+ (b +:+ c).
Proof. induction a as [|x a IH]; sapp; [reflexivity | now rewrite IH]. Qed.

Lemma length_app_string (a b : string) :
  String.length (a +:+ b) = (String.length a + String.length b)%nat.
Proof. induction a as [|x a IH]; sapp; cbn; [reflexivity | now rewrite IH]. Qed.

Lemma app_eq_empty (a b : string) : a +:+ b = "" -> a = "" /\ b = "".
Proof. destruct a; sapp; [now intros -> | discriminate]. Qed.

Lemma allChars_app p (a b : string) :
  allChars p (a +:+ b) = allChars p a && allChars p b.
Proof.
  induction a as [|x a IH]; sapp; cbn; [reflexivity|].
  now rewrite IH, andb_assoc.
Qed.

(** ** Characters *)

Lemma unchars_app (l1 l2 : list string) :
  unchars (l1 ++ l2) = unchars l1 +:+ unchars l2.
Proof.
  induction l1 as [|t l1 IH]; [reflexivity|].
  cbn [unchars app]. now rewrite IH, app_assoc_string.
Qed.

Lemma chars_cons b rest :
  chars (String b rest) =
  match chars rest with
  | t :: ts =>
      if continues rest then String b t :: ts else String b "" :: t :: ts
  | [] => [String b ""]
  end.
Proof. reflexivity. Qed.

Lemma chars_nil_iff s : chars s = [] <-> s = "".
Proof.
  split; [|now intros ->]. destruct s as [|b rest]; [reflexivity|].
  rewrite chars_cons. destruct (chars rest); [discriminate|].
  now destruct (continues rest).
Qed.

(** The characters of a text make up the text. *)
Lemma unchars_chars s : unchars (chars s) = s.
Proof.
  induction s as [|b rest IH]; [reflexivity|]. rewrite chars_cons.
  destruct (chars rest) as [|t ts] eqn:E.
  - apply chars_nil_iff in E. now subst rest.
  - destruct (continues rest); cbn [unchars] in *; sapp; now rewrite IH.
Qed.

Lemma chars_first s t ts : chars s = t :: ts -> continues t = continues s.
Proof.
  destruct s as [|b rest]; [discriminate|]. rewrite chars_cons.
  destruct (chars rest) as [|u us]; [now intros [= <- <-]|].
  destruct (continues rest); now intros [= <- <-].
Qed.

Lemma oneChar_continued t :
  oneChar t = true -> continues t = true -> allChars isContinuation t = true.
Proof. destruct t as [|b r]; [discriminate|]. cbn. now intros -> ->. Qed.

Lemma Chars_chars s : Chars (chars s).
Proof.
  induction s as [|b rest IH]; [now split|]. rewrite chars_cons.
  destruct (chars rest) as [|t ts] eqn:E; [now repeat constructor|].
  destruct IH as [Hone Hnext].
  inversion Hone as [|? ? Ht Hts]; subst. cbn [tl] in Hnext.
  pose proof (chars_first _ _ _ E) as Hfirst.
  destruct (continues rest) eqn:C.
  - split; [|exact Hnext]. constructor; [|exact Hts].
    cbn. now apply oneChar_continued.
  - split; [now repeat constructor|]. cbn [tl]. constructor; [congruence|exact Hnext].
Qed.

Lemma continues_app a b : a <> "" -> continues (a +:+ b) = continues a.
Proof. now destruct a. Qed.

(** A text cut where a character begins is cut between characters. *)
Lemma chars_app a b :
  continues b = false -> chars (a +:+ b) = chars a ++ chars b.
Proof.
  intros Hb. induction a as [|c a IH]; [reflexivity|]. sapp.
  rewrite !chars_cons, IH.
  destruct a as [|d a].
  - sapp. cbn [chars app]. rewrite Hb. now destruct (chars b).
  - destruct (chars (String d a)) as [|t ts] eqn:E.
    + apply chars_nil_iff in E. discriminate.
    + cbn [app]. rewrite continues_app by discriminate.
      now destruct (continues (String d a)).
Qed.

Lemma chars_oneChar t : oneChar t = true -> chars t = [t].
Proof.
  destruct t as [|b rest]; [discriminate|]. cbn [oneChar].
  revert b. induction rest as [|c rest IH]; intros b H; [reflexivity|].
  cbn in H. apply andb_prop in H. destruct H as [Hc Hrest].
  rewrite chars_cons, (IH c Hrest). cbn [continues]. now rewrite Hc.
Qed.

Lemma oneChar_nonempty t : oneChar t = true -> t <> "".
Proof. now destruct t. Qed.

Lemma chars_unchars l : Chars l -> chars (unchars l) = l.
Proof.
  induction l as [|t l IH]; [reflexivity|]. intros [Hone Hnext].
  inversion Hone as [|? ? Ht Hl]; subst. cbn [tl] in Hnext. cbn [unchars].
  assert (Hc : continues (unchars l) = false).
  { destruct l as [|u l]; [reflexivity|].
    inversion Hnext as [|? ? Hu _]; subst. inversion Hl as [|? ? Hu1 _]; subst.
    cbn [unchars]. rewrite continues_app by now apply oneChar_nonempty.
    exact Hu. }
  rewrite chars_app, chars_oneChar by assumption. cbn [app]. f_equal.
  apply IH. split; [exact Hl|]. destruct l; [constructor|].
  now inversion Hnext.
Qed.

Lemma Chars_tail t l : Chars (t :: l) -> Chars l.
Proof.
  intros [Hone Hnext]. inversion Hone; subst. split; [assumption|].
  cbn [tl] in Hnext. destruct l; [constructor | now inversion Hnext].
Qed.

Lemma Chars_app_l l1 l2 : Chars (l1 ++ l2) -> Chars l1.
Proof.
  intros [Hone Hnext]. apply Forall_app in Hone. destruct Hone as [H1 _].
  split; [exact H1|]. destruct l1 as [|t l1]; [constructor|].
  cbn [app tl] in *. apply Forall_app in Hnext. tauto.
Qed.

Lemma Chars_app_r l1 l2 : Chars (l1 ++ l2) -> Chars l2.
Proof.
  induction l1 as [|t l1 IH]; [easy|]. intros H. apply IH.
  now apply Chars_tail in H.
Qed.

Lemma unchars_nil_iff l :
  Forall (fun t => oneChar t = true) l -> unchars l = "" <-> l = [].
Proof.
  intros H. split; [|now intros ->]. destruct l as [|t l]; [reflexivity|].
  inversion H as [|? ? Ht _]; subst. cbn [unchars]. intros E.
  apply app_eq_empty in E. destruct E as [-> _]. discriminate.
Qed.

(** ** Dropping from both ends *)
Section Drop.

Context {A : Type} (p : A -> bool).

Lemma dropWhile_app l :
  exists dropped, l = dropped ++ dropWhile p l /\ forallb p dropped = true.
Proof.
  induction l as [|x l IH]; [now exists []|]. cbn.
  destruct (p x) eqn:E; [|now exists []].
  destruct IH as (d & Hl & Hd). exists (x :: d). cbn. rewrite E, Hd.
  split; [now rewrite <- Hl | reflexivity].
Qed.

Lemma dropWhileEnd_cons x l :
  dropWhileEnd p (x :: l) =
  match dropWhileEnd p l with
  | [] => if p x then [] else [x]
  | kept => x :: kept
  end.
Proof. reflexivity. Qed.

Lemma dropWhileEnd_app l :
  exists dropped, l = dropWhileEnd p l ++ dropped /\ forallb p dropped = true.
Proof.
  induction l as [|x l IH]; [now exists []|]. rewrite dropWhileEnd_cons.
  destruct IH as (d & Hl & Hd).
  destruct (dropWhileEnd p l) as [|y kept] eqn:E.
  - cbn [app] in Hl. subst d. destruct (p x) eqn:Px.
    + exists (x :: l). cbn. now rewrite Px, Hd.
    + now exists l.
  - exists d. split; [|exact Hd]. cbn [app] in *. now f_equal.
Qed.

Lemma dropWhile_head x l : head (dropWhile p l) = Some x -> p x = false.
Proof.
  induction l as [|y l IH]; [discriminate|]. cbn.
  destruct (p y) eqn:E; [exact IH|]. cbn. now intros [= <-].
Qed.

Lemma dropWhile_fixed l :
  (forall x, head l = Some x -> p x = false) -> dropWhile p l = l.
Proof.
  destruct l as [|x l]; [reflexivity|]. cbn. intros H.
  now rewrite (H x eq_refl).
Qed.

Lemma dropWhileEnd_head l x :
  head (dropWhileEnd p l) = Some x -> head l = Some x.
Proof.
  destruct l as [|y l]; [discriminate|]. rewrite dropWhileEnd_cons.
  destruct (dropWhileEnd p l); [destruct (p y)|]; cbn; congruence.
Qed.

Lemma dropWhileEnd_last l x :
  last (dropWhileEnd p l) = Some x -> p x = false.
Proof.
  induction l as [|y l IH]; [discriminate|]. rewrite dropWhileEnd_cons.
  destruct (dropWhileEnd p l) as [|z kept] eqn:E.
  - destruct (p y) eqn:Py; [discriminate|]. cbn. now intros [= <-].
  - rewrite last_cons_cons. exact IH.
Qed.

Lemma dropWhileEnd_fixed l :
  (forall x, last l = Some x -> p x = false) -> dropWhileEnd p l = l.
Proof.
  induction l as [|y l IH]; [reflexivity|]. intros H.
  rewrite dropWhileEnd_cons. destruct l as [|z l].
  - cbn. now rewrite (H y eq_refl).
  - rewrite IH; [reflexivity|]. intros x Hx. apply H.
    now rewrite last_cons_cons.
Qed.

Lemma dropWhileEnd_nil_iff l : dropWhileEnd p l = [] <-> forallb p l = true.
Proof.
  induction l as [|y l IH]; [easy|]. rewrite dropWhileEnd_cons. cbn [forallb].
  destruct (dropWhileEnd p l) as [|z kept].
  - destruct (p y); cbn; [|easy]. split; [intros _; now apply IH | easy].
  - split; [discriminate|]. intros H. apply andb_prop in H.
    destruct H as [_ H]. apply IH in H. discriminate.
Qed.

Lemma dropWhile_nil_iff l : dropWhile p l = [] <-> forallb p l = true.
Proof.
  induction l as [|y l IH]; [easy|]. cbn.
  destruct (p y); cbn; [exact IH | easy].
Qed.

Lemma strip_idempotent l : strip p (strip p l) = strip p l.
Proof.
  unfold strip.
  rewrite (dropWhile_fixed (dropWhileEnd p (dropWhile p l))).
  - apply dropWhileEnd_fixed. apply dropWhileEnd_last.
  - intros x Hx. apply dropWhileEnd_head in Hx. now apply dropWhile_head in Hx.
Qed.

Lemma strip_nil_iff l : strip p l = [] <-> forallb p l = true.
Proof.
  unfold strip. rewrite dropWhileEnd_nil_iff.
  destruct (dropWhile_app l) as (d & Hl & Hd). split.
  - intros H. rewrite Hl, forallb_app, Hd, H. reflexivity.
  - intros H. rewrite Hl, forallb_app in H. now apply andb_prop in H.
Qed.

Lemma strip_fixed l :
  (forall x, head l = Some x -> p x = false) ->
  (forall x, last l = Some x -> p x = false) -> strip p l = l.
Proof.
  intros Hh Hl. unfold strip. rewrite dropWhile_fixed by exact Hh.
  now apply dropWhileEnd_fixed.
Qed.

(** What is left is the list without a run of dropped elements at each
    end, and neither begins nor ends with an element to drop. *)
Lemma strip_spec l :
  exists before after,
    l = before ++ strip p l ++ after /\
    forallb p before = true /\ forallb p after = true /\
    (forall x, head (strip p l) = Some x -> p x = false) /\
    (forall x, last (strip p l) = Some x -> p x = false).
Proof.
  unfold strip.
  destruct (dropWhile_app l) as (before & Hl & Hb).
  destruct (dropWhileEnd_app (dropWhile p l)) as (after & Hm & Ha).
  exists before, after. split; [now rewrite <- Hm|].
  split; [exact Hb|]. split; [exact Ha|]. split.
  - intros x Hx. apply dropWhileEnd_head in Hx. now apply dropWhile_head in Hx.
  - apply dropWhileEnd_last.
Qed.

End Drop.

Lemma Chars_strip p l : Chars l -> Chars (strip p l).
Proof.
  intros H. destruct (strip_spec p l) as (before & after & E & _).
  rewrite E in H. apply Chars_app_r in H. now apply Chars_app_l in H.
Qed.

(** ** [trim] *)

Lemma chars_trim s : chars (trim s) = strip isWhiteSpace (chars s).
Proof. unfold trim. apply chars_unchars, Chars_strip, Chars_chars. Qed.

Lemma trim_idempotent s : trim (trim s) = trim s.
Proof.
  unfold trim at 1. rewrite chars_trim, strip_idempotent.
  reflexivity.
Qed.

(** [trim] leaves nothing exactly of the texts made of white space. *)
Lemma trim_empty_iff s : trim s = "" <-> blank s = true.
Proof.
  unfold trim. unfold blank. rewrite <- strip_nil_iff.
  apply unchars_nil_iff.
  apply (Chars_strip isWhiteSpace _ (Chars_chars s)).
Qed.

Lemma trim_fixed s :
  (forall t, head (chars s) = Some t -> isWhiteSpace t = false) ->
  (forall t, last (chars s) = Some t -> isWhiteSpace t = false) ->
  trim s = s.
Proof.
  intros Hh Hl. unfold trim; rewrite strip_fixed by assumption.
  apply unchars_chars.
Qed.

(** What [trim] gives: the text without the white space at its two ends,
    beginning and ending with a character that is not white space. *)
Lemma trim_spec s :
  exists before after,
    s = before +:+ trim s +:+ after /\
    blank before = true /\ blank after = true /\
    (forall t, head (chars (trim s)) = Some t -> isWhiteSpace t = false) /\
    (forall t, last (chars (trim s)) = Some t -> isWhiteSpace t = false).
Proof.
  destruct (strip_spec isWhiteSpace (chars s))
    as (before & after & E & Hb & Ha & Hh & Hl).
  pose proof (Chars_chars s) as Hs. rewrite E in Hs.
  exists (unchars before), (unchars after).
  rewrite chars_trim. unfold blank.
  rewrite !chars_unchars
    by (first [now apply Chars_app_l in Hs
              | now apply Chars_app_r, Chars_app_r in Hs]).
  split; [|easy].
  unfold trim; rewrite <- !unchars_app, <- E. symmetry. apply unchars_chars.
Qed.

(** ** White space *)

Lemma codePoint_encode t n : codePoint t = Some n -> t = encode n.
Proof.
  unfold codePoint.
  match goal with |- context [String.eqb (encode ?m) t] =>
    destruct (String.eqb (encode m) t) eqn:E; [|discriminate] end.
  apply String.eqb_eq in E. now intros [= <-].
Qed.

Lemma isWhiteSpace_cases t :
  isWhiteSpace t = true -> In t (List.map encode whiteSpaceCodes).
Proof.
  unfold isWhiteSpace. destruct (codePoint t) as [n|] eqn:E; [|discriminate].
  apply codePoint_encode in E. subst t. intros H.
  apply existsb_exists in H. destruct H as (m & Hm & Hn).
  apply N.eqb_eq in Hn. subst m. now apply in_map.
Qed.

Lemma whiteSpace_all (P : string -> Prop) :
  Forall P (List.map encode whiteSpaceCodes) ->
  forall t, isWhiteSpace t = true -> P t.
Proof.
  intros H t Ht. apply isWhiteSpace_cases in Ht.
  now apply (proj1 (List.Forall_forall P _) H).
Qed.

Lemma whiteSpace_oneChar t : isWhiteSpace t = true -> oneChar t = true.
Proof.
  apply (whiteSpace_all (fun t => oneChar t = true)).
  vm_compute. repeat constructor.
Qed.

Lemma isDigit_not_space c : isDigit c = true -> isWhiteSpace (String c "") = false.
Proof. destruct c as [[] [] [] [] [] [] [] []]; vm_compute; congruence. Qed.

Lemma blank_without_comma s :
  blank s = true -> allChars (fun c => negb (Ascii.eqb c ",")) s = true.
Proof.
  unfold blank. rewrite <- (unchars_chars s) at 2.
  induction (chars s) as [|t l IH]; [reflexivity|]. cbn [forallb unchars].
  intros H. apply andb_prop in H. destruct H as [Ht Hl].
  rewrite allChars_app, (IH Hl), andb_true_r.
  revert t Ht.
  apply (whiteSpace_all
           (fun t => allChars (fun c => negb (Ascii.eqb c ",")) t = true)).
  vm_compute. repeat constructor.
Qed.

(** ** Case *)

Lemma encode_nonempty n : encode n <> "".
Proof.
  unfold encode, bytes.
  repeat match goal with |- context [if ?b then _ else _] => destruct b end;
    discriminate.
Qed.

Lemma upperChar_nonempty t : t <> "" -> upperChar t <> "".
Proof.
  intros Ht. unfold upperChar. destruct (codePoint t); [|exact Ht].
  unfold encodeAll. intros E. apply app_eq_empty in E.
  destruct E as [E _]. now apply encode_nonempty in E.
Qed.

Lemma toUpperCase_nonEmpty s : nonEmpty (toUpperCase s) = nonEmpty s.
Proof.
  unfold toUpperCase. destruct s as [|b rest]; [reflexivity|].
  destruct (chars (String b rest)) as [|t ts] eqn:E.
  - apply chars_nil_iff in E. discriminate.
  - pose proof (Chars_chars (String b rest)) as [Hone _]. rewrite E in Hone.
    inversion Hone as [|? ? Ht _]; subst. apply oneChar_nonempty in Ht.
    cbn [List.map unchars]. apply (upperChar_nonempty t) in Ht.
    unfold nonEmpty. destruct (upperChar t); [congruence | reflexivity].
Qed.

(** ** The status extractor *)
Section Extractor.

Import StatusSpec.

Lemma trimmedText_stringStatus v :
  trimmedText v = stringStatus notBlankTrimmed v.
Proof.
  destruct v; simpl; try reflexivity.
  unfold notBlankTrimmed, nonEmpty. destruct (String.eqb (trim s) ""); reflexivity.
Qed.

Lemma prop_truthy v k : truthy v = true -> prop v k = Ok (field v k).
Proof. destruct v; simpl; intros H; try discriminate; reflexivity. Qed.

Lemma field_falsy v k : truthy v = false -> field v k = VUndefined.
Proof. destruct v; simpl; intros H; try discriminate; reflexivity. Qed.

Lemma entryStatus_statusField h :
  entryStatus h = Ok (statusField notBlankTrimmed h).
Proof.
  unfold entryStatus, statusField.
  destruct (truthy h) eqn:T.
  - rewrite (prop_truthy _ _ T). simpl. now rewrite trimmedText_stringStatus.
  - now rewrite (field_falsy _ _ T).
Qed.

Lemma scan_firstStatus l : scan l = Ok (firstStatus notBlankTrimmed l).
Proof.
  induction l as [|h rest IH]; simpl; [reflexivity|].
  unfold orElse. rewrite entryStatus_statusField. simpl.
  destruct (statusField notBlankTrimmed h); [reflexivity | exact IH].
Qed.

Lemma scanBackward_lastToFirst a :
  scanBackward a = Ok (lastToFirst notBlankTrimmed a).
Proof. destruct a; simpl; try reflexivity. apply scan_firstStatus. Qed.

Lemma scanForward_firstToLast a :
  scanForward a = Ok (firstToLast notBlankTrimmed a).
Proof. destruct a; simpl; try reflexivity. apply scan_firstStatus. Qed.

Lemma probeNested_rules st :
  isMapping st = true ->
  probeNested st =
    Ok (match statusField notBlankTrimmed st with
        | Some s => Some s
        | None =>
            match (if isMapping (field st "status")
                   then statusField notBlankTrimmed (field st "status")
                   else None) with
            | Some s => Some s
            | None => lastToFirst notBlankTrimmed (field st "history")
            end
        end).
Proof.
  destruct st as [| |b|n|s|l|fs]; try discriminate. intros _.
  unfold probeNested, orElse, statusField. cbn [prop field mbind Exc_bind].
  rewrite trimmedText_stringStatus.
  destruct (stringStatus notBlankTrimmed (assoc "status" fs)) eqn:E1;
    [reflexivity|].
  destruct (assoc "status" fs) as [| |b|n|s|l2|fs2] eqn:E2;
    cbn [truthy isObject isMapping field]; rewrite ?andb_false_r;
    cbn [andb mbind Exc_bind prop];
    try (rewrite scanBackward_lastToFirst; reflexivity).
  rewrite trimmedText_stringStatus.
  destruct (stringStatus notBlankTrimmed (assoc "status" fs2)); [reflexivity|].
  now rewrite scanBackward_lastToFirst.
Qed.

Lemma probeKey_rule4 fields k :
  probeKey (VObj fields) k = Ok (rule4 notBlankTrimmed k (VObj fields)).
Proof.
  unfold probeKey, rule4, statusField. cbn [prop field mbind Exc_bind].
  rewrite trimmedText_stringStatus.
  destruct (stringStatus notBlankTrimmed (assoc k fields)) eqn:E1; [reflexivity|].
  destruct (assoc k fields) as [| |b|n|s|l2|fs2];
    cbn [truthy isObject isMapping field]; rewrite ?andb_false_r;
    cbn [andb mbind Exc_bind prop]; try reflexivity.
  now rewrite trimmedText_stringStatus.
Qed.

Lemma orElse_Ok {A} (a : option A) q :
  Ok a <|> q = match a with Some x => Ok (Some x) | None => q end.
Proof. reflexivity. Qed.

Lemma nested_rules fields :
  (st ← prop (VObj fields) "status";
   if truthy st && isObject st then probeNested st else Ok None)
  = Ok (firstMatch [rule2a notBlankTrimmed; rule2b notBlankTrimmed;
                    rule2c notBlankTrimmed] (VObj fields)).
Proof.
  cbn [prop mbind Exc_bind firstMatch]. unfold rule2a, rule2b, rule2c.
  cbn [field].
  destruct (assoc "status" fields) as [| |b|n|s|l2|fs2] eqn:E2;
    cbn [truthy isObject isMapping andb]; rewrite ?andb_false_r;
    try reflexivity.
  rewrite probeNested_rules by reflexivity.
  destruct (statusField notBlankTrimmed (VObj fs2)); [reflexivity|].
  destruct (isMapping (field (VObj fs2) "status"));
    [destruct (statusField notBlankTrimmed (field (VObj fs2) "status"));
       [reflexivity|] |];
    now destruct (lastToFirst notBlankTrimmed (field (VObj fs2) "history")).
Qed.

Lemma probeKeys_rules fields :
  probeKeys (VObj fields) altKeys
  = Ok (firstMatch [rule4 notBlankTrimmed "state";
                    rule4 notBlankTrimmed "payment_status";
                    rule4 notBlankTrimmed "status_text"]
                   (VObj fields)).
Proof.
  unfold altKeys. cbn [probeKeys firstMatch].
  rewrite !probeKey_rule4, !orElse_Ok.
  repeat match goal with |- context [rule4 ?a ?k ?d] => destruct (rule4 a k d) end;
    reflexivity.
Qed.

(** The extractor computes the ordered probe, and never throws. *)
Lemma extractInvoiceStatus_extract doc :
  extractInvoiceStatus doc = Ok (extract notBlankTrimmed doc).
Proof.
  destruct doc as [| |b|n|s|l|fields]; try reflexivity.
  - now destruct b.
  - unfold extractInvoiceStatus. cbn. now destruct (Z.eqb n 0).
  - unfold extractInvoiceStatus. cbn [truthy]. now destruct (nonEmpty s).
  - unfold extractInvoiceStatus, extract, probes.
    cbn [truthy negb nullish].
    rewrite nested_rules, probeKeys_rules.
    cbn [prop mbind Exc_bind].
    rewrite scanBackward_lastToFirst, scanForward_firstToLast.
    rewrite trimmedText_stringStatus, !orElse_Ok.
    cbn [firstMatch]. unfold rule1, rule3, rule5. cbn [field].
    destruct (stringStatus notBlankTrimmed (assoc "status" fields)); [reflexivity|].
    destruct (rule2a notBlankTrimmed (VObj fields)); [reflexivity|].
    destruct (rule2b notBlankTrimmed (VObj fields)); [reflexivity|].
    destruct (rule2c notBlankTrimmed (VObj fields)); [reflexivity|].
    destruct (lastToFirst notBlankTrimmed (assoc "history" fields)); [reflexivity|].
    destruct (rule4 notBlankTrimmed "state" (VObj fields)); [reflexivity|].
    destruct (rule4 notBlankTrimmed "payment_status" (VObj fields)); [reflexivity|].
    destruct (rule4 notBlankTrimmed "status_text" (VObj fields)); [reflexivity|].
    now destruct (firstToLast notBlankTrimmed (assoc "items" fields)).
Qed.

Lemma lacksProbedFields_extract accepted doc :
  lacksProbedFields doc = true -> extract accepted doc = None.
Proof.
  unfold lacksProbedFields, probedFields. cbn [forallb].
  intros H. repeat (apply andb_prop in H; destruct H as [?H H]).
  repeat match goal with
         | H : match field doc ?k with _ => _ end = true |- _ =>
             let E := fresh "E" in
             destruct (field doc k) eqn:E; try discriminate H; clear H
         end.
  unfold extract. destruct (nullish doc); [reflexivity|].
  unfold probes, firstMatch, rule1, rule2a, rule2b, rule2c, rule3, rule4, rule5.
  now rewrite E, E0, E1, E2, E3, E4.
Qed.

End Extractor.

(** The texts of the examples: a status with white space of several
    kinds around it, and a status made of white space only. *)
Example sample_texts :
  trim ("  paid " +:+ encode 0x0A) = "paid" /\
  trim (encode 0xA0 +:+ "Paid in full" +:+ encode 0x2003 +:+ encode 0xFEFF)
  = "Paid in full" /\
  trim (" " +:+ encode 0x3000 +:+ encode 0x09) = "" /\
  trim ("x" +:+ encode 0x85) = "x" +:+ encode 0x85 /\
  toUpperCase "Paid" = "PAID" /\
  toUpperCase ("pa" +:+ encode 0x0131 +:+ "d") = "PAID" /\
  toUpperCase ("stra" +:+ encode 0xDF +:+ "e") = "STRASSE" /\
  toLowerCase (encode 0x0130 +:+ "DLE") = "i" +:+ encode 0x0307 +:+ "dle" /\
  toLowerCase (encode 0x039F +:+ encode 0x03A3 +:+ " " +:+ encode 0x03A3)
  = encode 0x03BF +:+ encode 0x03C2 +:+ " " +:+ encode 0x03C3.
Proof. vm_compute. repeat split; reflexivity. Qed.

(** **** C2 *)


(** C2 as stated fails: it takes every non-empty string for a status. For
    a document whose [status] is three spaces and whose [state] is "paid",
    rule (1) of the claim returns the trimmed [status], which is the empty
    string, while the code passes the blank [status] over and returns
    "paid". *)
Lemma non_empty_status_is_returned_counterexample :
  let doc := VObj [("status", VStr "   "); ("state", VStr "paid")] in
  StatusSpec.rule1 StatusSpec.nonEmptyTrimmed doc = Some "" /\
  StatusSpec.extract StatusSpec.nonEmptyTrimmed doc = Some "" /\
  extractInvoiceStatus doc = Ok (Some "paid") /\
  extractInvoiceStatus doc
  <> Ok (StatusSpec.extract StatusSpec.nonEmptyTrimmed doc).
Proof. vm_compute. repeat split; discriminate. Qed.

(** **** C3 *)

(** C3. The extractor never throws: on every value, whatever its shape, it
    returns a status or nothing; it returns nothing on [null] and
    [undefined], and on every document that has none of the fields
    [status], [history], [state], [payment_status], [status_text],
    [items]. *)
Theorem extract_never_throws doc :
  (exists result, extractInvoiceStatus doc = Ok result) /\
  (StatusSpec.lacksProbedFields doc = true ->
   extractInvoiceStatus doc = Ok None) /\
  extractInvoiceStatus VNull = Ok None /\
  extractInvoiceStatus VUndefined = Ok None.
Proof.
  split; [|split; [|split; reflexivity]].
  - exists (StatusSpec.extract StatusSpec.notBlankTrimmed doc).
    apply extractInvoiceStatus_extract.
  - intros H. rewrite extractInvoiceStatus_extract.
    now rewrite (lacksProbedFields_extract _ doc H).
Qed.

(** Mistyped and blank fields, nested values: nothing is found, nothing is
    thrown. *)
Lemma extract_never_throws_witness :
  let doc := VObj [("id", VNum 7);
                   ("meta", VObj [("status", VArr [VNum 1; VStr "  "; VNull])])] in
  StatusSpec.lacksProbedFields doc = true /\
  extractInvoiceStatus doc = Ok None /\
  extractInvoiceStatus
    (VObj [("status", VNum 3); ("history", VStr "paid");
           ("state", VStr "   "); ("payment_status", VArr [VStr "paid"]);
           ("status_text", VObj [("status", VNull)]);
           ("items", VArr [VNull; VNum 0; VObj [("status", VObj [])]])])
    = Ok None.
Proof.
  split; [reflexivity|]. split; [|reflexivity].
  exact (proj1 (proj2 (extract_never_throws
    (VObj [("id", VNum 7);
           ("meta", VObj [("status", VArr [VNum 1; VStr "  "; VNull])])])))
    eq_refl).
Defined.

(** ** The verification handler *)

Ltac run := unfold mbind, M_bind, mret, M_ret, call in *; cbn beta iota in *.

Section Stages.

Variables (e : Env) (invoiceId userId : string).

(** The grant writes no row. It calls [roles.add] only under a strictly
    higher rank, and then answers [Granted], or [GrantFailed] if the call
    failed; every other answer comes before the call. *)
Lemma grantRole_cases roleIdStr currentStatus w :
  let (o, w') := grantRole e invoiceId userId roleIdStr currentStatus w in
  afterInsert o = true /\
  verifications w' = verifications w /\
  (((o = Granted currentStatus roleIdStr \/ o = GrantFailed) /\
    calls w' = calls w ++ [RolesAdd userId roleIdStr ("Verified invoice " +:+ invoiceId)] /\
    Outranks e roleIdStr)
   \/ ((forall st r, o <> Granted st r) /\ w' = w)).
Proof.
  unfold grantRole.
  destruct (guild e) as [g|] eqn:G; [|run; split; [easy|split; [easy|right; easy]]].
  destruct (members_fetch g userId); cbn [negb];
    [|run; split; [easy|split; [easy|right; easy]]].
  destruct (members_me g) as [me|] eqn:Me;
    [|run; split; [easy|split; [easy|right; easy]]].
  destruct (permissions_has me ManageRoles); cbn [negb];
    [|run; split; [easy|split; [easy|right; easy]]].
  destruct (findRole g roleIdStr) as [role|] eqn:R;
    [|run; split; [easy|split; [easy|right; easy]]].
  destruct (highest_position me <=? position role) eqn:L;
    [run; split; [easy|split; [easy|right; easy]]|].
  assert (Hrank : Outranks e roleIdStr).
  { exists g, me, role. apply Z.leb_gt in L. easy. }
  run. destruct (roles_add_rejects g); cbn;
    (split; [easy|split; [easy|left]]);
    (split; [tauto|split; [easy|exact Hrank]]).
Qed.

Lemma Sound_reply o w :
  afterInsert o = false -> Sound e invoiceId userId w (o, w).
Proof.
  intros H. unfold Sound. rewrite H. split; [now left|]. split.
  - exists []. rewrite app_nil_r. split; [reflexivity|]. intros c [].
  - intros st r ->. discriminate.
Qed.

Lemma Sound_fetched o w w' :
  Sound e invoiceId userId (fetched invoiceId w) (o, w') -> Sound e invoiceId userId w (o, w').
Proof.
  unfold Sound, fetched. cbn [verifications calls].
  intros (Hrows & (extra & Hcalls & Hextra) & Hrank).
  split; [exact Hrows|]. split; [|exact Hrank].
  exists (AxiosGet invoiceId :: extra). split.
  - rewrite Hcalls, <- app_assoc. reflexivity.
  - intros c [<-|Hc]; [now left | now apply Hextra].
Qed.

Lemma assignRoleAndPersist_sound productId currentStatus roleIdToUse w :
  Sound e invoiceId userId w (assignRoleAndPersist e invoiceId userId productId currentStatus
                                roleIdToUse w).
Proof.
  unfold assignRoleAndPersist, dbRunInsert. run. cbn [invoice_id].
  set (row := {| invoice_id := invoiceId; discord_id := userId;
                 product_id := productId; role_id := roleIdToUse;
                 status := currentStatus |}).
  destruct (insert_fails e).
  { unfold Sound. cbn. split; [now right|]. split.
    - exists [DbRunInsert row]. split; [reflexivity|].
      intros c [<-|[]]. right; left. now exists row.
    - intros st r H. discriminate. }
  destruct (existsb (hasInvoice invoiceId) (verifications w ++ concurrent e)) eqn:Dup.
  { unfold Sound. cbn. split; [now right|]. split.
    - exists [DbRunInsert row]. split; [reflexivity|].
      intros c [<-|[]]. right; left. now exists row.
    - intros st r H. discriminate. }
  pose proof (grantRole_cases roleIdToUse currentStatus
    {| verifications := (verifications w ++ concurrent e) ++ [row];
       calls := calls w ++ [DbRunInsert row] |}) as G.
  destruct (grantRole e invoiceId userId roleIdToUse currentStatus _) as [o w'].
  destruct G as (Hafter & Hrows & Hgrant). cbn [verifications calls] in *.
  unfold Sound. rewrite Hafter. split.
  { exists row. rewrite Hrows, <- app_assoc. easy. }
  destruct Hgrant as [(Ho & Hcalls & Hrank) | (Hno & ->)].
  - split.
    + exists [DbRunInsert row;
              RolesAdd userId roleIdToUse ("Verified invoice " +:+ invoiceId)].
      split; [rewrite Hcalls, <- app_assoc; reflexivity|].
      intros c [<-|[<-|[]]].
      * right; left. now exists row.
      * right; right. exists roleIdToUse. split; [reflexivity|].
        split; [exact Hrank|].
        destruct Ho as [-> | ->]; [left; now exists currentStatus | now right].
    + intros st r E. destruct Ho as [-> | ->]; [|discriminate].
      injection E as <- <-. split; [exact Hrank|].
      rewrite Hcalls. apply in_or_app. right. now left.
  - split.
    + exists [DbRunInsert row]. split; [reflexivity|].
      intros c [<-|[]]. right; left. now exists row.
    + intros st r H. now apply Hno in H.
Qed.

Lemma chooseRole_sound productId currentStatus w :
  Sound e invoiceId userId w (chooseRole e invoiceId userId productId currentStatus w).
Proof.
  unfold chooseRole.
  destruct (truthy productId).
  - destruct (role_mappings e productId) as [|mapRow].
    + destruct (defaultRole e);
        [apply assignRoleAndPersist_sound | now apply Sound_reply].
    + destruct (mappedRole mapRow); [apply assignRoleAndPersist_sound|].
      destruct (defaultRole e);
        [apply assignRoleAndPersist_sound | now apply Sound_reply].
  - destruct (defaultRole e);
      [apply assignRoleAndPersist_sound | now apply Sound_reply].
Qed.

Lemma apiCatch_afterInsert err : afterInsert (apiCatch err) = false.
Proof.
  destruct err as [|[code|]]; cbn; try reflexivity.
  destruct (code =? 401); [reflexivity|]. now destruct (code =? 404).
Qed.

Lemma withResponse_sound data w :
  Sound e invoiceId userId w (withResponse e invoiceId userId data w).
Proof.
  unfold withResponse, attempt.
  destruct (responseInvoice data) as [invoice|err];
    [|apply Sound_reply, apiCatch_afterInsert].
  destruct (truthy invoice); cbn [negb]; [|now apply Sound_reply].
  destruct (extractInvoiceStatus invoice) as [extracted|err];
    [|apply Sound_reply, apiCatch_afterInsert].
  destruct (eligibleStatus (upperStatus extracted)) as [st|];
    [|now apply Sound_reply].
  destruct (resolveProductId invoice) as [productId|err];
    [|apply Sound_reply, apiCatch_afterInsert].
  apply chooseRole_sound.
Qed.

Lemma verify_sound w : Sound e invoiceId userId w (verify e invoiceId userId w).
Proof.
  unfold verify.
  destruct (nonEmpty invoiceId); cbn [negb]; [|now apply Sound_reply].
  unfold dbGetVerification. run.
  destruct (select_fails e); [now apply Sound_reply|].
  destruct (List.find (hasInvoice invoiceId) (verifications w));
    [now apply Sound_reply|].
  unfold axiosGet. run. fold (fetched invoiceId w).
  destruct (axios_get e invoiceId) as [data|response].
  - destruct (withResponse e invoiceId userId data (fetched invoiceId w))
      as [o w'] eqn:W.
    apply Sound_fetched. rewrite <- W. apply withResponse_sound.
  - apply Sound_fetched, Sound_reply, apiCatch_afterInsert.
Qed.

End Stages.

(** *** The paths through [verify] *)

Lemma find_hasInvoice invoiceId row (table : list Verification) :
  In row table -> invoice_id row = invoiceId ->
  exists found, List.find (hasInvoice invoiceId) table = Some found.
Proof.
  intros Hin Hid. induction table as [|r rest IH]; [destruct Hin|].
  cbn. destruct (hasInvoice invoiceId r) eqn:Hr; [now exists r|].
  destruct Hin as [->|Hin]; [|now apply IH].
  unfold hasInvoice in Hr. rewrite Hid, String.eqb_refl in Hr. discriminate.
Qed.

Lemma verify_used e invoiceId userId w row :
  nonEmpty invoiceId = true -> select_fails e = false ->
  In row (verifications w) -> invoice_id row = invoiceId ->
  verify e invoiceId userId w = (AlreadyUsed invoiceId, w).
Proof.
  intros Hid Hsel Hin Hrow. unfold verify, dbGetVerification. run.
  rewrite Hid. cbn [negb]. rewrite Hsel.
  destruct (find_hasInvoice _ _ _ Hin Hrow) as [found ->]. reflexivity.
Qed.

Lemma verify_fresh e invoiceId userId w :
  nonEmpty invoiceId = true -> select_fails e = false ->
  List.find (hasInvoice invoiceId) (verifications w) = None ->
  verify e invoiceId userId w =
    match axios_get e invoiceId with
    | Resolved data => withResponse e invoiceId userId data (fetched invoiceId w)
    | Rejected response => (apiCatch (AxiosError response), fetched invoiceId w)
    end.
Proof.
  intros Hid Hsel Hfind. unfold verify, dbGetVerification, axiosGet. run.
  rewrite Hid. cbn [negb]. rewrite Hsel, Hfind. fold (fetched invoiceId w).
  now destruct (axios_get e invoiceId).
Qed.

(** The world is left as it was on every path that stops at the lookup. *)
Lemma verify_stops_at_lookup e invoiceId userId w row :
  In row (verifications w) -> invoice_id row = invoiceId ->
  snd (verify e invoiceId userId w) = w.
Proof.
  intros Hin Hrow. unfold verify, dbGetVerification. run.
  destruct (nonEmpty invoiceId); cbn [negb]; [|reflexivity].
  destruct (select_fails e); [reflexivity|].
  destruct (find_hasInvoice _ _ _ Hin Hrow) as [found ->]. reflexivity.
Qed.

(** **** C6 *)

(** C6. When the invoice id is already in [verifications], the handler
    answers [AlreadyUsed] and leaves the world as it found it: no GET is
    issued, no INSERT is run, no row changes. The world is untouched even
    if the lookup itself fails. *)
Theorem used_invoice_stops_before_fetch e invoiceId userId w row :
  In row (verifications w) -> invoice_id row = invoiceId ->
  snd (verify e invoiceId userId w) = w /\
  (nonEmpty invoiceId = true -> select_fails e = false ->
   verify e invoiceId userId w = (AlreadyUsed invoiceId, w) /\
   calls (snd (verify e invoiceId userId w)) = calls w /\
   verifications (snd (verify e invoiceId userId w)) = verifications w).
Proof.
  intros Hin Hrow. split; [now apply verify_stops_at_lookup with row|].
  intros Hid Hsel.
  rewrite (verify_used e invoiceId userId w row Hid Hsel Hin Hrow).
  easy.
Qed.

(** **** C10 *)

(** C10. The duplicate check looks at the invoice id alone: whoever
    submits an id that is in the table gets [AlreadyUsed], the account
    stored in the row included, and the reply speaks of another discord
    account in every case. *)
Theorem used_invoice_rejects_every_account e invoiceId w row :
  nonEmpty invoiceId = true -> select_fails e = false ->
  In row (verifications w) -> invoice_id row = invoiceId ->
  (forall userId,
      fst (verify e invoiceId userId w) = AlreadyUsed invoiceId) /\
  fst (verify e invoiceId (discord_id row) w) = AlreadyUsed invoiceId /\
  content (AlreadyUsed invoiceId) =
    cross +:+ " Invoice ID " +:+ invoiceId
      +:+ " is already used by another discord account.".
Proof.
  intros Hid Hsel Hin Hrow.
  assert (H : forall userId,
             fst (verify e invoiceId userId w) = AlreadyUsed invoiceId).
  { intros userId. now rewrite (verify_used e invoiceId userId w row). }
  split; [exact H|]. split; [apply H | reflexivity].
Qed.

(** **** C5 *)

(** C5. Once past the duplicate check, a failed fetch is answered by the
    [catch] clause: 401 gives [Unauthorized], 404 gives [NotFound], any
    other rejection (another status code, or no response at all) gives
    [UpstreamUnavailable]; a response whose body is absent or empty gives
    [NotFound]. In each case the handler replies, and nothing but the GET
    has happened. *)
Theorem fetch_failures_are_mapped e invoiceId userId w :
  nonEmpty invoiceId = true -> select_fails e = false ->
  List.find (hasInvoice invoiceId) (verifications w) = None ->
  (axios_get e invoiceId = Rejected (Some 401) ->
   verify e invoiceId userId w = (Unauthorized, fetched invoiceId w)) /\
  (axios_get e invoiceId = Rejected (Some 404) ->
   verify e invoiceId userId w = (NotFound Http404, fetched invoiceId w)) /\
  (forall response,
      axios_get e invoiceId = Rejected response ->
      response <> Some 401 -> response <> Some 404 ->
      verify e invoiceId userId w = (UpstreamUnavailable, fetched invoiceId w)) /\
  (forall data,
      axios_get e invoiceId = Resolved data ->
      data = VUndefined \/ data = VNull \/ data = VStr "" ->
      verify e invoiceId userId w = (NotFound EmptyResponse, fetched invoiceId w)).
Proof.
  intros Hid Hsel Hfind.
  rewrite (verify_fresh e invoiceId userId w Hid Hsel Hfind).
  repeat split.
  - now intros ->.
  - now intros ->.
  - intros response -> H401 H404. f_equal.
    destruct response as [code|]; [|reflexivity]. cbn.
    destruct (code =? 401) eqn:E1; [apply Z.eqb_eq in E1; congruence|].
    destruct (code =? 404) eqn:E2; [apply Z.eqb_eq in E2; congruence|].
    reflexivity.
  - intros data -> [->|[->| ->]]; reflexivity.
Qed.

(** **** C7 *)

(** C7. The handler never updates or deletes a row. Whatever happens, the
    rows it found are still there, in place, followed by what other
    requests committed before its INSERT ran; it adds one row at most, for
    its own invoice id and only when no row carried that id; and every
    outcome after the INSERT (member not found, missing permission, missing
    role, rank too low, grant error, granted) leaves that row in the
    table. *)
Theorem records_are_only_appended e invoiceId userId w :
  let (o, w') := verify e invoiceId userId w in
  (exists added, verifications w' = verifications w ++ added) /\
  (if afterInsert o
   then exists row,
       invoice_id row = invoiceId /\ discord_id row = userId /\
       existsb (hasInvoice invoiceId) (verifications w ++ concurrent e) = false /\
       verifications w' = verifications w ++ concurrent e ++ [row]
   else verifications w' = verifications w \/
        verifications w' = verifications w ++ concurrent e).
Proof.
  pose proof (verify_sound e invoiceId userId w) as H.
  destruct (verify e invoiceId userId w) as [o w'].
  destruct H as (Hrows & _). split; [|exact Hrows].
  destruct (afterInsert o).
  - destruct Hrows as (row & _ & _ & _ & ->). now exists (concurrent e ++ [row]).
  - destruct Hrows as [-> | ->]; [exists [] | exists (concurrent e)];
      now rewrite ?app_nil_r.
Qed.

(** **** C8 *)

Lemma assignRoleAndPersist_rank_too_low
    e invoiceId userId productId currentStatus roleId w g me role :
  insert_fails e = false ->
  existsb (hasInvoice invoiceId) (verifications w ++ concurrent e) = false ->
  guild e = Some g -> members_fetch g userId = true ->
  members_me g = Some me -> permissions_has me ManageRoles = true ->
  findRole g roleId = Some role ->
  highest_position me <= position role ->
  let row := {| invoice_id := invoiceId; discord_id := userId;
                product_id := productId; role_id := roleId;
                status := currentStatus |} in
  assignRoleAndPersist e invoiceId userId productId currentStatus roleId w =
    (RoleRankTooLow,
     {| verifications := (verifications w ++ concurrent e) ++ [row];
        calls := calls w ++ [DbRunInsert row] |}).
Proof.
  intros Hins Hdup Hg Hm Hme Hperm Hrole Hrank row.
  unfold assignRoleAndPersist, dbRunInsert. run. cbn [invoice_id].
  rewrite Hins, Hdup. unfold grantRole. rewrite Hg, Hm. cbn [negb].
  rewrite Hme, Hperm. cbn [negb]. rewrite Hrole.
  apply Z.leb_le in Hrank. now rewrite Hrank.
Qed.

Lemma chooseRole_resolved e invoiceId userId productId currentStatus roleId w :
  resolvedRole e productId = Some roleId ->
  chooseRole e invoiceId userId productId currentStatus w =
  assignRoleAndPersist e invoiceId userId productId currentStatus roleId w.
Proof.
  unfold resolvedRole, chooseRole.
  destruct (truthy productId).
  - destruct (role_mappings e productId) as [|mapRow].
    + now intros ->.
    + destruct (mappedRole mapRow); [now intros [= ->] | now intros ->].
  - now intros ->.
Qed.

(** *** Eligibility *)

Section ExtractedText.

Import StatusSpec.

(** A property of every accepted string is a property of every status the
    extractor returns. *)
Variable P : string -> Prop.
Hypothesis Paccepted : forall raw s, notBlankTrimmed raw = Some s -> P s.

Lemma stringStatus_all v s : stringStatus notBlankTrimmed v = Some s -> P s.
Proof. destruct v; try discriminate. apply Paccepted. Qed.

Lemma firstStatus_all l s : firstStatus notBlankTrimmed l = Some s -> P s.
Proof.
  induction l as [|x rest IH]; [discriminate|]. cbn.
  destruct (statusField notBlankTrimmed x) eqn:E; [|exact IH].
  intros [= <-]. now apply stringStatus_all in E.
Qed.

Lemma probes_all p doc s :
  In p (probes notBlankTrimmed) -> p doc = Some s -> P s.
Proof.
  unfold probes.
  assert (Hseq : forall v, lastToFirst notBlankTrimmed v = Some s -> P s).
  { intros [] H; try discriminate. now apply firstStatus_all in H. }
  assert (H4 : forall k, rule4 notBlankTrimmed k doc = Some s -> P s).
  { intros k. unfold rule4.
    destruct (stringStatus notBlankTrimmed (field doc k)) eqn:E.
    - intros [= <-]. now apply stringStatus_all in E.
    - destruct (isMapping (field doc k)); [apply stringStatus_all | discriminate]. }
  intros [<-|[<-|[<-|[<-|[<-|[<-|[<-|[<-|[<-|[]]]]]]]]]]; try apply H4.
  - apply stringStatus_all.
  - unfold rule2a. destruct (isMapping _); [apply stringStatus_all | discriminate].
  - unfold rule2b. destruct (_ && _); [apply stringStatus_all | discriminate].
  - unfold rule2c. destruct (isMapping _); [apply Hseq | discriminate].
  - apply Hseq.
  - unfold rule5, firstToLast. destruct (field doc "items"); try discriminate.
    apply firstStatus_all.
Qed.

Lemma extractInvoiceStatus_all invoice s :
  extractInvoiceStatus invoice = Ok (Some s) -> P s.
Proof.
  rewrite extractInvoiceStatus_extract. intros [= H]. unfold extract in H.
  destruct (nullish invoice); [discriminate|].
  revert H. generalize probes_all. generalize (probes notBlankTrimmed).
  intros ps Hps. induction ps as [|p rest IH]; [discriminate|]. cbn.
  destruct (p invoice) eqn:E.
  - intros [= <-]. apply (Hps p invoice); [now left | exact E].
  - apply IH. intros q d t Hq. apply Hps. now right.
Qed.

End ExtractedText.

(** What the extractor returns is never the empty string. *)
Lemma extractInvoiceStatus_nonEmpty invoice s :
  extractInvoiceStatus invoice = Ok (Some s) -> nonEmpty s = true.
Proof.
  apply (extractInvoiceStatus_all (fun s => nonEmpty s = true)).
  clear. intros raw s. unfold StatusSpec.notBlankTrimmed, nonEmpty.
  destruct (String.eqb (trim raw) "") eqn:E; [discriminate|].
  intros [= <-]. now rewrite E.
Qed.

Lemma upperStatus_extracted invoice s :
  extractInvoiceStatus invoice = Ok (Some s) ->
  upperStatus (Some s) = Some (toUpperCase s) /\ nonEmpty (toUpperCase s) = true.
Proof.
  intros H. apply extractInvoiceStatus_nonEmpty in H. cbn.
  now rewrite toUpperCase_nonEmpty, H.
Qed.

(** The steps of the [try] block up to the eligibility check. *)
Lemma withResponse_status e invoiceId userId data invoice extracted w :
  responseInvoice data = Ok invoice -> truthy invoice = true ->
  extractInvoiceStatus invoice = Ok extracted ->
  withResponse e invoiceId userId data w =
    match extracted with
    | Some s =>
        if includes validStatuses (toUpperCase s)
        then attempt (resolveProductId invoice)
               (fun productId =>
                  chooseRole e invoiceId userId productId (toUpperCase s)) w
        else (NotEligible (toUpperCase s), w)
    | None => (NotEligible "UNKNOWN", w)
    end.
Proof.
  intros Hinv Htruthy Hext. unfold withResponse.
  rewrite Hinv. cbn [attempt]. rewrite Htruthy. cbn [negb].
  rewrite Hext. cbn [attempt].
  destruct extracted as [s|]; [|reflexivity].
  destruct (upperStatus_extracted _ _ Hext) as [-> Hne].
  cbn [eligibleStatus shownStatus]. rewrite Hne. cbn [andb].
  now destruct (includes validStatuses (toUpperCase s)).
Qed.

Lemma apiCatch_not_NotEligible err shown : apiCatch err <> NotEligible shown.
Proof.
  destruct err as [|[code|]]; cbn; try discriminate.
  destruct (code =? 401); [discriminate|]. now destruct (code =? 404).
Qed.

Lemma assignRoleAndPersist_not_NotEligible
    e invoiceId userId productId currentStatus roleId w shown :
  fst (assignRoleAndPersist e invoiceId userId productId currentStatus roleId w)
  <> NotEligible shown.
Proof.
  unfold assignRoleAndPersist, dbRunInsert. run.
  destruct (insert_fails e); [discriminate|].
  destruct (existsb _ _); [discriminate|].
  match goal with |- context [grantRole ?a ?b ?c ?d ?f ?x] =>
    pose proof (grantRole_cases a b c d f x) as G;
    destruct (grantRole a b c d f x) as [o w'] end.
  destruct G as (Hafter & _). cbn [fst]. intros ->. discriminate.
Qed.

Lemma chooseRole_not_NotEligible e invoiceId userId productId currentStatus w shown :
  fst (chooseRole e invoiceId userId productId currentStatus w) <> NotEligible shown.
Proof.
  unfold chooseRole.
  destruct (truthy productId).
  - destruct (role_mappings e productId) as [|mapRow].
    + destruct (defaultRole e);
        [apply assignRoleAndPersist_not_NotEligible | discriminate].
    + destruct (mappedRole mapRow); [apply assignRoleAndPersist_not_NotEligible|].
      destruct (defaultRole e);
        [apply assignRoleAndPersist_not_NotEligible | discriminate].
  - destruct (defaultRole e);
      [apply assignRoleAndPersist_not_NotEligible | discriminate].
Qed.

(** C8. A role is granted only under a strictly higher rank. Whenever the
    handler answers [Granted], the role stands strictly below the highest
    role of the bot; [member.roles.add] is not even called otherwise. And
    when an attempt comes to the rank comparison (the invoice is eligible,
    a role id is settled on, the row is written, the member is found, the
    bot holds Manage Roles, the role exists) with a highest position equal
    to or below the position of the role, the answer is [RoleRankTooLow],
    the calls made are the GET and the INSERT, and no role is added,
    whatever else [permissions.has] answers. *)
Theorem grant_needs_strictly_higher_rank e invoiceId userId w :
  (forall st r,
      fst (verify e invoiceId userId w) = Granted st r -> Outranks e r) /\
  (forall member r reason,
      In (RolesAdd member r reason) (calls (snd (verify e invoiceId userId w))) ->
      In (RolesAdd member r reason) (calls w) \/ Outranks e r) /\
  (forall data invoice s productId roleId g me role,
      nonEmpty invoiceId = true -> select_fails e = false ->
      List.find (hasInvoice invoiceId) (verifications w) = None ->
      axios_get e invoiceId = Resolved data ->
      responseInvoice data = Ok invoice -> truthy invoice = true ->
      extractInvoiceStatus invoice = Ok (Some s) ->
      includes validStatuses (toUpperCase s) = true ->
      resolveProductId invoice = Ok productId ->
      resolvedRole e productId = Some roleId ->
      insert_fails e = false ->
      existsb (hasInvoice invoiceId) (verifications w ++ concurrent e) = false ->
      guild e = Some g -> members_fetch g userId = true ->
      members_me g = Some me -> permissions_has me ManageRoles = true ->
      findRole g roleId = Some role ->
      highest_position me <= position role ->
      fst (verify e invoiceId userId w) = RoleRankTooLow /\
      calls (snd (verify e invoiceId userId w))
      = calls w ++ [AxiosGet invoiceId;
                    DbRunInsert (rowOf invoiceId userId productId roleId
                                       (toUpperCase s))] /\
      forall member r reason,
        In (RolesAdd member r reason)
           (calls (snd (verify e invoiceId userId w))) ->
        In (RolesAdd member r reason) (calls w)).
Proof.
  pose proof (verify_sound e invoiceId userId w) as H.
  split; [|split].
  - destruct (verify e invoiceId userId w) as [o w'].
    destruct H as (_ & _ & Hrank). intros st r E. now apply (Hrank st r).
  - destruct (verify e invoiceId userId w) as [o w'].
    destruct H as (_ & (extra & Hcalls & Hextra) & _). cbn [fst snd].
    intros member r reason Hin. rewrite Hcalls in Hin.
    apply in_app_or in Hin. destruct Hin as [Hin|Hin]; [now left|right].
    destruct (Hextra _ Hin) as [Hc|[(row & Hc)|(r' & Hc & Hrank & _)]];
      try discriminate.
    injection Hc as _ -> _. exact Hrank.
  - clear H.
    intros data invoice s productId roleId g me role
           Hid Hsel Hfind Hget Hinv Htruthy Hext Hvalid Hprod Hres
           Hins Hdup Hg Hm Hme Hperm Hrole Hrank.
    rewrite (verify_fresh e invoiceId userId w Hid Hsel Hfind), Hget.
    rewrite (withResponse_status e invoiceId userId data invoice (Some s)
               (fetched invoiceId w) Hinv Htruthy Hext).
    rewrite Hvalid, Hprod. cbn [attempt].
    rewrite (chooseRole_resolved e invoiceId userId productId (toUpperCase s)
               roleId (fetched invoiceId w) Hres).
    rewrite (assignRoleAndPersist_rank_too_low e invoiceId userId productId
               (toUpperCase s) roleId (fetched invoiceId w) g me role)
      by assumption.
    cbn [fst snd calls fetched]. rewrite <- app_assoc. cbn [app].
    split; [reflexivity|]. split; [reflexivity|].
    intros member r reason Hin. apply in_app_or in Hin.
    destruct Hin as [Hin|[Hin|[Hin|[]]]]; [exact Hin | discriminate..].
Qed.

(** **** C4 *)

(** C4, as the code has it. The eligibility decision is taken on the
    uppercased status: the attempt goes on to the product id and the role
    exactly when the uppercased status is one of PAID, COMPLETED,
    FULFILLED, SUCCESS, so that "paid", "PAID" and "Paid" are all
    accepted. Otherwise the answer is [NotEligible], and what it carries is
    the uppercased status, or UNKNOWN when no status was found. *)
Theorem eligibility_decided_on_uppercased_status
    e invoiceId userId w data invoice extracted :
  nonEmpty invoiceId = true -> select_fails e = false ->
  List.find (hasInvoice invoiceId) (verifications w) = None ->
  axios_get e invoiceId = Resolved data ->
  responseInvoice data = Ok invoice -> truthy invoice = true ->
  extractInvoiceStatus invoice = Ok extracted ->
  match extracted with
  | Some s =>
      if includes validStatuses (toUpperCase s)
      then verify e invoiceId userId w =
             attempt (resolveProductId invoice)
               (fun productId =>
                  chooseRole e invoiceId userId productId (toUpperCase s))
               (fetched invoiceId w) /\
           forall shown, fst (verify e invoiceId userId w) <> NotEligible shown
      else verify e invoiceId userId w =
             (NotEligible (toUpperCase s), fetched invoiceId w)
  | None =>
      verify e invoiceId userId w = (NotEligible "UNKNOWN", fetched invoiceId w)
  end /\
  includes validStatuses (toUpperCase "paid") = true /\
  includes validStatuses (toUpperCase "PAID") = true /\
  includes validStatuses (toUpperCase "Paid") = true.
Proof.
  intros Hid Hsel Hfind Hget Hinv Htruthy Hext.
  split; [|now vm_compute].
  rewrite (verify_fresh e invoiceId userId w Hid Hsel Hfind), Hget.
  rewrite (withResponse_status e invoiceId userId data invoice extracted
             (fetched invoiceId w) Hinv Htruthy Hext).
  destruct extracted as [s|]; [|reflexivity].
  destruct (includes validStatuses (toUpperCase s)); [|reflexivity].
  split; [reflexivity|]. intros shown. unfold attempt.
  destruct (resolveProductId invoice) as [productId|err].
  - apply chooseRole_not_NotEligible.
  - apply apiCatch_not_NotEligible.
Qed.

Lemma eligibility_decided_on_uppercased_status_witness :
  verify (Sample.env (Some "role-vip") (Sample.guildWith Sample.me 3)
                     (Sample.invoiceWith "Paid"))
         "2711846" "user-1" Sample.empty
  = attempt (resolveProductId (Sample.invoiceWith "Paid"))
      (fun productId =>
         chooseRole (Sample.env (Some "role-vip") (Sample.guildWith Sample.me 3)
                                (Sample.invoiceWith "Paid"))
                    "2711846" "user-1" productId "PAID")
      (fetched "2711846" Sample.empty).
Proof.
  exact (proj1 (proj1
    (eligibility_decided_on_uppercased_status
       (Sample.env (Some "role-vip") (Sample.guildWith Sample.me 3)
                   (Sample.invoiceWith "Paid"))
       "2711846" "user-1" Sample.empty
       (VObj [("data", Sample.invoiceWith "Paid")])
       (Sample.invoiceWith "Paid") (Some "Paid")
       eq_refl eq_refl eq_refl eq_refl eq_refl eq_refl eq_refl))).
Defined.

(** C4 as stated fails: for an invoice whose status reads "pending" the
    extractor returns "pending", and [NotEligible] carries "PENDING". *)
Lemma not_eligible_carries_raw_status_counterexample :
  let e := Sample.env (Some "role-vip") (Sample.guildWith Sample.me 3)
                      (Sample.invoiceWith "pending") in
  extractInvoiceStatus (Sample.invoiceWith "pending") = Ok (Some "pending") /\
  fst (verify e "2711846" "user-1" Sample.empty) = NotEligible "PENDING" /\
  fst (verify e "2711846" "user-1" Sample.empty) <> NotEligible "pending".
Proof. vm_compute. repeat split; discriminate. Qed.

(** **** C1 *)

(** C1, as the code has it. The role is resolved before the row is
    written: when an eligible invoice resolves to a product id without a
    row in [role_mappings] and no [VERIFY_ROLE_ID] is set, the handler
    answers [NoRoleConfigured] having run no INSERT, so no record exists for
    the invoice id, and submitting the same id again fetches the invoice
    again and ends in [NoRoleConfigured] again. *)
Theorem no_role_leaves_no_record
    e invoiceId userId w data invoice s productId :
  nonEmpty invoiceId = true -> select_fails e = false ->
  List.find (hasInvoice invoiceId) (verifications w) = None ->
  axios_get e invoiceId = Resolved data ->
  responseInvoice data = Ok invoice -> truthy invoice = true ->
  extractInvoiceStatus invoice = Ok (Some s) ->
  includes validStatuses (toUpperCase s) = true ->
  resolveProductId invoice = Ok productId ->
  role_mappings e productId = GetRow None ->
  defaultRole e = None ->
  exists why,
    verify e invoiceId userId w = (NoRoleConfigured why, fetched invoiceId w) /\
    List.find (hasInvoice invoiceId)
              (verifications (snd (verify e invoiceId userId w))) = None /\
    verify e invoiceId userId (snd (verify e invoiceId userId w)) =
      (NoRoleConfigured why, fetched invoiceId (fetched invoiceId w)).
Proof.
  intros Hid Hsel Hfind Hget Hinv Htruthy Hext Hvalid Hprod Hmap Hdef.
  assert (Hrun : forall w0,
             List.find (hasInvoice invoiceId) (verifications w0) = None ->
             verify e invoiceId userId w0 =
               chooseRole e invoiceId userId productId (toUpperCase s)
                          (fetched invoiceId w0)).
  { intros w0 H0.
    rewrite (verify_fresh e invoiceId userId w0 Hid Hsel H0), Hget.
    rewrite (withResponse_status e invoiceId userId data invoice (Some s)
               (fetched invoiceId w0) Hinv Htruthy Hext).
    now rewrite Hvalid, Hprod. }
  assert (Hrole : exists why, forall w0,
             chooseRole e invoiceId userId productId (toUpperCase s) w0 =
               (NoRoleConfigured why, w0)).
  { unfold chooseRole. rewrite Hmap, Hdef. cbn [mappedRole].
    destruct (truthy productId); [now exists NoMapping | now exists NoProduct]. }
  destruct Hrole as [why Hrole]. exists why.
  rewrite (Hrun w Hfind), Hrole. cbn [snd fetched verifications].
  split; [reflexivity|]. split; [exact Hfind|].
  rewrite (Hrun (fetched invoiceId w) Hfind). apply Hrole.
Qed.

Lemma no_role_leaves_no_record_witness :
  exists why,
    verify (Sample.env None (Sample.guildWith Sample.me 3) (Sample.invoiceWith "paid"))
           "2711846" "user-1" Sample.empty
    = (NoRoleConfigured why, fetched "2711846" Sample.empty) /\
    List.find (hasInvoice "2711846")
      (verifications
         (snd (verify (Sample.env None (Sample.guildWith Sample.me 3)
                                  (Sample.invoiceWith "paid"))
                      "2711846" "user-1" Sample.empty))) = None /\
    verify (Sample.env None (Sample.guildWith Sample.me 3) (Sample.invoiceWith "paid"))
           "2711846" "user-1"
           (snd (verify (Sample.env None (Sample.guildWith Sample.me 3)
                                    (Sample.invoiceWith "paid"))
                        "2711846" "user-1" Sample.empty))
    = (NoRoleConfigured why, fetched "2711846" (fetched "2711846" Sample.empty)).
Proof.
  exact (no_role_leaves_no_record
           (Sample.env None (Sample.guildWith Sample.me 3) (Sample.invoiceWith "paid"))
           "2711846" "user-1" Sample.empty
           (VObj [("data", Sample.invoiceWith "paid")])
           (Sample.invoiceWith "paid") "paid" (VStr "42")
           eq_refl eq_refl eq_refl eq_refl eq_refl eq_refl eq_refl eq_refl
           eq_refl eq_refl eq_refl).
Defined.

(** C1 as stated fails: a paid invoice for product 42, no row for it in
    [role_mappings], no [VERIFY_ROLE_ID]. The answer is [NoRoleConfigured],
    no record is kept for the invoice id, and the retry is not answered
    [AlreadyUsed]. *)
Lemma no_role_persists_record_counterexample :
  let e := Sample.env None (Sample.guildWith Sample.me 3)
                      (Sample.invoiceWith "paid") in
  let first := verify e "2711846" "user-1" Sample.empty in
  fst first = NoRoleConfigured NoMapping /\
  verifications (snd first) = [] /\
  ~ (exists row, In row (verifications (snd first)) /\
                 invoice_id row = "2711846") /\
  fst (verify e "2711846" "user-1" (snd first)) <> AlreadyUsed "2711846".
Proof.
  vm_compute. repeat split; try discriminate.
  intros (row & [] & _).
Qed.

(** ** The cooldown map *)

Lemma prune_lookup_Some (t : Z) (m : gmap string Z) (k : string) (v : Z) :
  prune t m !! k = Some v <->
  m !! k = Some v /\ t - v <= BUTTON_COOLDOWN_MS * 5.
Proof.
  unfold prune. rewrite map_lookup_filter_Some. cbn [snd]. split.
  - intros [H1 H2]. split; [exact H1 | lia].
  - intros [H1 H2]. split; [exact H1 | lia].
Qed.

Lemma prune_lookup_None (t : Z) (m : gmap string Z) (k : string) (v : Z) :
  m !! k = Some v -> prune t m !! k = None ->
  t - v > BUTTON_COOLDOWN_MS * 5.
Proof.
  intros Hm Hp.
  destruct (Z_le_gt_dec (t - v) (BUTTON_COOLDOWN_MS * 5)) as [Hle|Hgt];
    [|exact Hgt].
  assert (H : prune t m !! k = Some v) by now apply prune_lookup_Some.
  congruence.
Qed.

(** **** C9 *)

(** C9. Pruning changes no cooldown decision. For a clock that reads at
    least one cooldown window (the timestamp taken for an account without
    an entry is 0) and does not run backwards between the prune and the
    click, the reply to a click is the same on the pruned map as on the map
    left alone, for every account and every time of the click. The entries
    the prune drops are older than five cooldown windows, and a click of
    their account is let through on either map. *)
Theorem pruning_keeps_cooldown_decisions
    (pruneTime now : Z) (userId : string) (buttonCooldown : gmap string Z) :
  BUTTON_COOLDOWN_MS <= now ->
  pruneTime <= now ->
  fst (verify_invoice_button now userId (prune pruneTime buttonCooldown)) =
  fst (verify_invoice_button now userId buttonCooldown) /\
  (forall v,
      buttonCooldown !! userId = Some v ->
      prune pruneTime buttonCooldown !! userId = None ->
      pruneTime - v > BUTTON_COOLDOWN_MS * 5 /\
      fst (verify_invoice_button now userId buttonCooldown) = ShowModal /\
      fst (verify_invoice_button now userId (prune pruneTime buttonCooldown))
        = ShowModal).
Proof.
  intros Hepoch Hclock.
  assert (Hdropped : forall v,
             buttonCooldown !! userId = Some v ->
             prune pruneTime buttonCooldown !! userId = None ->
             pruneTime - v > BUTTON_COOLDOWN_MS * 5 /\
             fst (verify_invoice_button now userId buttonCooldown) = ShowModal /\
             fst (verify_invoice_button now userId (prune pruneTime buttonCooldown))
               = ShowModal).
  { intros v Hm Hp.
    pose proof (prune_lookup_None _ _ _ _ Hm Hp) as Hold.
    unfold verify_invoice_button. rewrite Hm, Hp. cbn [from_option]; unfold id.
    unfold BUTTON_COOLDOWN_MS in *.
    destruct (now - v <? 15000) eqn:E1; [apply Z.ltb_lt in E1; lia|].
    destruct (now - 0 <? 15000) eqn:E2; [apply Z.ltb_lt in E2; lia|].
    cbn [fst]. split; [lia|]. split; reflexivity. }
  split; [|exact Hdropped].
  destruct (buttonCooldown !! userId) as [v|] eqn:Hm.
  - destruct (prune pruneTime buttonCooldown !! userId) as [v'|] eqn:Hp.
    + pose proof Hp as Hp'. apply prune_lookup_Some in Hp'.
      destruct Hp' as [Hp' _]. assert (v' = v) as -> by congruence.
      unfold verify_invoice_button. rewrite Hm, Hp. cbn [from_option]; unfold id.
      now destruct (now - v <? BUTTON_COOLDOWN_MS).
    + destruct (Hdropped v eq_refl eq_refl) as (_ & -> & ->). reflexivity.
  - assert (Hp : prune pruneTime buttonCooldown !! userId = None).
    { destruct (prune pruneTime buttonCooldown !! userId) as [v'|] eqn:Hp;
        [|reflexivity].
      apply prune_lookup_Some in Hp. destruct Hp as [Hp _]. congruence. }
    unfold verify_invoice_button. rewrite Hm, Hp. cbn [from_option]; unfold id.
    now destruct (now - 0 <? BUTTON_COOLDOWN_MS).
Qed.

(** [user-1] clicked long ago and is pruned, [user-2] clicked ten seconds
    before the prune and is kept. *)
Lemma pruning_keeps_cooldown_decisions_witness :
  fst (verify_invoice_button 100500 "user-1"
         (prune 100000 (<["user-2" := 90000]> {["user-1" := 1000]}))) =
  fst (verify_invoice_button 100500 "user-1"
         (<["user-2" := 90000]> {["user-1" := 1000]})) /\
  fst (verify_invoice_button 100500 "user-2"
         (prune 100000 (<["user-2" := 90000]> {["user-1" := 1000]}))) =
  fst (verify_invoice_button 100500 "user-2"
         (<["user-2" := 90000]> {["user-1" := 1000]})).
Proof.
  assert (Hepoch : BUTTON_COOLDOWN_MS <= 100500)
    by (unfold BUTTON_COOLDOWN_MS; lia).
  assert (Hclock : 100000 <= 100500) by lia.
  split.
  - exact (proj1 (pruning_keeps_cooldown_decisions 100000 100500 "user-1"
             (<["user-2" := 90000]> {["user-1" := 1000]}) Hepoch Hclock)).
  - exact (proj1 (pruning_keeps_cooldown_decisions 100000 100500 "user-2"
             (<["user-2" := 90000]> {["user-1" := 1000]}) Hepoch Hclock)).
Defined.

(** ** Sample runs *)

Example sample_prune :
  prune 100000 (<["user-2" := 90000]> {["user-1" := 1000]}) !! "user-1" = None /\
  prune 100000 (<["user-2" := 90000]> {["user-1" := 1000]}) !! "user-2"
  = Some 90000 /\
  fst (verify_invoice_button 100500 "user-2"
         (prune 100000 (<["user-2" := 90000]> {["user-1" := 1000]})))
  = PleaseWait 5.
Proof. vm_compute. repeat split; reflexivity. Qed.

(** A blank [status] is passed over, and what is found is trimmed. *)
Example sample_blank_status :
  extractInvoiceStatus (VObj [("status", VStr "   "); ("state", VStr " Success ")])
  = Ok (Some "Success").
Proof. reflexivity. Qed.

(** A body [{ data: null }] is not an empty body: the handler goes on with
    the body itself as the invoice. *)
Example sample_null_data :
  fst (verify (Sample.answering (VObj [("data", VNull)]))
              "2711846" "user-1" Sample.empty)
  = NotEligible "UNKNOWN".
Proof. reflexivity. Qed.

(** A paid invoice, a default role below the bot: the row is written and
    the role granted. *)
Example sample_granted :
  verify (Sample.env (Some "role-vip") (Sample.guildWith Sample.me 3)
                     (Sample.invoiceWith "paid"))
         "2711846" "user-1" Sample.empty
  = (Granted "PAID" "role-vip",
     {| verifications := [Sample.usedRow];
        calls := [AxiosGet "2711846";
                  DbRunInsert Sample.usedRow;
                  RolesAdd "user-1" "role-vip" "Verified invoice 2711846"] |}).
Proof. reflexivity. Qed.

(** The form text is trimmed before anything else. *)
Example sample_modal_trims :
  fst (invoice_modal (Sample.failing None) "user-2" "  2711846 " Sample.used)
  = AlreadyUsed "2711846" /\
  fst (invoice_modal (Sample.failing None) "user-2" "   " Sample.used)
  = InvalidInput.
Proof. split; reflexivity. Qed.

(** A first line item that is [null] throws in the [try] block; the
    [catch] clause answers. *)
Example sample_null_item :
  fst (verify (Sample.env (Some "role-vip") (Sample.guildWith Sample.me 3)
                 (VObj [("status", VStr "paid"); ("items", VArr [VNull])]))
              "2711846" "user-1" Sample.empty)
  = UpstreamUnavailable.
Proof. reflexivity. Qed.

(** Another request wrote the invoice id while this one was fetching. *)
Example sample_concurrent :
  let e := Sample.env (Some "role-vip") (Sample.guildWith Sample.me 3)
                      (Sample.invoiceWith "paid") in
  fst (verify {| VERIFY_ROLE_ID := VERIFY_ROLE_ID e;
                 select_fails := false;
                 axios_get := axios_get e;
                 role_mappings := role_mappings e;
                 insert_fails := false;
                 concurrent := [Sample.usedRow];
                 guild := guild e |}
              "2711846" "user-2" Sample.empty)
  = ConcurrentlyUsed "2711846".
Proof. reflexivity. Qed.

Lemma used_invoice_stops_before_fetch_witness :
  verify (Sample.failing None) "2711846" "user-2" Sample.used
  = (AlreadyUsed "2711846", Sample.used) /\
  calls (snd (verify (Sample.failing None) "2711846" "user-2" Sample.used))
  = calls Sample.used /\
  verifications (snd (verify (Sample.failing None) "2711846" "user-2" Sample.used))
  = verifications Sample.used.
Proof.
  exact (proj2 (used_invoice_stops_before_fetch (Sample.failing None)
                  "2711846" "user-2" Sample.used Sample.usedRow
                  (or_introl eq_refl) eq_refl)
               eq_refl eq_refl).
Defined.

Lemma used_invoice_rejects_every_account_witness :
  fst (verify (Sample.failing None) "2711846" "user-1" Sample.used)
  = AlreadyUsed "2711846" /\
  discord_id Sample.usedRow = "user-1".
Proof.
  split; [|reflexivity].
  exact (proj1 (proj2 (used_invoice_rejects_every_account (Sample.failing None)
                  "2711846" Sample.used Sample.usedRow
                  eq_refl eq_refl (or_introl eq_refl) eq_refl))).
Defined.

Lemma fetch_failures_are_mapped_witness :
  verify (Sample.failing (Some 401)) "2711846" "user-1" Sample.empty
  = (Unauthorized, fetched "2711846" Sample.empty) /\
  verify (Sample.failing (Some 404)) "2711846" "user-1" Sample.empty
  = (NotFound Http404, fetched "2711846" Sample.empty) /\
  verify (Sample.failing (Some 503)) "2711846" "user-1" Sample.empty
  = (UpstreamUnavailable, fetched "2711846" Sample.empty) /\
  verify (Sample.failing None) "2711846" "user-1" Sample.empty
  = (UpstreamUnavailable, fetched "2711846" Sample.empty) /\
  verify (Sample.answering (VStr "")) "2711846" "user-1" Sample.empty
  = (NotFound EmptyResponse, fetched "2711846" Sample.empty).
Proof.
  split; [|split; [|split; [|split]]].
  - exact (proj1 (fetch_failures_are_mapped (Sample.failing (Some 401))
             "2711846" "user-1" Sample.empty eq_refl eq_refl eq_refl) eq_refl).
  - exact (proj1 (proj2 (fetch_failures_are_mapped (Sample.failing (Some 404))
             "2711846" "user-1" Sample.empty eq_refl eq_refl eq_refl)) eq_refl).
  - apply (proj1 (proj2 (proj2 (fetch_failures_are_mapped
             (Sample.failing (Some 503))
             "2711846" "user-1" Sample.empty eq_refl eq_refl eq_refl)))
             (Some 503) eq_refl); discriminate.
  - apply (proj1 (proj2 (proj2 (fetch_failures_are_mapped
             (Sample.failing None)
             "2711846" "user-1" Sample.empty eq_refl eq_refl eq_refl)))
             None eq_refl); discriminate.
  - apply (proj2 (proj2 (proj2 (fetch_failures_are_mapped
             (Sample.answering (VStr ""))
             "2711846" "user-1" Sample.empty eq_refl eq_refl eq_refl)))
             (VStr "") eq_refl).
    right; right; reflexivity.
Defined.

(** The bot at position 5 and the role at position 5: the row is
    written, the role is not added. *)
Lemma grant_needs_strictly_higher_rank_witness :
  fst (verify (Sample.env (Some "role-vip") (Sample.guildWith Sample.me 5)
                          (Sample.invoiceWith "paid"))
              "2711846" "user-1" Sample.empty)
  = RoleRankTooLow /\
  calls (snd (verify (Sample.env (Some "role-vip") (Sample.guildWith Sample.me 5)
                                 (Sample.invoiceWith "paid"))
                     "2711846" "user-1" Sample.empty))
  = [AxiosGet "2711846"; DbRunInsert Sample.usedRow].
Proof.
  assert (Hvalid : includes validStatuses (toUpperCase "paid") = true)
    by (vm_compute; reflexivity).
  assert (Hext : extractInvoiceStatus (Sample.invoiceWith "paid")
                 = Ok (Some "paid"))
    by (vm_compute; reflexivity).
  assert (Hrank : highest_position Sample.me <= position {| position := 5 |})
    by (cbn; lia).
  pose proof (proj2 (proj2 (grant_needs_strictly_higher_rank
            (Sample.env (Some "role-vip") (Sample.guildWith Sample.me 5)
                        (Sample.invoiceWith "paid"))
            "2711846" "user-1" Sample.empty))
            (VObj [("data", Sample.invoiceWith "paid")])
            (Sample.invoiceWith "paid") "paid" (VStr "42") "role-vip"
            (Sample.guildWith Sample.me 5) Sample.me {| position := 5 |}
            eq_refl eq_refl eq_refl eq_refl eq_refl eq_refl Hext Hvalid
            eq_refl eq_refl eq_refl eq_refl eq_refl eq_refl eq_refl eq_refl
            eq_refl Hrank) as (Hreply & Hcalls & _).
  split; [exact Hreply|]. rewrite Hcalls. vm_compute. reflexivity.
Defined.

(** * More of [index.js] *)

Example sample_helpers :
  parseChannelIds (Some " 123456789012345678 ,abc,,12345678901234567890123, 98765432109876543")
  = ["123456789012345678"; "98765432109876543"] /\
  looksLikeUrl "  https://cdn.example.com/a.png " = true /\
  looksLikeUrl "https://localhost" = false /\
  looksLikeUrl "ftp://a.b" = false /\
  resolveActivityType (Some "Streaming") = Streaming /\
  resolveStatus (Some "DND") = "dnd" /\
  resolveStatus None = "online".
Proof. vm_compute. repeat split; reflexivity. Qed.

(** ** The pattern matcher agrees with the language of the pattern *)
Module RegexFacts.
Import Regex.

Lemma nullable_Matches r : nullable r = true <-> Matches r [].
Proof.
  split.
  - induction r; cbn; intros H; try discriminate.
    + constructor.
    + apply andb_prop in H. destruct H as [H1 H2].
      change (@nil string) with (@nil string ++ []). constructor; auto.
    + apply orb_prop in H. destruct H as [H|H];
        [apply MAltL | apply MAltR]; auto.
    + constructor.
  - intros H. remember (@nil string) as s eqn:E.
    induction H; cbn; try reflexivity; try discriminate.
    + apply app_eq_nil in E. destruct E as [-> ->].
      now rewrite IHMatches1, IHMatches2.
    + now rewrite IHMatches.
    + rewrite IHMatches by assumption. apply orb_true_r.
Qed.

Lemma deriv_sound c r : forall s, Matches (deriv c r) s -> Matches r (c :: s).
Proof.
  induction r; cbn; intros s H.
  - inversion H.
  - inversion H.
  - destruct (p c) eqn:E; inversion H; subst. now constructor.
  - assert (Hseq : forall t, Matches (Seq (deriv c r1) r2) t ->
                             Matches (Seq r1 r2) (c :: t)).
    { intros t Ht. inversion Ht; subst.
      change (c :: s1 ++ s2) with ((c :: s1) ++ s2).
      constructor; auto. }
    destruct (nullable r1) eqn:N; [|now apply Hseq].
    inversion H; subst; [now apply Hseq|].
    change (c :: s) with ([] ++ c :: s).
    constructor; [now apply nullable_Matches | auto].
  - inversion H; subst; [apply MAltL | apply MAltR]; auto.
  - inversion H; subst.
    change (c :: s1 ++ s2) with ((c :: s1) ++ s2).
    constructor; auto.
Qed.

Lemma deriv_complete c r t :
  Matches r t -> forall u, t = c :: u -> Matches (deriv c r) u.
Proof.
  induction 1 as [|p x Hp|r1 r2 s1 s2 H1 IH1 H2 IH2|r1 r2 s H IH|r1 r2 s H IH
                 |r|r s1 s2 H1 IH1 H2 IH2];
    intros u E; cbn.
  - discriminate.
  - injection E as -> <-. rewrite Hp. constructor.
  - destruct s1 as [|x s1]; cbn [app] in E.
    + assert (N : nullable r1 = true) by now apply nullable_Matches.
      rewrite N. apply MAltR. now apply IH2.
    + injection E as -> <-.
      assert (Matches (Seq (deriv c r1) r2) (s1 ++ s2))
        by (constructor; [now apply IH1 | assumption]).
      destruct (nullable r1); [now apply MAltL | assumption].
  - apply MAltL. now apply IH.
  - apply MAltR. now apply IH.
  - discriminate.
  - destruct s1 as [|x s1]; cbn [app] in E.
    + now apply IH2.
    + injection E as -> <-. constructor; [now apply IH1 | assumption].
Qed.

Lemma deriv_Matches c r s : Matches (deriv c r) s <-> Matches r (c :: s).
Proof.
  split; [apply deriv_sound|]. intros H. now apply (deriv_complete c r _ H).
Qed.

Lemma wholeMatch_Matches r l : wholeMatch r l = true <-> Matches r l.
Proof.
  revert r. induction l as [|c l IH]; intros r; cbn.
  - apply nullable_Matches.
  - rewrite IH. apply deriv_Matches.
Qed.

Lemma prefixMatch_Matches r l :
  prefixMatch r l = true <->
  exists matched rest, l = matched ++ rest /\ Matches r matched.
Proof.
  revert r. induction l as [|c l IH]; intros r; cbn.
  - rewrite orb_false_r, nullable_Matches. split.
    + intros H. now exists [], [].
    + intros (m & rest & E & H). symmetry in E.
      apply app_eq_nil in E. now destruct E as [-> _].
  - split.
    + intros H. apply orb_prop in H. destruct H as [H|H].
      * exists [], (c :: l). split; [reflexivity | now apply nullable_Matches].
      * apply IH in H. destruct H as (m & rest & -> & H).
        exists (c :: m), rest. split; [reflexivity | now apply deriv_Matches].
    + intros (m & rest & E & H). destruct m as [|x m]; cbn [app] in E.
      * apply nullable_Matches in H. now rewrite H.
      * injection E as <- ->. apply orb_true_intro. right.
        apply IH. exists m, rest. split; [reflexivity | now apply deriv_Matches].
Qed.

(** [/^r$/.test(s)] holds exactly when the characters of [s] are in the
    language of [r]. *)
Lemma testWhole_Matches r s : testWhole r s = true <-> Matches r (chars s).
Proof. apply wholeMatch_Matches. Qed.

(** [/^r/.test(s)] holds exactly when [s] begins with characters in the
    language of [r]. *)
Lemma testPrefix_Matches r s :
  testPrefix r s = true <->
  exists matched rest, chars s = matched ++ rest /\ Matches r matched.
Proof. apply prefixMatch_Matches. Qed.

Lemma Matches_Class p l :
  Matches (Class p) l <-> exists c, l = [c] /\ p c = true.
Proof.
  split.
  - intros H. inversion H; subst. now exists c.
  - intros (c & -> & H). now constructor.
Qed.

Lemma Matches_Lits t l : Matches (Lits t) l <-> l = t.
Proof.
  revert l. induction t as [|c t IH]; intros l; cbn.
  - split; [intros H; now inversion H | intros ->; constructor].
  - split.
    + intros H. inversion H; subst.
      match goal with H1 : Matches (Lit c) _ |- _ =>
        apply Matches_Class in H1; destruct H1 as (x & -> & Hx) end.
      apply String.eqb_eq in Hx. subst x. cbn [app]. f_equal. now apply IH.
    + intros ->. change (c :: t) with ([c] ++ t).
      constructor; [constructor; apply String.eqb_refl | now apply IH].
Qed.

Lemma Matches_Star_Class p l :
  Matches (Star (Class p)) l <-> forallb p l = true.
Proof.
  split.
  - intros H. remember (Star (Class p)) as r eqn:E.
    induction H; try discriminate; [reflexivity|].
    injection E as ->. rewrite forallb_app, IHMatches2 by reflexivity.
    apply Matches_Class in H. destruct H as (c & -> & Hc). cbn. now rewrite Hc.
  - induction l as [|c l IH]; cbn; intros H; [constructor|].
    apply andb_prop in H. destruct H as [Hc Hs].
    change (c :: l) with ([c] ++ l).
    constructor; [now constructor | now apply IH].
Qed.

Lemma Matches_Plus_Class p l :
  Matches (Plus (Class p)) l <-> l <> [] /\ forallb p l = true.
Proof.
  unfold Plus. split.
  - intros H. inversion H; subst.
    match goal with H1 : Matches (Class p) _ |- _ =>
      apply Matches_Class in H1; destruct H1 as (c & -> & Hc) end.
    match goal with H2 : Matches (Star _) _ |- _ =>
      apply Matches_Star_Class in H2; rename H2 into Hs end.
    cbn. split; [discriminate | now rewrite Hc].
  - intros [Hne H]. destruct l as [|c l]; [congruence|]. cbn in H.
    apply andb_prop in H. destruct H as [Hc Hs].
    change (c :: l) with ([c] ++ l).
    constructor; [now constructor | now apply Matches_Star_Class].
Qed.

Lemma Matches_Times_Class p n l :
  Matches (Times n (Class p)) l <->
  length l = n /\ forallb p l = true.
Proof.
  revert l. induction n as [|n IH]; intros l; cbn.
  - split.
    + intros H. inversion H; subst. now split.
    + intros [H _]. destruct l; [constructor | discriminate].
  - split.
    + intros H. inversion H; subst.
      match goal with H1 : Matches (Class p) _ |- _ =>
        apply Matches_Class in H1; destruct H1 as (c & -> & Hc) end.
      match goal with H2 : Matches (Times _ _) _ |- _ =>
        apply IH in H2; destruct H2 as [Hl Hs] end.
      cbn. now rewrite Hl, Hc.
    + intros [Hl H]. destruct l as [|c l]; [discriminate|]. cbn in *.
      apply andb_prop in H. destruct H as [Hc Hs].
      change (c :: l) with ([c] ++ l).
      constructor; [now constructor | apply IH; split; [lia | assumption]].
Qed.

Lemma Matches_Times_Opt_Class p n l :
  Matches (Times n (Opt (Class p))) l <->
  (length l <= n)%nat /\ forallb p l = true.
Proof.
  revert l. induction n as [|n IH]; intros l; cbn.
  - split.
    + intros H. inversion H; subst. now split.
    + intros [H _]. destruct l; [constructor | cbn in H; lia].
  - split.
    + intros H. inversion H; subst.
      match goal with H2 : Matches (Times _ _) _ |- _ =>
        apply IH in H2; destruct H2 as [Hl Hs] end.
      match goal with H1 : Matches (Opt _) _ |- _ => inversion H1; subst end.
      * match goal with H1 : Matches (Class p) _ |- _ =>
          apply Matches_Class in H1; destruct H1 as (c & -> & Hc) end.
        cbn. rewrite Hc. split; [lia | assumption].
      * match goal with H1 : Matches Empty _ |- _ => inversion H1; subst end.
        cbn. split; [lia | assumption].
    + intros [Hl H]. destruct l as [|c l].
      * change (@nil string) with (@nil string ++ []). constructor.
        -- apply MAltR. constructor.
        -- apply IH. split; [cbn; lia | reflexivity].
      * cbn in *. apply andb_prop in H. destruct H as [Hc Hs].
        change (c :: l) with ([c] ++ l).
        constructor; [apply MAltL; now constructor|].
        apply IH. split; [lia | assumption].
Qed.

Lemma Matches_Between_Class p lo hi l :
  (lo <= hi)%nat ->
  Matches (Between lo hi (Class p)) l <->
  (lo <= length l <= hi)%nat /\ forallb p l = true.
Proof.
  intros Hlh. unfold Between. split.
  - intros H. inversion H; subst.
    match goal with H1 : Matches (Times lo _) _ |- _ =>
      apply Matches_Times_Class in H1; destruct H1 as [L1 A1] end.
    match goal with H2 : Matches (Times _ (Opt _)) _ |- _ =>
      apply Matches_Times_Opt_Class in H2; destruct H2 as [L2 A2] end.
    rewrite List.length_app, forallb_app, A1, A2. split; [lia | reflexivity].
  - intros [Hl Ha].
    rewrite <- (firstn_skipn lo l) in Ha |- *.
    rewrite forallb_app in Ha. apply andb_prop in Ha. destruct Ha as [Aa Ab].
    constructor.
    + apply Matches_Times_Class. split; [|exact Aa].
      rewrite List.length_firstn. lia.
    + apply Matches_Times_Opt_Class. split; [|exact Ab].
      rewrite List.length_skipn. lia.
Qed.

End RegexFacts.

(** ** [split] and [join] *)

Lemma split_nonempty sep s : split sep s <> [].
Proof.
  induction s as [|c s IH]; cbn; [discriminate|].
  destruct (Ascii.eqb c sep); [discriminate|].
  now destruct (split sep s).
Qed.

(** Splitting at the separator that joins two strings splits both. *)
Lemma split_app sep a b :
  split sep (a +:+ String sep b) = split sep a ++ split sep b.
Proof.
  induction a as [|c a IH]; sapp; cbn.
  - now rewrite Ascii.eqb_refl.
  - destruct (Ascii.eqb c sep); [now rewrite IH|].
    rewrite IH. pose proof (split_nonempty sep a) as N.
    now destruct (split sep a).
Qed.

Lemma split_without sep s :
  allChars (fun c => negb (Ascii.eqb c sep)) s = true -> split sep s = [s].
Proof.
  induction s as [|c s IH]; [reflexivity|]. cbn. intros H.
  apply andb_prop in H. destruct H as [Hc Hs].
  apply negb_true_iff in Hc. now rewrite Hc, IH.
Qed.

(** [join] then [split] gives the parts back, when there is at least one
    and none contains the separator. *)
Lemma split_join sep parts :
  parts <> [] ->
  Forall (fun p => allChars (fun c => negb (Ascii.eqb c sep)) p = true) parts ->
  split sep (join sep parts) = parts.
Proof.
  induction parts as [|p rest IH]; [congruence|]. intros _ H.
  inversion H as [|? ? Hp Hrest]; subst.
  destruct rest as [|q rest]; [now apply split_without|].
  change (join sep (p :: q :: rest)) with (p +:+ String sep (join sep (q :: rest))).
  rewrite split_app, split_without by assumption.
  cbn [app]. f_equal. now apply IH.
Qed.

Lemma allChars_weaken (p q : ascii -> bool) s :
  (forall c, p c = true -> q c = true) ->
  allChars p s = true -> allChars q s = true.
Proof.
  intros Hpq. induction s as [|c s IH]; [reflexivity|]. cbn. intros H.
  apply andb_prop in H. destruct H as [Hc Hs]. now rewrite (Hpq c Hc), IH.
Qed.

Lemma isDigit_not_comma c : isDigit c = true -> negb (Ascii.eqb c ",") = true.
Proof. destruct c as [[] [] [] [] [] [] [] []]; vm_compute; congruence. Qed.

Lemma isDigit_begins c : isDigit c = true -> isContinuation c = false.
Proof. destruct c as [[] [] [] [] [] [] [] []]; vm_compute; congruence. Qed.

(** ** Digits *)

(** A text of digits has one character for each. *)
Lemma chars_digits s :
  allChars isDigit s = true ->
  chars s = List.map (fun c => String c "") (list_ascii_of_string s).
Proof.
  induction s as [|c s IH]; [reflexivity|]. cbn [allChars]. intros H.
  apply andb_prop in H. destruct H as [Hc Hs].
  rewrite chars_cons, (IH Hs). destruct s as [|d s]; [reflexivity|].
  cbn [list_ascii_of_string List.map continues].
  cbn in Hs. apply andb_prop in Hs. destruct Hs as [Hd _].
  now rewrite (isDigit_begins d Hd).
Qed.

Lemma digits_chars s :
  forallb isDigitChar (chars s) = true <-> allChars isDigit s = true.
Proof.
  split.
  - rewrite <- (unchars_chars s) at 2.
    induction (chars s) as [|t l IH]; [reflexivity|]. cbn [forallb unchars].
    intros H. apply andb_prop in H. destruct H as [Ht Hl].
    rewrite allChars_app, (IH Hl), andb_true_r.
    destruct t as [|c [|d t]]; try discriminate. cbn in *. now rewrite Ht.
  - intros H. rewrite (chars_digits s H).
    induction s as [|c s IH]; [reflexivity|]. cbn [allChars] in H.
    apply andb_prop in H. destruct H as [Hc Hs].
    cbn [list_ascii_of_string List.map forallb isDigitChar].
    now rewrite Hc, IH.
Qed.

Lemma length_chars_digits s :
  allChars isDigit s = true -> length (chars s) = String.length s.
Proof.
  intros H. rewrite (chars_digits s H), List.length_map.
  clear H. induction s as [|c s IH]; [reflexivity|]. cbn. now rewrite IH.
Qed.

Lemma digits_not_space s t :
  allChars isDigit s = true -> In t (chars s) -> isWhiteSpace t = false.
Proof.
  intros H Hin. apply digits_chars in H.
  apply (proj1 (forallb_forall _ _) H) in Hin.
  destruct t as [|c [|d t]]; try discriminate. now apply isDigit_not_space.
Qed.

Lemma trim_digits s : allChars isDigit s = true -> trim s = s.
Proof.
  intros H. apply trim_fixed; intros t Ht; apply (digits_not_space s t H).
  - now apply head_Some_elem_of, list_elem_of_In in Ht.
  - now apply last_Some_elem_of, list_elem_of_In in Ht.
Qed.

(** ** [parseChannelIds] *)

Lemma channelIdPattern_spec id :
  Regex.testWhole channelIdPattern id = true <->
  (17 <= String.length id <= 20)%nat /\ allChars isDigit id = true.
Proof.
  rewrite RegexFacts.testWhole_Matches. unfold channelIdPattern.
  rewrite RegexFacts.Matches_Between_Class by lia.
  rewrite digits_chars. split; intros [Hlen Hdig]; (split; [|exact Hdig]).
  - now rewrite <- length_chars_digits.
  - now rewrite length_chars_digits.
Qed.

(** The two guards at the top of the function change nothing. *)
Lemma parseChannelIds_unguarded csv :
  parseChannelIds (Some csv) =
  List.filter (Regex.testWhole channelIdPattern) (List.map trim (split "," csv)).
Proof.
  unfold parseChannelIds.
  destruct (nonEmpty csv) eqn:E1; cbn [negb orb].
  - destruct (nonEmpty (trim csv)) eqn:E2; cbn [negb]; [reflexivity|].
    unfold nonEmpty in E2. apply negb_false_iff, String.eqb_eq in E2.
    pose proof E2 as Hblank. apply trim_empty_iff in Hblank.
    rewrite (split_without "," csv (blank_without_comma csv Hblank)).
    cbn [List.map]. now rewrite E2.
  - unfold nonEmpty in E1. apply negb_false_iff, String.eqb_eq in E1.
    now subst csv.
Qed.

(** X1. Whatever the text of [UPDATES_CHANNEL_IDS], every id that
    [parseChannelIds] returns is made of 17 to 20 digits and nothing else,
    and is one of the comma-separated parts of the text without the white
    space, of any kind, that stood around it. *)
Theorem parseChannelIds_gives_snowflakes csv id :
  In id (parseChannelIds csv) ->
  (17 <= String.length id <= 20)%nat /\
  allChars isDigit id = true /\
  exists text part before after,
    csv = Some text /\ In part (split "," text) /\ id = trim part /\
    part = before +:+ id +:+ after /\
    blank before = true /\ blank after = true.
Proof.
  destruct csv as [text|]; [|intros []].
  rewrite parseChannelIds_unguarded. intros H.
  apply filter_In in H. destruct H as [Hin Hok].
  apply channelIdPattern_spec in Hok. destruct Hok as [Hlen Hdig].
  apply in_map_iff in Hin. destruct Hin as (part & <- & Hpart).
  split; [exact Hlen|]. split; [exact Hdig|].
  destruct (trim_spec part) as (before & after & E & Hb & Ha & _).
  now exists text, part, before, after.
Qed.

(** An id between two no-break spaces, after an entry that is no id. *)
Lemma parseChannelIds_gives_snowflakes_witness :
  (17 <= String.length "123456789012345678" <= 20)%nat /\
  allChars isDigit "123456789012345678" = true /\
  parseChannelIds
    (Some ("x," +:+ encode 0xA0 +:+ "123456789012345678" +:+ encode 0xA0 +:+ " ,12"))
  = ["123456789012345678"].
Proof.
  assert (Hin : In "123456789012345678"
                  (parseChannelIds
                     (Some ("x," +:+ encode 0xA0 +:+ "123456789012345678"
                              +:+ encode 0xA0 +:+ " ,12"))))
    by (vm_compute; left; reflexivity).
  pose proof (parseChannelIds_gives_snowflakes _ _ Hin) as H.
  split; [exact (proj1 H)|]. split; [exact (proj1 (proj2 H))|].
  vm_compute. reflexivity.
Defined.

(** X2. Parsing two lists joined by a comma gives the ids of the first
    followed by the ids of the second: entries are judged one by one,
    whatever stands around them. *)
Theorem parseChannelIds_concat a b :
  parseChannelIds (Some (a +:+ String "," b)) =
  parseChannelIds (Some a) ++ parseChannelIds (Some b).
Proof.
  rewrite !parseChannelIds_unguarded, split_app, map_app.
  apply List.filter_app.
Qed.

(** X3. A list of well-formed ids written out with commas parses back to
    itself. *)
Theorem parseChannelIds_join ids :
  Forall (fun id => (17 <= String.length id <= 20)%nat /\
                    allChars isDigit id = true) ids ->
  parseChannelIds (Some (join "," ids)) = ids.
Proof.
  intros H. destruct ids as [|id0 rest]; [reflexivity|].
  rewrite parseChannelIds_unguarded, split_join.
  - induction H as [|id ids [Hlen Hdig] Hrest IH]; [reflexivity|]. cbn.
    rewrite (trim_digits id) by assumption.
    rewrite (proj2 (channelIdPattern_spec id)) by now split.
    now rewrite IH.
  - discriminate.
  - eapply List.Forall_impl; [|exact H]. cbn. intros id [_ Hdig].
    apply (allChars_weaken isDigit); [apply isDigit_not_comma | assumption].
Qed.

Lemma parseChannelIds_join_witness :
  parseChannelIds
    (Some (join "," ["123456789012345678"; "98765432109876543210"]))
  = ["123456789012345678"; "98765432109876543210"].
Proof.
  apply parseChannelIds_join.
  repeat constructor; cbn; lia.
Defined.

(** ** [resolveStatus] and [resolveActivityType] *)



(** ** [looksLikeUrl] *)

Lemma urlPattern_Matches m :
  Regex.Matches urlPattern m <->
  exists scheme host tail,
    m = chars scheme ++ host ++ ["."] ++ tail /\
    (scheme = "http://" \/ scheme = "https://") /\
    host <> [] /\ forallb isNonSpace host = true /\
    tail <> [] /\ forallb isNonSpace tail = true.
Proof.
  unfold urlPattern, Regex.Str. split.
  - intros H.
    inversion H as [| |? ? h r1 Hh H1| | | |]; subst; clear H.
    inversion H1 as [| |? ? o r2 Ho H2| | | |]; subst; clear H1.
    inversion H2 as [| |? ? c r3 Hc H3| | | |]; subst; clear H2.
    inversion H3 as [| |? ? host r4 Hhost H4| | | |]; subst; clear H3.
    inversion H4 as [| |? ? d tail Hd Htail| | | |]; subst; clear H4.
    apply (RegexFacts.Matches_Lits (chars "http")) in Hh.
    apply (RegexFacts.Matches_Lits (chars "://")) in Hc. subst h c.
    apply (RegexFacts.Matches_Plus_Class isNonSpace) in Hhost, Htail.
    apply RegexFacts.Matches_Class in Hd. destruct Hd as (x & -> & Hx).
    apply String.eqb_eq in Hx. subst x.
    destruct Hhost as [Hh1 Hh2]. destruct Htail as [Ht1 Ht2].
    inversion Ho as [| | |? ? ? Hs|? ? ? He| |]; subst; clear Ho.
    + apply RegexFacts.Matches_Class in Hs. destruct Hs as (x & -> & Hx).
      apply String.eqb_eq in Hx. subst x.
      exists "https://", host, tail. repeat split; auto.
    + inversion He; subst.
      exists "http://", host, tail. repeat split; auto.
  - intros (scheme & host & tail & -> & Hscheme & Hh1 & Hh2 & Ht1 & Ht2).
    assert (Hrest : Regex.Matches
              (Regex.Seq (Regex.Lits (chars "://"))
                 (Regex.Seq (Regex.Plus (Regex.Class isNonSpace))
                    (Regex.Seq (Regex.Lit ".")
                       (Regex.Plus (Regex.Class isNonSpace)))))
              (chars "://" ++ host ++ ["."] ++ tail)).
    { constructor; [now apply RegexFacts.Matches_Lits|].
      constructor; [now apply RegexFacts.Matches_Plus_Class|].
      constructor; [|now apply RegexFacts.Matches_Plus_Class].
      constructor. apply String.eqb_refl. }
    destruct Hscheme as [-> | ->].
    + change (chars "http://" ++ host ++ ["."] ++ tail)
        with (chars "http" ++ [] ++ chars "://" ++ host ++ ["."] ++ tail).
      constructor; [now apply RegexFacts.Matches_Lits|].
      constructor; [apply Regex.MAltR; constructor | exact Hrest].
    + change (chars "https://" ++ host ++ ["."] ++ tail)
        with (chars "http" ++ ["s"] ++ chars "://" ++ host ++ ["."] ++ tail).
      constructor; [now apply RegexFacts.Matches_Lits|].
      constructor; [|exact Hrest].
      apply Regex.MAltL. constructor. apply String.eqb_refl.
Qed.

(** X6. [looksLikeUrl] accepts exactly the strings that, once trimmed,
    begin with [http://] or [https://], then one or more characters that
    are not white space, a dot, and at least one more character that is
    not white space; what follows is not looked at. White space is what
    JavaScript takes for it: a no-break space ends a host as a space
    does. *)
Theorem looksLikeUrl_accepts_exactly s :
  (looksLikeUrl s = true <->
   exists scheme host tail rest,
     chars (trim s) = chars scheme ++ host ++ ["."] ++ tail ++ rest /\
     (scheme = "http://" \/ scheme = "https://") /\
     host <> [] /\ forallb isNonSpace host = true /\
     tail <> [] /\ forallb isNonSpace tail = true) /\
  looksLikeUrl "https://cdn.example.com/a.png" = true /\
  looksLikeUrl (encode 0xA0 +:+ "http://a.b" +:+ encode 0x2003) = true /\
  looksLikeUrl ("https://a" +:+ encode 0xA0 +:+ ".b") = false /\
  looksLikeUrl "https://localhost" = false /\
  looksLikeUrl "ftp://a.b" = false.
Proof.
  split; [|vm_compute; repeat split; reflexivity].
  unfold looksLikeUrl. split.
  - destruct (nonEmpty s); cbn [negb]; [|discriminate]. intros H.
    apply RegexFacts.testPrefix_Matches in H.
    destruct H as (m & rest & E & H).
    apply urlPattern_Matches in H.
    destruct H as (scheme & host & tail & -> & Hs & Hrest).
    exists scheme, host, tail, rest. split; [|now split].
    rewrite E, <- !app_assoc. reflexivity.
  - intros (scheme & host & tail & rest & E & Hs & Hrest).
    assert (Hne : nonEmpty s = true).
    { destruct s; [|reflexivity]. cbn in E.
      destruct Hs as [-> | ->]; discriminate. }
    rewrite Hne. cbn [negb]. apply RegexFacts.testPrefix_Matches.
    exists (chars scheme ++ host ++ ["."] ++ tail), rest.
    split; [rewrite E, <- !app_assoc; reflexivity|].
    apply urlPattern_Matches. exists scheme, host, tail. now split.
Qed.

(** X7. [looksLikeUrl] gives the same answer for a string and for the
    string trimmed, and refuses every string made of white space only. *)
Theorem looksLikeUrl_ignores_outer_space s :
  looksLikeUrl (trim s) = looksLikeUrl s /\
  (blank s = true -> looksLikeUrl s = false).
Proof.
  assert (Hblank : trim s = "" -> looksLikeUrl s = false).
  { intros E. unfold looksLikeUrl. rewrite E. now destruct (nonEmpty s). }
  split.
  - destruct (String.eqb (trim s) "") eqn:E.
    + apply String.eqb_eq in E. rewrite (Hblank E), E. reflexivity.
    + unfold looksLikeUrl. rewrite trim_idempotent.
      unfold nonEmpty at 1. rewrite E. cbn [negb].
      destruct s; [discriminate E | reflexivity].
  - intros H. apply Hblank. now apply trim_empty_iff.
Qed.

(** Spaces, a tab, a no-break space and an ideographic space. *)
Lemma looksLikeUrl_ignores_outer_space_witness :
  looksLikeUrl ("  " +:+ encode 0x09 +:+ encode 0xA0 +:+ encode 0x3000) = false.
Proof.
  exact (proj2 (looksLikeUrl_ignores_outer_space
                  ("  " +:+ encode 0x09 +:+ encode 0xA0 +:+ encode 0x3000))
               ltac:(vm_compute; reflexivity)).
Defined.

(** ** Modal submissions *)

Lemma unescapeNewlines_head c s :
  exists t, unescapeNewlines (String c s) = String c t \/
            unescapeNewlines (String c s) = String lineFeed t.
Proof.
  cbn. destruct s as [|d s]; [now exists ""; left|].
  destruct (Ascii.eqb c backslash && Ascii.eqb d "n");
    eexists; [right | left]; reflexivity.
Qed.

Lemma hasEscapedNewline_cons c d t :
  hasEscapedNewline (String c (String d t)) =
  (Ascii.eqb c backslash && Ascii.eqb d "n") || hasEscapedNewline (String d t).
Proof. reflexivity. Qed.

Lemma unescapeNewlines_cons c d rest :
  unescapeNewlines (String c (String d rest)) =
  if Ascii.eqb c backslash && Ascii.eqb d "n"
  then String lineFeed (unescapeNewlines rest)
  else String c (unescapeNewlines (String d rest)).
Proof. reflexivity. Qed.

Lemma unescapeNewlines_clean_upto n :
  forall s, (String.length s <= n)%nat ->
            hasEscapedNewline (unescapeNewlines s) = false.
Proof.
  induction n as [|n IH]; intros s Hlen.
  - destruct s; [reflexivity | cbn in Hlen; lia].
  - destruct s as [|c [|d rest]]; [reflexivity | reflexivity|].
    cbn in Hlen. rewrite unescapeNewlines_cons.
    destruct (Ascii.eqb c backslash && Ascii.eqb d "n") eqn:E.
    + pose proof (IH rest ltac:(lia)) as Hrest.
      destruct (unescapeNewlines rest) as [|x t]; [reflexivity|].
      rewrite hasEscapedNewline_cons, Hrest. reflexivity.
    + pose proof (IH (String d rest) ltac:(cbn; lia)) as Hrest.
      destruct (unescapeNewlines_head d rest) as (t & [Ht|Ht]);
        rewrite Ht in *; rewrite hasEscapedNewline_cons, Hrest, orb_false_r.
      * exact E.
      * apply andb_false_iff. now right.
Qed.

Lemma unescapeNewlines_length_upto n :
  forall s, (String.length s <= n)%nat ->
            (String.length (unescapeNewlines s) <= String.length s)%nat.
Proof.
  induction n as [|n IH]; intros s Hlen.
  - destruct s; [cbn; lia | cbn in Hlen; lia].
  - destruct s as [|c [|d rest]]; [cbn; lia | cbn; lia|].
    cbn in Hlen. rewrite unescapeNewlines_cons.
    destruct (Ascii.eqb c backslash && Ascii.eqb d "n").
    + pose proof (IH rest ltac:(lia)). cbn [String.length]. lia.
    + pose proof (IH (String d rest) ltac:(cbn; lia)) as H.
      cbn [String.length] in *. lia.
Qed.

Lemma unescapeNewlines_fixed s :
  hasEscapedNewline s = false -> unescapeNewlines s = s.
Proof.
  induction s as [|c s IH]; [reflexivity|].
  destruct s as [|d rest]; [reflexivity|].
  rewrite hasEscapedNewline_cons, unescapeNewlines_cons. intros H.
  apply orb_false_iff in H. destruct H as [E Hrest].
  rewrite E. f_equal. now apply IH.
Qed.

(** X8. Turning the written [\n] of a description into line feeds leaves
    no backslash followed by [n] in the text, never makes the text longer,
    and changes nothing in a text that has none. *)
Theorem unescapeNewlines_leaves_none s :
  hasEscapedNewline (unescapeNewlines s) = false /\
  (String.length (unescapeNewlines s) <= String.length s)%nat /\
  (hasEscapedNewline s = false -> unescapeNewlines s = s) /\
  unescapeNewlines (unescapeNewlines s) = unescapeNewlines s.
Proof.
  assert (H : hasEscapedNewline (unescapeNewlines s) = false)
    by (apply (unescapeNewlines_clean_upto (String.length s)); lia).
  split; [exact H|]. split.
  - apply (unescapeNewlines_length_upto (String.length s)). lia.
  - split; [apply unescapeNewlines_fixed | now apply unescapeNewlines_fixed].
Qed.

Lemma unescapeNewlines_leaves_none_witness :
  unescapeNewlines "line one, line two" = "line one, line two".
Proof.
  exact (proj1 (proj2 (proj2 (unescapeNewlines_leaves_none "line one, line two")))
               eq_refl).
Defined.

Lemma chunkLoop_spec {A} (embeds : list A) (size : nat) :
  (1 <= size)%nat ->
  forall fuel i,
    (length embeds - i <= fuel)%nat ->
    concat (chunkLoop fuel i size embeds) = skipn i embeds /\
    Forall (fun chunk => (1 <= length chunk <= size)%nat)
           (chunkLoop fuel i size embeds).
Proof.
  intros Hsize. induction fuel as [|fuel IH]; intros i Hfuel; cbn [chunkLoop].
  - split; [|constructor]. symmetry. apply skipn_all2. lia.
  - destruct (i <? length embeds)%nat eqn:E.
    + apply Nat.ltb_lt in E.
      destruct (IH (i + size)%nat ltac:(lia)) as [Hcat Hall].
      unfold slice. replace (i + size - i)%nat with size by lia. split.
      * cbn [concat]. rewrite Hcat.
        replace (i + size)%nat with (size + i)%nat by lia.
        rewrite <- List.skipn_skipn. apply firstn_skipn.
      * constructor; [|exact Hall].
        rewrite List.length_firstn, List.length_skipn. lia.
    + apply Nat.ltb_ge in E. split; [|constructor].
      symmetry. apply skipn_all2. lia.
Qed.

Lemma chunkLoop_done {A} (embeds : list A) fuel i size :
  (length embeds <= i)%nat -> chunkLoop fuel i size embeds = [].
Proof.
  intros H. destruct fuel as [|fuel]; [reflexivity|]. cbn [chunkLoop].
  replace (i <? length embeds)%nat with false; [reflexivity|].
  symmetry. apply Nat.ltb_ge. exact H.
Qed.

Lemma sendChunks_single {A} (embeds : list A) :
  (length embeds <= 10)%nat -> embeds <> [] -> sendChunks embeds = [embeds].
Proof.
  unfold sendChunks.
  intros Hlen Hne. destruct embeds as [|e rest]; [congruence|].
  cbn [length chunkLoop].
  replace (0 <? S (length rest))%nat with true by reflexivity.
  unfold slice. cbn [Nat.add Nat.sub skipn].
  rewrite firstn_all2 by exact Hlen. f_equal.
  apply chunkLoop_done. exact Hlen.
Qed.

(** X9. The loop that posts the embeds of a submission sends every embed
    exactly once and in order, in messages of one to ten embeds. *)
Theorem sendChunks_partitions {A} (embeds : list A) :
  concat (sendChunks embeds) = embeds /\
  Forall (fun chunk => (1 <= length chunk <= 10)%nat) (sendChunks embeds) /\
  ((length embeds <= 10)%nat -> embeds <> [] -> sendChunks embeds = [embeds]).
Proof.
  unfold sendChunks.
  destruct (chunkLoop_spec embeds 10 ltac:(lia) (length embeds) 0%nat ltac:(lia))
    as [Hcat Hall].
  split; [exact Hcat|]. split; [exact Hall|].
  fold (sendChunks embeds). apply sendChunks_single.
Qed.

Lemma sendChunks_partitions_witness :
  sendChunks [1; 2; 3; 4]%nat = [[1; 2; 3; 4]%nat].
Proof.
  apply (proj2 (proj2 (sendChunks_partitions [1; 2; 3; 4]%nat))).
  - cbn. lia.
  - discriminate.
Defined.

Lemma imageField_spec fields name img :
  In img (imageField fields name) ->
  exists raw, fields name = Some raw /\ img = trim raw /\
              nonEmpty img = true /\ looksLikeUrl img = true.
Proof.
  unfold imageField. destruct (fields name) as [raw|]; [|intros []].
  cbn zeta.
  destruct (nonEmpty (trim raw)) eqn:E1; cbn [andb]; [|intros []].
  destruct (looksLikeUrl (trim raw)) eqn:E2; [|intros []].
  intros [<-|[]]. now exists raw.
Qed.

Lemma imageField_length fields name : (length (imageField fields name) <= 1)%nat.
Proof.
  unfold imageField. destruct (fields name) as [raw|]; [|cbn; lia].
  cbn zeta. destruct (nonEmpty (trim raw) && looksLikeUrl (trim raw)); cbn; lia.
Qed.

Lemma flat_map_length_le {A B} (f : A -> list B) (l : list A) :
  (forall a, (length (f a) <= 1)%nat) ->
  (length (flat_map f l) <= length l)%nat.
Proof.
  intros Hf. induction l as [|a l IH]; [cbn; lia|].
  cbn [flat_map]. rewrite List.length_app. pose proof (Hf a). cbn [length]. lia.
Qed.

Lemma collectImages_length fields prefix count :
  (length (collectImages fields prefix count) <= count)%nat.
Proof.
  unfold collectImages.
  pose proof (flat_map_length_le
                (fun i => imageField fields (prefix +:+ decimal i))
                (seq 1 count)
                (fun i => imageField_length fields _)) as H.
  now rewrite List.length_seq in H.
Qed.

Lemma collectImages_clean fields prefix count :
  Forall (fun img => nonEmpty img = true /\ trim img = img)
         (collectImages fields prefix count).
Proof.
  apply List.Forall_forall. intros img Hin.
  unfold collectImages in Hin. apply in_flat_map in Hin.
  destruct Hin as (i & _ & Himg). apply imageField_spec in Himg.
  destruct Himg as (raw & _ & -> & Hne & _).
  split; [exact Hne | apply trim_idempotent].
Qed.

Lemma StronglySorted_seq start len : StronglySorted lt (seq start len).
Proof.
  revert start. induction len as [|len IH]; intros start; [constructor|].
  cbn [seq]. constructor; [apply IH|].
  apply List.Forall_forall. intros i Hi. apply in_seq in Hi. lia.
Qed.

Lemma StronglySorted_filter {A} (R : A -> A -> Prop) (f : A -> bool) l :
  StronglySorted R l -> StronglySorted R (List.filter f l).
Proof.
  induction 1 as [|a l Hl IH Ha]; [constructor|]. cbn [List.filter].
  destruct (f a); [|exact IH]. constructor; [exact IH|].
  apply List.Forall_forall. intros x Hx. apply filter_In in Hx.
  now apply (proj1 (List.Forall_forall _ _) Ha).
Qed.

(** Whether the loop keeps the field [name]. *)
Lemma imageField_cases fields name :
  (exists raw, fields name = Some raw /\ trim raw <> "" /\
               looksLikeUrl (trim raw) = true /\
               imageField fields name = [trim raw]) \/
  (imageField fields name = [] /\
   forall raw, fields name = Some raw ->
               ~ (trim raw <> "" /\ looksLikeUrl (trim raw) = true)).
Proof.
  unfold imageField. destruct (fields name) as [raw|]; [|right; now split].
  cbn zeta. unfold nonEmpty.
  destruct (String.eqb (trim raw) "") eqn:E1; cbn [negb andb].
  - right. split; [reflexivity|]. intros r [= <-] [H _].
    apply String.eqb_eq in E1. contradiction.
  - destruct (looksLikeUrl (trim raw)) eqn:E2.
    + left. exists raw. apply String.eqb_neq in E1. now repeat split.
    + right. split; [reflexivity|]. intros r [= <-] [_ H]. congruence.
Qed.

Lemma collectImages_picks fields prefix (indices : list nat) :
  exists picked,
    picked = List.filter
               (fun i => match imageField fields (prefix +:+ decimal i) with
                         | [] => false
                         | _ => true
                         end) indices /\
    (forall i, In i picked <->
       In i indices /\
       exists raw, fields (prefix +:+ decimal i) = Some raw /\
                   trim raw <> "" /\ looksLikeUrl (trim raw) = true) /\
    Forall2 (fun i img =>
               exists raw, fields (prefix +:+ decimal i) = Some raw /\
                           img = trim raw)
            picked
            (flat_map (fun i => imageField fields (prefix +:+ decimal i)) indices).
Proof.
  eexists. split; [reflexivity|]. split.
  - intros i. rewrite filter_In. split.
    + intros [Hin Hk]. split; [exact Hin|].
      destruct (imageField_cases fields (prefix +:+ decimal i))
        as [(raw & Hraw & Hne & Hurl & _) | [E _]].
      * now exists raw.
      * rewrite E in Hk. discriminate.
    + intros [Hin (raw & Hraw & Hne & Hurl)]. split; [exact Hin|].
      destruct (imageField_cases fields (prefix +:+ decimal i))
        as [(raw' & _ & _ & _ & E) | [_ Hno]].
      * now rewrite E.
      * exfalso. now apply (Hno raw Hraw).
  - induction indices as [|i rest IH]; [constructor|].
    cbn [List.filter flat_map].
    destruct (imageField_cases fields (prefix +:+ decimal i))
      as [(raw & Hraw & _ & _ & E) | [E _]]; rewrite E; cbn [app].
    + constructor; [now exists raw | exact IH].
    + exact IH.
Qed.

(** X10. The images a submission carries are gathered from the numbered
    image fields in order, one for every field that is kept and none for
    the others: the fields kept are those whose text, once trimmed, is not
    empty and passes [looksLikeUrl], in increasing order of their number,
    and the images are their trimmed texts in that order. So there are at
    most as many images as fields, each is trimmed, is not empty and passes
    [looksLikeUrl], and a field the modal does not have is skipped. *)
Theorem collectImages_spec fields prefix count :
  (exists picked,
      StronglySorted lt picked /\
      (forall i, In i picked <->
         (1 <= i <= count)%nat /\
         exists raw, fields (prefix +:+ decimal i) = Some raw /\
                     trim raw <> "" /\ looksLikeUrl (trim raw) = true) /\
      Forall2 (fun i img =>
                 exists raw, fields (prefix +:+ decimal i) = Some raw /\
                             img = trim raw)
              picked (collectImages fields prefix count)) /\
  (length (collectImages fields prefix count) <= count)%nat /\
  (forall img,
      In img (collectImages fields prefix count) ->
      looksLikeUrl img = true /\ img <> "" /\ trim img = img) /\
  ((forall i, fields (prefix +:+ decimal i) = None) ->
   collectImages fields prefix count = []).
Proof.
  split; [|split; [|split]].
  - destruct (collectImages_picks fields prefix (seq 1 count))
      as (picked & -> & Hin & Hall).
    eexists. split; [apply StronglySorted_filter, StronglySorted_seq|].
    split; [|exact Hall].
    intros i. rewrite Hin, in_seq. split; intros [H1 H2]; (split; [lia|exact H2]).
  - apply collectImages_length.
  - unfold collectImages. intros img Hin. apply in_flat_map in Hin.
    destruct Hin as (i & Hi & Himg).
    apply imageField_spec in Himg.
    destruct Himg as (raw & Hraw & -> & Hne & Hurl).
    split; [exact Hurl|]. split; [|apply trim_idempotent].
    intros E. rewrite E in Hne. discriminate.
  - unfold collectImages.
    intros Hnone. induction (seq 1 count) as [|i l IH]; [reflexivity|].
    cbn [flat_map]. unfold imageField at 1. now rewrite Hnone.
Qed.

Example sample_collectImages :
  collectImages
    (fun name =>
       if String.eqb name "embed_image_1" then Some " https://a.example/x.png "
       else if String.eqb name "embed_image_2" then Some "not a link"
       else if String.eqb name "embed_image_3" then Some "http://b.example/y.jpg"
       else None)
    "embed_image_" MAX_IMAGES
  = ["https://a.example/x.png"; "http://b.example/y.jpg"].
Proof. vm_compute. reflexivity. Qed.

Lemma stripPrefix_app p s : stripPrefix p (p +:+ s) = Some s.
Proof.
  induction p as [|c p IH]; sapp; cbn; [now destruct s|].
  now rewrite Ascii.eqb_refl.
Qed.

Lemma startsWith_app p s : startsWith (p +:+ s) p = true.
Proof. unfold startsWith. now rewrite stripPrefix_app. Qed.

(** X11. A modal comes back to the handler of the command that opened it,
    with the ids that command wrote into its custom id, provided the ids
    contain no colon (Discord ids are digits). *)
Theorem routeModal_round_trip channelId messageId :
  allChars (fun c => negb (Ascii.eqb c ":")) channelId = true ->
  allChars (fun c => negb (Ascii.eqb c ":")) messageId = true ->
  routeModal (editembedModalId channelId messageId)
    = EditEmbedModal (Some channelId) (Some messageId) /\
  routeModal (embedModalId channelId) = EmbedModal (Some channelId) /\
  routeModal (embedSimpleModalId channelId) = EmbedSimpleModal (Some channelId).
Proof.
  intros Hc Hm. unfold routeModal. split; [|split].
  - unfold editembedModalId. rewrite startsWith_app.
    change ("editembedModal:" +:+ channelId +:+ ":" +:+ messageId)
      with ("editembedModal" +:+ String ":" (channelId +:+ String ":" messageId)).
    rewrite !split_app, (split_without ":" channelId Hc),
      (split_without ":" messageId Hm).
    reflexivity.
  - unfold embedModalId.
    replace (startsWith ("embedModal:" +:+ channelId) "editembedModal:")
      with false by reflexivity.
    rewrite startsWith_app.
    change ("embedModal:" +:+ channelId)
      with ("embedModal" +:+ String ":" channelId).
    rewrite split_app, (split_without ":" channelId Hc). reflexivity.
  - unfold embedSimpleModalId.
    replace (startsWith ("embedSimpleModal:" +:+ channelId) "editembedModal:")
      with false by reflexivity.
    replace (startsWith ("embedSimpleModal:" +:+ channelId) "embedModal:")
      with false by reflexivity.
    rewrite startsWith_app.
    change ("embedSimpleModal:" +:+ channelId)
      with ("embedSimpleModal" +:+ String ":" channelId).
    rewrite split_app, (split_without ":" channelId Hc). reflexivity.
Qed.

Lemma routeModal_round_trip_witness :
  routeModal (editembedModalId "123456789012345678" "998877665544332211")
  = EditEmbedModal (Some "123456789012345678") (Some "998877665544332211").
Proof.
  exact (proj1 (routeModal_round_trip "123456789012345678" "998877665544332211"
                  eq_refl eq_refl)).
Defined.

(** ** The moderation commands *)

Lemma reasonOrDefault_nonEmpty reason : nonEmpty (reasonOrDefault reason) = true.
Proof.
  unfold reasonOrDefault. destruct reason as [r|]; [|reflexivity].
  now destruct (nonEmpty r) eqn:E.
Qed.

(** X12. [/timeout] times a member out only for an administrator, only
    for a member found in the guild, and only for one minute to 28 days:
    the duration handed to [member.timeout] is the minutes times 60000, from
    60000 to 2419200000 milliseconds, and a reason is always given. *)
Theorem timeoutCommand_bounds isAdmin g userId userTag minutes reason call :
  In call (snd (timeoutCommand isAdmin g userId userTag minutes reason)) ->
  isAdmin = true /\
  1 <= minutes <= 40320 /\
  call = MemberTimeout userId (Some (minutes * 60000))
                       (Some (reasonOrDefault reason)) /\
  60000 <= minutes * 60000 <= 2419200000 /\
  nonEmpty (reasonOrDefault reason) = true /\
  exists guild, g = Some guild /\ mod_members_fetch guild userId = true.
Proof.
  unfold timeoutCommand.
  destruct isAdmin; cbn [negb]; [|intros []].
  destruct ((minutes <? 1) || (minutes >? 40320)) eqn:R; [intros []|].
  apply orb_false_iff in R. destruct R as [R1 R2].
  apply Z.ltb_ge in R1. rewrite Z.gtb_ltb in R2. apply Z.ltb_ge in R2.
  destruct g as [guild|]; [|intros []].
  destruct (mod_members_fetch guild userId) eqn:F; cbn [negb]; [|intros []].
  intros Hin.
  assert (Hcall : call = MemberTimeout userId (Some (minutes * 60 * 1000))
                                       (Some (reasonOrDefault reason))).
  { destruct (timeout_rejects guild); destruct Hin as [<-|[]]; reflexivity. }
  replace (minutes * 60 * 1000) with (minutes * 60000) in Hcall by lia.
  repeat split; try lia; try assumption.
  - apply reasonOrDefault_nonEmpty.
  - now exists guild.
Qed.

Lemma timeoutCommand_bounds_witness :
  60000 <= 40320 * 60000 <= 2419200000.
Proof.
  exact (proj1 (proj2 (proj2 (proj2
    (timeoutCommand_bounds true
       (Some {| mod_members_fetch := fun _ => true; timeout_rejects := false;
                bans_create_rejects := false; bans_remove_rejects := false |})
       "42" "someone#0001" 40320 None
       (MemberTimeout "42" (Some (40320 * 60 * 1000)) (Some "No reason provided"))
       (or_introl eq_refl)))))).
Defined.

(** X13. [/ban] bans only for an administrator, with a number of days of
    history to delete from 0 to 7 (0 when the option is left out) and a
    reason that is never empty. *)
Theorem banCommand_bounds isAdmin g userId userTag reason delete_days call :
  In call (snd (banCommand isAdmin g userId userTag reason delete_days)) ->
  isAdmin = true /\
  exists days,
    call = BansCreate userId days (reasonOrDefault reason) /\
    0 <= days <= 7 /\
    days = match delete_days with Some d => d | None => 0 end /\
    nonEmpty (reasonOrDefault reason) = true.
Proof.
  unfold banCommand.
  destruct isAdmin; cbn [negb]; [|intros []].
  set (days := match delete_days with Some d => d | None => 0 end).
  destruct ((days <? 0) || (days >? 7)) eqn:R; [intros []|].
  apply orb_false_iff in R. destruct R as [R1 R2].
  apply Z.ltb_ge in R1. rewrite Z.gtb_ltb in R2. apply Z.ltb_ge in R2.
  destruct g as [guild|]; [|intros []].
  intros Hin. split; [reflexivity|]. exists days.
  split; [destruct (bans_create_rejects guild); destruct Hin as [<-|[]]; reflexivity|].
  split; [lia|]. split; [reflexivity | apply reasonOrDefault_nonEmpty].
Qed.

Lemma banCommand_bounds_witness :
  exists days,
    BansCreate "42" 0 "spam" = BansCreate "42" days (reasonOrDefault (Some "spam")) /\
    0 <= days <= 7 /\
    days = 0 /\
    nonEmpty (reasonOrDefault (Some "spam")) = true.
Proof.
  exact (proj2
    (banCommand_bounds true
       (Some {| mod_members_fetch := fun _ => true; timeout_rejects := false;
                bans_create_rejects := false; bans_remove_rejects := false |})
       "42" "someone#0001" (Some "spam") None
       (BansCreate "42" 0 "spam") (or_introl eq_refl))).
Defined.

(** X14. [/purge] touches messages only for an administrator, only in a
    text channel, and only for a count from 1 to 100. The channel is the
    one given with the command if it is a text channel, and the channel of
    the command otherwise, when none is given or the one given is not a
    text channel. There it fetches that many messages at most once, and
    deletes nothing but what the fetch returned, in bulk and, if the bulk
    delete fails, one by one. *)
Theorem purgeCommand_bounds isAdmin count channelOption current call :
  In call (snd (purgeCommand isAdmin count channelOption current)) ->
  isAdmin = true /\ 1 <= count <= 100 /\
  exists target,
    isGuildText target = true /\
    (channelOption = Some target \/
     (current = Some target /\
      (channelOption = None \/
       exists chosen, channelOption = Some chosen /\ isGuildText chosen = false))) /\
    (call = MessagesFetch (channel_id target) count \/
     exists fetched,
       messages_fetch target count = Some fetched /\ fetched <> [] /\
       (call = BulkDelete (channel_id target) fetched \/
        exists message,
          call = MessageDelete message /\ In message fetched /\
          bulkDelete_rejects target = true)).
Proof.
  unfold purgeCommand.
  destruct isAdmin; cbn [negb]; [|intros []].
  set (targetChannel := match channelOption with
                        | Some c => if isGuildText c then Some c else current
                        | None => current
                        end).
  assert (Hsel : forall t, targetChannel = Some t ->
             channelOption = Some t \/
             (current = Some t /\
              (channelOption = None \/
               exists chosen, channelOption = Some chosen /\
                              isGuildText chosen = false))).
  { intros t. unfold targetChannel. destruct channelOption as [c|].
    - destruct (isGuildText c) eqn:Tc; [now left|].
      intros E. right. split; [exact E|]. right. now exists c.
    - intros E. right. split; [exact E | now left]. }
  destruct targetChannel as [target|]; [|intros []].
  specialize (Hsel target eq_refl).
  destruct (isGuildText target) eqn:T; cbn [negb]; [|intros []].
  destruct ((count <? 1) || (count >? 100)) eqn:R; [intros []|].
  apply orb_false_iff in R. destruct R as [R1 R2].
  apply Z.ltb_ge in R1. rewrite Z.gtb_ltb in R2. apply Z.ltb_ge in R2.
  intros Hin. split; [reflexivity|]. split; [lia|].
  exists target. split; [exact T|]. split; [exact Hsel|].
  destruct (messages_fetch target count) as [[|m ms]|] eqn:F.
  - destruct Hin as [<-|[]]. now left.
  - destruct Hin as [<-|[<-|Hin]]; [now left| |].
    + right. exists (m :: ms). split; [reflexivity|]. split; [discriminate|now left].
    + right. exists (m :: ms). split; [reflexivity|]. split; [discriminate|right].
      destruct (bulkDelete_rejects target) eqn:B; [|destruct Hin].
      apply in_map_iff in Hin. destruct Hin as (message & <- & Hmsg).
      now exists message.
  - destruct Hin as [<-|[]]. now left.
Qed.

(** A purge run in [general] for the text channel [logs], where the bulk
    delete fails: the messages of [logs] are deleted one by one, and
    nothing of [general] is touched. *)
Lemma purgeCommand_bounds_witness :
  let logs := {| channel_id := "logs"; isGuildText := true;
                 messages_fetch := fun _ => Some ["m1"; "m2"];
                 bulkDelete_rejects := true |} in
  let general := {| channel_id := "general"; isGuildText := true;
                    messages_fetch := fun _ => Some ["g1"];
                    bulkDelete_rejects := false |} in
  snd (purgeCommand true 2 (Some logs) (Some general))
  = [MessagesFetch "logs" 2; BulkDelete "logs" ["m1"; "m2"];
     MessageDelete "m1"; MessageDelete "m2"] /\
  1 <= 2 <= 100.
Proof.
  intros logs general. split; [reflexivity|].
  exact (proj1 (proj2
    (purgeCommand_bounds true 2 (Some logs) (Some general)
       (MessageDelete "m2")
       (or_intror (or_intror (or_intror (or_introl eq_refl))))))).
Defined.

(** ** More on the verification handler *)

Section Trace.

Variables (e : Env) (invoiceId userId : string).

Lemma grantRole_exact roleId currentStatus w :
  let r := grantRole e invoiceId userId roleId currentStatus w in
  (afterInsert (fst r) = true /\ (forall st r', fst r <> Granted st r') /\
   snd r = w) \/
  ((fst r = Granted currentStatus roleId \/ fst r = GrantFailed) /\
   snd r = {| verifications := verifications w;
              calls := calls w ++ [RolesAdd userId roleId
                                            ("Verified invoice " +:+ invoiceId)] |}).
Proof.
  cbn zeta.
  pose proof (grantRole_cases e invoiceId userId roleId currentStatus w) as H.
  destruct (grantRole e invoiceId userId roleId currentStatus w) as [o w'].
  destruct H as (Hafter & Hrows & [(Ho & Hcalls & _) | (Hno & ->)]).
  - right. split; [exact Ho|]. destruct w'. cbn in *. now subst.
  - left. now split.
Qed.

Lemma assignRoleAndPersist_traced productId currentStatus roleId w :
  nonEmpty roleId = true ->
  Traced e invoiceId userId productId currentStatus w
    (assignRoleAndPersist e invoiceId userId productId currentStatus roleId w).
Proof.
  intros Hrole. unfold assignRoleAndPersist, dbRunInsert. run. cbn [invoice_id].
  fold (rowOf invoiceId userId productId roleId currentStatus).
  set (row := rowOf invoiceId userId productId roleId currentStatus).
  unfold Traced.
  destruct (insert_fails e).
  { right. exists roleId. cbn zeta. split; [exact Hrole|]. left. now split. }
  destruct (existsb (hasInvoice invoiceId) (verifications w ++ concurrent e)).
  { right. exists roleId. cbn zeta. split; [exact Hrole|]. left. now split. }
  match goal with |- context [grantRole ?a ?b ?c ?d ?f ?x] =>
    pose proof (grantRole_exact d f x) as G;
    destruct (grantRole a b c d f x) as [o w'] end.
  cbn [fst snd] in G. right. exists roleId. cbn zeta.
  split; [exact Hrole|]. right.
  destruct G as [(Hafter & Hno & ->) | (Ho & ->)].
  - left. now split.
  - right. now split.
Qed.

Lemma defaultRole_nonEmpty r : defaultRole e = Some r -> nonEmpty r = true.
Proof.
  unfold defaultRole. destruct (VERIFY_ROLE_ID e) as [x|]; [|discriminate].
  destruct (nonEmpty x) eqn:E; [|discriminate]. now intros [= <-].
Qed.

Lemma mappedRole_nonEmpty mapRow r : mappedRole mapRow = Some r -> nonEmpty r = true.
Proof.
  unfold mappedRole. destruct mapRow as [x|]; [|discriminate].
  destruct (nonEmpty x) eqn:E; [|discriminate]. now intros [= <-].
Qed.

Lemma chooseRole_traced productId currentStatus w :
  Traced e invoiceId userId productId currentStatus w
    (chooseRole e invoiceId userId productId currentStatus w).
Proof.
  assert (Hreply : forall o, afterInsert o = false ->
             Traced e invoiceId userId productId currentStatus w (o, w))
    by (intros o Ho; left; now split).
  unfold chooseRole.
  destruct (truthy productId).
  - destruct (role_mappings e productId) as [|mapRow].
    + destruct (defaultRole e) as [r|] eqn:D; [|now apply Hreply].
      apply assignRoleAndPersist_traced. now apply defaultRole_nonEmpty.
    + destruct (mappedRole mapRow) as [r|] eqn:Mp.
      { apply assignRoleAndPersist_traced. now apply mappedRole_nonEmpty in Mp. }
      destruct (defaultRole e) as [r|] eqn:D; [|now apply Hreply].
      apply assignRoleAndPersist_traced. now apply defaultRole_nonEmpty.
  - destruct (defaultRole e) as [r|] eqn:D; [|now apply Hreply].
    apply assignRoleAndPersist_traced. now apply defaultRole_nonEmpty.
Qed.

Lemma eligibleStatus_valid currentStatus st :
  eligibleStatus currentStatus = Some st -> includes validStatuses st = true.
Proof.
  unfold eligibleStatus. destruct currentStatus as [s|]; [|discriminate].
  destruct (nonEmpty s); cbn [andb]; [|discriminate].
  destruct (includes validStatuses s) eqn:E; [|discriminate]. now intros [= <-].
Qed.

Lemma withResponse_traced data w :
  (afterInsert (fst (withResponse e invoiceId userId data w)) = false /\
   snd (withResponse e invoiceId userId data w) = w) \/
  exists productId currentStatus,
    includes validStatuses currentStatus = true /\
    Traced e invoiceId userId productId currentStatus w
      (withResponse e invoiceId userId data w).
Proof.
  unfold withResponse, attempt.
  destruct (responseInvoice data) as [invoice|err];
    [|left; split; [apply apiCatch_afterInsert | reflexivity]].
  destruct (truthy invoice); cbn [negb]; [|left; now split].
  destruct (extractInvoiceStatus invoice) as [extracted|err];
    [|left; split; [apply apiCatch_afterInsert | reflexivity]].
  destruct (eligibleStatus (upperStatus extracted)) as [st|] eqn:El;
    [|left; now split].
  destruct (resolveProductId invoice) as [productId|err];
    [|left; split; [apply apiCatch_afterInsert | reflexivity]].
  right. exists productId, st. split; [now apply eligibleStatus_valid in El|].
  apply chooseRole_traced.
Qed.

Lemma verify_traced w :
  (afterInsert (fst (verify e invoiceId userId w)) = false /\
   (snd (verify e invoiceId userId w) = w \/
    snd (verify e invoiceId userId w) = fetched invoiceId w)) \/
  (nonEmpty invoiceId = true /\
   List.find (hasInvoice invoiceId) (verifications w) = None /\
   exists productId currentStatus,
     includes validStatuses currentStatus = true /\
     Traced e invoiceId userId productId currentStatus (fetched invoiceId w)
       (verify e invoiceId userId w)).
Proof.
  unfold verify.
  destruct (nonEmpty invoiceId); cbn [negb]; [|left; split; [reflexivity|now left]].
  unfold dbGetVerification. run.
  destruct (select_fails e); [left; split; [reflexivity|now left]|].
  destruct (List.find (hasInvoice invoiceId) (verifications w)) eqn:F;
    [left; split; [reflexivity|now left]|].
  unfold axiosGet. run. fold (fetched invoiceId w).
  destruct (axios_get e invoiceId) as [data|response].
  - destruct (withResponse_traced data (fetched invoiceId w)) as [[H1 H2]|H].
    + left. split; [exact H1 | now right].
    + right. split; [reflexivity|]. split; [reflexivity | exact H].
  - left. split; [apply apiCatch_afterInsert | now right].
Qed.

End Trace.


(** A grant that fails: [roles.add] has been called, the row stays. *)
Example sample_grant_failed :
  let g := Sample.guildWith Sample.me 3 in
  let e := Sample.env (Some "role-vip")
             {| members_fetch := members_fetch g; members_me := members_me g;
                roles_cache := roles_cache g; roles_fetch := roles_fetch g;
                roles_add_rejects := true |}
             (Sample.invoiceWith "paid") in
  verify e "2711846" "user-1" Sample.empty
  = (GrantFailed,
     {| verifications := [Sample.usedRow];
        calls := [AxiosGet "2711846";
                  DbRunInsert Sample.usedRow;
                  RolesAdd "user-1" "role-vip" "Verified invoice 2711846"] |}).
Proof. vm_compute. reflexivity. Qed.

(** X16. Whenever the row has been written (every outcome from member not
    found to granted), it is the last row of the table, it carries the
    invoice id and the requester, its status is one of PAID, COMPLETED,
    FULFILLED, SUCCESS, its role id is not empty, and a [Granted] reply
    names exactly that status and that role. *)
Theorem verify_stored_row e invoiceId userId w :
  afterInsert (fst (verify e invoiceId userId w)) = true ->
  exists row,
    verifications (snd (verify e invoiceId userId w))
      = verifications w ++ concurrent e ++ [row] /\
    invoice_id row = invoiceId /\ discord_id row = userId /\
    includes validStatuses (status row) = true /\
    nonEmpty (role_id row) = true /\
    forall st role,
      fst (verify e invoiceId userId w) = Granted st role ->
      st = status row /\ role = role_id row.
Proof.
  intros Hafter.
  destruct (verify_traced e invoiceId userId w)
    as [[Hno _] | (_ & _ & productId & st & Hvalid & H)]; [congruence|].
  destruct (verify e invoiceId userId w) as [o w']. cbn [fst snd] in *.
  destruct H as [[Hno _] | (roleId & Hrole & H)]; [congruence|].
  cbn zeta in H.
  exists (rowOf invoiceId userId productId roleId st).
  cbn [rowOf invoice_id discord_id status role_id].
  destruct H as [[Hno _] | [(_ & Hng & ->) | (Ho & ->)]]; [congruence| |];
    cbn [verifications fetched]; rewrite <- ?app_assoc.
  - do 5 (split; [easy|]). intros st' r' E. now apply Hng in E.
  - do 5 (split; [easy|]).
    destruct Ho as [-> | ->]; [now intros st' r' [= <- <-] | discriminate].
Qed.

Lemma verify_stored_row_witness :
  exists row,
    verifications
      (snd (verify (Sample.env (Some "role-vip") (Sample.guildWith Sample.me 3)
                               (Sample.invoiceWith "paid"))
                   "2711846" "user-1" Sample.empty))
      = [] ++ [] ++ [row] /\
    invoice_id row = "2711846" /\ discord_id row = "user-1" /\
    includes validStatuses (status row) = true /\
    nonEmpty (role_id row) = true /\
    forall st role,
      fst (verify (Sample.env (Some "role-vip") (Sample.guildWith Sample.me 3)
                              (Sample.invoiceWith "paid"))
                  "2711846" "user-1" Sample.empty) = Granted st role ->
      st = status row /\ role = role_id row.
Proof.
  exact (verify_stored_row
           (Sample.env (Some "role-vip") (Sample.guildWith Sample.me 3)
                       (Sample.invoiceWith "paid"))
           "2711846" "user-1" Sample.empty eq_refl).
Defined.

Lemma existsb_hasInvoice_false invoiceId (table : list Verification) :
  existsb (hasInvoice invoiceId) table = false ->
  ~ In invoiceId (List.map invoice_id table).
Proof.
  induction table as [|r rest IH]; cbn; [tauto|].
  intros H. apply orb_false_iff in H. destruct H as [Hr Hrest].
  intros [E|Hin]; [|now apply IH].
  unfold hasInvoice in Hr. rewrite E, String.eqb_refl in Hr. discriminate.
Qed.

(** X17. The handler keeps invoice ids unique: if no two rows of the
    table the INSERT finds share an invoice id, no two rows of the table
    it leaves do. *)
Theorem verify_keeps_invoice_ids_unique e invoiceId userId w :
  List.NoDup (List.map invoice_id (verifications w ++ concurrent e)) ->
  List.NoDup (List.map invoice_id
                (verifications (snd (verify e invoiceId userId w)))).
Proof.
  intros Hnodup.
  pose proof (verify_sound e invoiceId userId w) as H.
  destruct (verify e invoiceId userId w) as [o w']. cbn [snd].
  destruct H as (Hrows & _).
  destruct (afterInsert o).
  - destruct Hrows as (row & Hid & _ & Hfresh & ->).
    rewrite app_assoc, map_app. cbn [List.map].
    apply List.NoDup_app.
    + exact Hnodup.
    + constructor; [intros [] | constructor].
    + intros x Hx [<-|[]]. rewrite Hid in Hx.
      now apply (existsb_hasInvoice_false invoiceId) in Hx.
  - destruct Hrows as [-> | ->]; [|exact Hnodup].
    rewrite map_app in Hnodup. now apply List.NoDup_app_remove_r in Hnodup.
Qed.

Lemma verify_keeps_invoice_ids_unique_witness :
  List.NoDup
    (List.map invoice_id
       (verifications
          (snd (verify (Sample.env (Some "role-vip") (Sample.guildWith Sample.me 3)
                                   (Sample.invoiceWith "paid"))
                       "2711847" "user-2" Sample.used)))).
Proof.
  apply verify_keeps_invoice_ids_unique.
  cbn. repeat constructor. intros [].
Defined.

Lemma verify_inserted_row e invoiceId userId w :
  afterInsert (fst (verify e invoiceId userId w)) = true ->
  exists row,
    verifications (snd (verify e invoiceId userId w))
      = verifications w ++ concurrent e ++ [row] /\
    invoice_id row = invoiceId.
Proof.
  intros Hafter.
  destruct (verify_traced e invoiceId userId w)
    as [[Hno _] | (_ & _ & productId & st & Hvalid & H)]; [congruence|].
  destruct (verify e invoiceId userId w) as [o w']. cbn [fst snd] in *.
  destruct H as [[Hno _] | (roleId & Hrole & H)]; [congruence|].
  cbn zeta in H.
  exists (rowOf invoiceId userId productId roleId st).
  cbn [rowOf invoice_id].
  destruct H as [[Hno _] | [(_ & _ & ->) | (_ & ->)]]; [congruence| |];
    cbn [verifications fetched]; rewrite <- ?app_assoc; now split.
Qed.

(** X18. An invoice id is consumed once: after an attempt that wrote its
    row, whatever happened to the role, every later attempt with the same
    id, by any account and whatever the API or the roles have become, is
    answered [AlreadyUsed] and changes nothing. *)
Theorem verify_consumes_invoice_once e invoiceId userId w e' userId' :
  afterInsert (fst (verify e invoiceId userId w)) = true ->
  select_fails e' = false ->
  verify e' invoiceId userId' (snd (verify e invoiceId userId w))
  = (AlreadyUsed invoiceId, snd (verify e invoiceId userId w)).
Proof.
  intros Hafter Hsel.
  destruct (verify_inserted_row e invoiceId userId w Hafter)
    as (row & Hrows & Hid).
  assert (Hne : nonEmpty invoiceId = true).
  { destruct (verify_traced e invoiceId userId w) as [[Hno _] | (Hne & _)];
      [congruence | exact Hne]. }
  apply (verify_used e' invoiceId userId' _ row Hne Hsel); [|exact Hid].
  rewrite Hrows. apply in_or_app. right. apply in_or_app. right. now left.
Qed.

Lemma verify_consumes_invoice_once_witness :
  verify (Sample.failing None) "2711846" "user-2"
    (snd (verify (Sample.env (Some "role-vip") (Sample.guildWith Sample.me 9)
                             (Sample.invoiceWith "paid"))
                 "2711846" "user-1" Sample.empty))
  = (AlreadyUsed "2711846",
     snd (verify (Sample.env (Some "role-vip") (Sample.guildWith Sample.me 9)
                             (Sample.invoiceWith "paid"))
                 "2711846" "user-1" Sample.empty)).
Proof.
  exact (verify_consumes_invoice_once
           (Sample.env (Some "role-vip") (Sample.guildWith Sample.me 9)
                       (Sample.invoiceWith "paid"))
           "2711846" "user-1" Sample.empty (Sample.failing None) "user-2"
           eq_refl eq_refl).
Defined.

(** ** More on the cooldown *)

Lemma verify_invoice_button_allowed
    (t : Z) (userId : string) (buttonCooldown : gmap string Z) :
  fst (verify_invoice_button t userId buttonCooldown) = ShowModal ->
  snd (verify_invoice_button t userId buttonCooldown)
  = <[userId := t]> buttonCooldown.
Proof.
  unfold verify_invoice_button.
  now destruct (t - default 0 (buttonCooldown !! userId) <? BUTTON_COOLDOWN_MS).
Qed.

(** X19. After a click that was let through at time [t], the clicks of
    the same account are refused for the next 15000 ms, each being told to
    wait a whole number of seconds from 1 to 15, and a refused click leaves
    the map as it is; from [t + 15000] on the click is let through again. *)
Theorem cooldown_holds_for_the_window
    (t t' : Z) (userId : string) (buttonCooldown : gmap string Z) :
  fst (verify_invoice_button t userId buttonCooldown) = ShowModal ->
  (t <= t' < t + BUTTON_COOLDOWN_MS ->
   exists seconds,
     verify_invoice_button t' userId
       (snd (verify_invoice_button t userId buttonCooldown))
     = (PleaseWait seconds, snd (verify_invoice_button t userId buttonCooldown)) /\
     1 <= seconds <= 15) /\
  (t + BUTTON_COOLDOWN_MS <= t' ->
   fst (verify_invoice_button t' userId
          (snd (verify_invoice_button t userId buttonCooldown)))
   = ShowModal).
Proof.
  intros Hshown.
  rewrite (verify_invoice_button_allowed t userId buttonCooldown Hshown).
  unfold verify_invoice_button. rewrite lookup_insert_eq.
  cbn [from_option]; unfold id. unfold BUTTON_COOLDOWN_MS. split.
  - intros Ht. replace (t' - t <? 15000) with true
      by (symmetry; apply Z.ltb_lt; lia).
    eexists. split; [reflexivity|].
    assert (-15 <= (t' - t - 15000) / 1000).
    { apply Z.div_le_lower_bound; lia. }
    assert ((t' - t - 15000) / 1000 < 0).
    { apply Z.div_lt_upper_bound; lia. }
    lia.
  - intros Ht. replace (t' - t <? 15000) with false
      by (symmetry; apply Z.ltb_ge; lia).
    reflexivity.
Qed.

Lemma cooldown_holds_for_the_window_witness :
  exists seconds,
    verify_invoice_button 1700000004200 "user-1"
      (snd (verify_invoice_button 1700000000000 "user-1" ∅))
    = (PleaseWait seconds, snd (verify_invoice_button 1700000000000 "user-1" ∅)) /\
    1 <= seconds <= 15.
Proof.
  assert (Hshown : fst (verify_invoice_button 1700000000000 "user-1" ∅) = ShowModal)
    by (vm_compute; reflexivity).
  assert (Hwindow : 1700000000000 <= 1700000004200
                    < 1700000000000 + BUTTON_COOLDOWN_MS)
    by (unfold BUTTON_COOLDOWN_MS; lia).
  exact (proj1 (cooldown_holds_for_the_window
                  1700000000000 1700000004200 "user-1" ∅ Hshown) Hwindow).
Defined.

(** X20. The cooldown of one account never touches another: a click of
    [userId], let through or not, leaves the reply to any other account
    what it was. *)
Theorem cooldown_is_per_account
    (t t' : Z) (userId other : string) (buttonCooldown : gmap string Z) :
  userId <> other ->
  fst (verify_invoice_button t' other
         (snd (verify_invoice_button t userId buttonCooldown)))
  = fst (verify_invoice_button t' other buttonCooldown).
Proof.
  intros Hne. unfold verify_invoice_button at 2.
  destruct (t - default 0 (buttonCooldown !! userId) <? BUTTON_COOLDOWN_MS);
    cbn [snd]; [reflexivity|].
  unfold verify_invoice_button. rewrite lookup_insert_ne by exact Hne.
  now destruct (t' - default 0 (buttonCooldown !! other) <? BUTTON_COOLDOWN_MS).
Qed.

Lemma cooldown_is_per_account_witness :
  fst (verify_invoice_button 1700000004200 "user-2"
         (snd (verify_invoice_button 1700000000000 "user-1" ∅)))
  = fst (verify_invoice_button 1700000004200 "user-2" ∅).
Proof.
  apply cooldown_is_per_account. discriminate.
Defined.

(** X21. The prune only drops entries: what it keeps is in the map with
    the same timestamp and is at most five windows old; pruning again at
    the same time changes nothing, and a later prune does the work of an
    earlier one. *)
Theorem prune_only_drops_old_entries
    (t t' : Z) (buttonCooldown : gmap string Z) :
  prune t buttonCooldown ⊆ buttonCooldown /\
  (forall k v, prune t buttonCooldown !! k = Some v ->
               buttonCooldown !! k = Some v /\ t - v <= 5 * BUTTON_COOLDOWN_MS) /\
  prune t (prune t buttonCooldown) = prune t buttonCooldown /\
  (t <= t' -> prune t' (prune t buttonCooldown) = prune t' buttonCooldown).
Proof.
  split; [apply map_filter_subseteq|]. split; [|split].
  - intros k v H. apply prune_lookup_Some in H. destruct H. split; [easy | lia].
  - apply map_eq. intros k. apply option_eq. intros v.
    rewrite !prune_lookup_Some. tauto.
  - intros Ht. apply map_eq. intros k. apply option_eq. intros v.
    rewrite !prune_lookup_Some. intuition lia.
Qed.

Lemma prune_only_drops_old_entries_witness :
  prune 200000 (prune 100000 (<["user-2" := 90000]> {["user-1" := 1000]}))
  = prune 200000 (<["user-2" := 90000]> {["user-1" := 1000]}).
Proof.
  apply (proj2 (proj2 (proj2 (prune_only_drops_old_entries 100000 200000
           (<["user-2" := 90000]> {["user-1" := 1000]}))))).
  lia.
Defined.

(** ** More on the status extractor *)

(** X22. A status the extractor returns is never empty and carries no
    white space around it, of whatever kind JavaScript takes for white
    space: it is its own trimmed form, its first and its last character
    are not white space, so that what the handler uppercases and compares
    is a clean word. *)
Theorem extractInvoiceStatus_is_trimmed invoice s :
  extractInvoiceStatus invoice = Ok (Some s) ->
  s <> "" /\ trim s = s /\
  (forall t, head (chars s) = Some t -> isWhiteSpace t = false) /\
  (forall t, last (chars s) = Some t -> isWhiteSpace t = false) /\
  nonEmpty (toUpperCase s) = true.
Proof.
  apply (extractInvoiceStatus_all
           (fun s => s <> "" /\ trim s = s /\
                     (forall t, head (chars s) = Some t -> isWhiteSpace t = false) /\
                     (forall t, last (chars s) = Some t -> isWhiteSpace t = false) /\
                     nonEmpty (toUpperCase s) = true)).
  clear. intros raw t. unfold StatusSpec.notBlankTrimmed.
  destruct (String.eqb (trim raw) "") eqn:E; [discriminate|].
  intros [= <-]. apply String.eqb_neq in E.
  destruct (trim_spec raw) as (_ & _ & _ & _ & _ & Hhead & Hlast).
  split; [exact E|]. split; [apply trim_idempotent|].
  split; [exact Hhead|]. split; [exact Hlast|].
  rewrite toUpperCase_nonEmpty. unfold nonEmpty.
  apply negb_true_iff. now apply String.eqb_neq.
Qed.

(** A status between a no-break space and an em space. *)
Lemma extractInvoiceStatus_is_trimmed_witness :
  "Completed" <> "" /\ trim "Completed" = "Completed" /\
  nonEmpty (toUpperCase "Completed") = true.
Proof.
  pose proof (extractInvoiceStatus_is_trimmed
           (VObj [("status",
                   VObj [("status",
                          VStr (encode 0xA0 +:+ "Completed" +:+ encode 0x2003))])])
           "Completed" ltac:(vm_compute; reflexivity)) as (H1 & H2 & _ & _ & H3).
  exact (conj H1 (conj H2 H3)).
Defined.

(** ** Embeds *)

Lemma nonBlank_trimmed s :
  nonEmpty s = true -> trim s = s -> nonBlank (Some s) = Some s.
Proof. intros Hne Ht. unfold nonBlank. now rewrite Ht, Hne. Qed.

Lemma buildEmbed_spec lib title description imageUrl thumbnailUrl author
      mode timestamp now e :
  buildEmbed lib title description imageUrl thumbnailUrl author mode timestamp now
  = Some e ->
  embed_color e = EMBED_COLOR /\
  embed_title e = nonBlank title /\
  embed_image e = nonBlank imageUrl /\
  embed_thumbnail e = nonBlank thumbnailUrl /\
  embed_description e =
    Some (orEmpty (nonBlank description)
          +:+ modeLine mode author
                (match timestamp with
                 | Some given => if given =? 0 then now / 1000 else given
                 | None => now / 1000
                 end)).
Proof.
  unfold buildEmbed, setIfGiven.
  destruct (nonBlank title) as [t|];
    [destruct (titleAccepted lib t); [|discriminate]|];
    (destruct (nonBlank description) as [d|];
     [destruct (descriptionAccepted lib d); [|discriminate]|]);
    (destruct (nonBlank imageUrl) as [i|];
     [destruct (urlAccepted lib i); [|discriminate]|]);
    (destruct (nonBlank thumbnailUrl) as [th|];
     [destruct (urlAccepted lib th); [|discriminate]|]);
    cbn [mbind option_bind orEmpty];
    match goal with |- context [descriptionAccepted lib ?x] =>
      destruct (descriptionAccepted lib x) end;
    try discriminate; intros [= <-]; cbn; repeat split; reflexivity.
Qed.

Lemma imagesOnly_spec lib images es :
  imagesOnly lib images = Some es ->
  imagesOf es = images /\ length es = length images /\
  Forall (fun e => embed_color e = EMBED_COLOR) es.
Proof.
  revert es. induction images as [|img rest IH]; cbn; intros es.
  - intros [= <-]. now repeat split.
  - unfold imageOnly. destruct (urlAccepted lib img); [|discriminate].
    cbn [mbind option_bind].
    destruct (imagesOnly lib rest) as [es'|]; [|discriminate].
    cbn [mbind option_bind]. intros [= <-].
    destruct (IH es' eq_refl) as (H1 & H2 & H3).
    unfold imagesOf in *. cbn [flat_map embed_image length app].
    rewrite H1, H2. repeat split. constructor; [reflexivity | exact H3].
Qed.

Lemma embedsToSend_spec lib title description images author now embeds :
  Forall (fun img => nonEmpty img = true /\ trim img = img) images ->
  embedsToSend lib title description images author now = Some embeds ->
  (1 <= length embeds <= 1 + length images)%nat /\
  imagesOf embeds = images /\
  Forall (fun e => embed_color e = EMBED_COLOR) embeds /\
  exists primary rest,
    embeds = primary :: rest /\
    embed_description primary =
      Some (orEmpty (nonBlank (Some description))
            +:+ modeLine "submit" author (now / 1000)).
Proof.
  intros Himgs. unfold embedsToSend.
  destruct images as [|img [|img2 rest]].
  - destruct (buildEmbed _ _ _ _ _ _ _ _ _) as [e|] eqn:B; [|discriminate].
    cbn [mbind option_bind]. intros [= <-].
    apply buildEmbed_spec in B. destruct B as (Hc & _ & Hi & _ & Hd).
    cbn [length]. split; [lia|]. split.
    + cbn. now rewrite Hi.
    + split; [now repeat constructor|]. now exists e, [].
  - destruct (buildEmbed _ _ _ _ _ _ _ _ _) as [e|] eqn:B; [|discriminate].
    cbn [mbind option_bind]. intros [= <-].
    apply buildEmbed_spec in B. destruct B as (Hc & _ & Hi & _ & Hd).
    inversion Himgs as [|? ? [Hne Ht] _]; subst.
    rewrite (nonBlank_trimmed img Hne Ht) in Hi.
    cbn [length]. split; [lia|]. split.
    + cbn. now rewrite Hi.
    + split; [now repeat constructor|]. now exists e, [].
  - destruct (buildEmbed _ _ _ _ _ _ _ _ _) as [e|] eqn:B; [|discriminate].
    cbn [mbind option_bind].
    destruct (imagesOnly lib (img :: img2 :: rest)) as [es|] eqn:I; [|discriminate].
    cbn [mbind option_bind]. intros [= <-].
    apply buildEmbed_spec in B. destruct B as (Hc & _ & Hi & _ & Hd).
    apply imagesOnly_spec in I. destruct I as (I1 & I2 & I3).
    cbn [length]. rewrite I2. split; [cbn [length]; lia|]. split.
    + unfold imagesOf in *. cbn [flat_map]. rewrite Hi. exact I1.
    + split; [now constructor|]. now exists e, es.
Qed.

Lemma sendAll_one rejects (chunk : list Embed) :
  snd (sendAll rejects [chunk]) = [chunk].
Proof. cbn. now destruct rejects. Qed.

(** X23. An [/embed] submission is posted as one message at most, and
    only to a text channel of the guild. The message holds one to four
    embeds, all in the colour of the bot; the images they show are exactly
    the images gathered from the form, in order; and the first embed ends
    with the line that names who submitted it and when. *)
Theorem embedModal_posts_one_message
    lib fields channels channelId author now :
  let r := embedModal lib fields channels channelId author now in
  (length (snd r) <= 1)%nat /\
  forall message,
    In message (snd r) ->
    (1 <= length message <= 4)%nat /\
    imagesOf message = collectImages fields "embed_image_" MAX_IMAGES /\
    Forall (fun e => embed_color e = EMBED_COLOR) message /\
    (exists lookup target,
        channels = Some lookup /\ lookup channelId = Some target /\
        target_isGuildText target = true) /\
    exists primary rest body,
      message = primary :: rest /\
      embed_description primary =
        Some (body +:+ modeLine "submit" author (now / 1000)).
Proof.
  cbn zeta. unfold embedModal.
  destruct (fields "embed_title") as [rawTitle|];
    [|split; [cbn; lia | intros ? []]].
  destruct (fields "embed_description") as [rawDescription|];
    [|split; [cbn; lia | intros ? []]].
  destruct channels as [lookup|]; [|split; [cbn; lia | intros ? []]].
  destruct (lookup channelId) as [target|] eqn:L;
    [|split; [cbn; lia | intros ? []]].
  destruct (target_isGuildText target) eqn:T; cbn [negb];
    [|split; [cbn; lia | intros ? []]].
  destruct (embedsToSend _ _ _ _ _ _) as [embeds|] eqn:E;
    [|split; [cbn; lia | intros ? []]].
  pose proof (collectImages_clean fields "embed_image_" MAX_IMAGES) as Hclean.
  destruct (embedsToSend_spec _ _ _ _ _ _ _ Hclean E)
    as (Hlen & Himgs & Hcol & primary & rest & -> & Hdesc).
  pose proof (collectImages_length fields "embed_image_" MAX_IMAGES) as H3.
  unfold MAX_IMAGES in *.
  rewrite (sendChunks_single (primary :: rest))
    by (cbn [length] in *; first [lia | discriminate]).
  rewrite sendAll_one. split; [cbn; lia|].
  intros message [<-|[]]. split; [lia|]. split; [exact Himgs|].
  split; [exact Hcol|]. split; [now exists lookup, target|].
  now exists primary, rest, (orEmpty (nonBlank (Some (unescapeNewlines rawDescription)))).
Qed.

Lemma embedModal_posts_one_message_witness :
  let lib := {| titleAccepted := fun _ => true;
                descriptionAccepted := fun _ => true;
                urlAccepted := fun _ => true |} in
  let fields := fun name =>
    if String.eqb name "embed_title" then Some "News"
    else if String.eqb name "embed_description" then Some "Line one"
    else if String.eqb name "embed_image_1" then Some "https://a.example/x.png"
    else if String.eqb name "embed_image_2" then Some "https://a.example/y.png"
    else None in
  let channels := Some (fun _ : string =>
    Some {| target_isGuildText := true; send_rejects := false;
            target_message := fun _ => None |}) in
  let picture := fun url =>
    {| embed_color := EMBED_COLOR; embed_title := None;
       embed_description := None; embed_image := Some url;
       embed_thumbnail := None |} in
  let message :=
    [{| embed_color := EMBED_COLOR; embed_title := Some "News";
        embed_description :=
          Some ("Line one" +:+ modeLine "submit" (Some "Ann") 1700000000);
        embed_image := None; embed_thumbnail := None |};
     picture "https://a.example/x.png"; picture "https://a.example/y.png"] in
  In message
     (snd (embedModal lib fields channels "123" (Some "Ann") 1700000000000)) /\
  (1 <= length message <= 4)%nat /\
  imagesOf message = ["https://a.example/x.png"; "https://a.example/y.png"].
Proof.
  intros lib fields channels picture message.
  assert (Hin : In message
            (snd (embedModal lib fields channels "123" (Some "Ann")
                             1700000000000)))
    by (vm_compute; left; reflexivity).
  split; [exact Hin|].
  destruct (proj2 (embedModal_posts_one_message lib fields channels "123"
                     (Some "Ann") 1700000000000) message Hin)
    as (Hlen & Himgs & _).
  split; [exact Hlen|]. rewrite Himgs. vm_compute. reflexivity.
Defined.

(** X24. The [editembedModal] handler calls [message.edit] only on a
    message it found in a text channel of the guild, that the bot wrote
    and that has at least one embed. What it hands over is one to four
    embeds: first the edited text, with no image and ending with the
    "Edit By" line stamped with the time of the edit in seconds, then one
    embed per image gathered from the form, in order. *)
Theorem editembedModal_edits_own_messages
    lib fields channels channelId messageId author now newEmbeds :
  snd (editembedModal lib fields channels channelId messageId author now)
  = Some newEmbeds ->
  (exists lookup channel message,
      channels = Some lookup /\ lookup channelId = Some channel /\
      target_isGuildText channel = true /\
      target_message channel messageId = Some message /\
      authoredByBot message = true /\ (1 <= embedCount message)%nat) /\
  (1 <= length newEmbeds <= 4)%nat /\
  exists primary rest body,
    newEmbeds = primary :: rest /\
    embed_image primary = None /\
    embed_description primary =
      Some (body +:+ modeLine "edit" author (now / 1000)) /\
    imagesOf rest = collectImages fields "edit_image_" 3.
Proof.
  unfold editembedModal.
  destruct channels as [lookup|]; [|discriminate].
  destruct (lookup channelId) as [channel|] eqn:L; [|discriminate].
  destruct (target_isGuildText channel) eqn:T; cbn [negb]; [|discriminate].
  destruct (target_message channel messageId) as [message|] eqn:Mg; [|discriminate].
  destruct (authoredByBot message) eqn:A; cbn [negb]; [|discriminate].
  destruct (embedCount message =? 0)%nat eqn:C; [discriminate|].
  apply Nat.eqb_neq in C.
  destruct (fields "edit_title") as [rawTitle|]; [|discriminate].
  destruct (fields "edit_description") as [rawDescription|]; [|discriminate].
  cbn zeta.
  destruct (buildEmbed _ _ _ _ _ _ _ _ _) as [primary|] eqn:B; [|discriminate].
  destruct (imagesOnly lib _) as [rest|] eqn:I; [|discriminate].
  intros H.
  assert (E : newEmbeds = primary :: rest)
    by (destruct (edit_rejects message); now injection H as <-).
  subst newEmbeds.
  apply buildEmbed_spec in B. destruct B as (_ & _ & Hi & _ & Hd).
  apply imagesOnly_spec in I. destruct I as (I1 & I2 & _).
  pose proof (collectImages_length fields "edit_image_" 3) as H3.
  split; [exists lookup, channel, message; repeat split; try assumption; lia|].
  split; [cbn [length]; lia|].
  exists primary, rest, (orEmpty (nonBlank (Some (trim rawDescription)))).
  split; [reflexivity|]. split; [exact Hi|]. split; [|exact I1].
  rewrite Hd. now destruct (now / 1000 =? 0).
Qed.

Lemma editembedModal_edits_own_messages_witness :
  (1 <= length
          [{| embed_color := EMBED_COLOR; embed_title := Some "News";
              embed_description :=
                Some ("Fixed" +:+ modeLine "edit" (Some "Ann") 1700000000);
              embed_image := None; embed_thumbnail := None |}] <= 4)%nat.
Proof.
  exact (proj1 (proj2
    (editembedModal_edits_own_messages
       {| titleAccepted := fun _ => true; descriptionAccepted := fun _ => true;
          urlAccepted := fun _ => true |}
       (fun name =>
          if String.eqb name "edit_title" then Some "News"
          else if String.eqb name "edit_description" then Some " Fixed "
          else None)
       (Some (fun _ : string =>
          Some {| target_isGuildText := true; send_rejects := false;
                  target_message := fun _ =>
                    Some {| authoredByBot := true; embedCount := 1;
                            edit_rejects := false |} |}))
       "123" (Some "456") (Some "Ann") 1700000000000
       [{| embed_color := EMBED_COLOR; embed_title := Some "News";
           embed_description :=
             Some ("Fixed" +:+ modeLine "edit" (Some "Ann") 1700000000);
           embed_image := None; embed_thumbnail := None |}]
       eq_refl))).
Defined.
